(** * Cordex repository engine: write batcher, cache layer, query engine

    A shallow embedding of [DatabaseRepository] (the repository module with
    its entity registry and its types) and the properties the specification
    states about it.

    Conventions of the model.
    - Strings are [string]; JavaScript's [<] and [>] on strings compare code
      units, which is [String.compare] on the ASCII timestamps the program
      stores.
    - [Date.now()] is the field [clock] of the state, in milliseconds.  A
      pending [setTimeout] is the deadline at which its callback runs.
    - A time value of [Date] is an integer of milliseconds, the invalid date
      (NaN) is [None].  The local time zone is the function [LocalTZA] of the
      environment, named as in ECMAScript: the offset at a time given in UTC
      or in local time.  [getHours] and [setHours] follow the standard's
      [LocalTime], [MakeTime], [MakeDate], [UTC] and [TimeClip].
    - An age in hours ([maxAgeHours]) is a whole number.  Of the values of
      the number type, the fractions, which [setHours] truncates after the
      subtraction, and NaN are not represented; on the integers met here the
      arithmetic of doubles is exact or ends outside the range of [Date].
    - An asynchronous method is a function from states to a result and a
      state: the run of that method when nothing else is interleaved with
      it.  Awaiting a promise lets the pending timers run.
    - [dbInstance.write()] is decided by the environment: its [k]-th call
      fails with an error code or succeeds and copies the document tree to
      the file.  Loading the file ([initializeDatabase]) is taken to succeed.
    - Arrays are lists.  Where the program hands the very array held by a
      cache entry to code that writes into it ([sort] in [query], the indexed
      assignment in [storeUnique]), the cache entry is rewritten too.  An
      array shared between the document tree and a cache entry, which a
      failed [replaceAll] inside [storeUnique] leaves behind, is not tracked.
    - [Math.floor(n * 0.2)] is [n / 5] on naturals (exact for IEEE doubles
      below 2^53).
    - Collection keys and storage keys are taken not to be names an object
      inherits from [Object.prototype], so that a missing key reads as
      [undefined].  The empty string stands for a class without
      [storageKey].
    - Of the performance metrics the counters are kept; the floating-point
      averages ([avgWriteTime], [lastWriteTime]) are left out.
    - A cache entry holds an array or a single entity.  The keys of a
      collection and of an entity can coincide ([getAll] under the key
      "g1:u1" after [getById] of "u1" under "g1"); the program then hands
      back the cached value of the other shape under the caller's cast, and
      what happens next depends on its use.  [Mistyped] stands for that
      outcome, which the model does not follow further.
    - A comparator given to [sort] is a consistent order, as
      [Array.prototype.sort] asks for; the sort is stable.
    - An option of the configuration is given a value or left out; a key
      given with the value [undefined] is not represented.
    - The module is modelled as it is in its current form, with the cache and
      the query engine.  Of the earlier copy without them only the list
      [deleteById] computes is embedded, for comparison
      ([legacy_updatedItems]).
    - A field read by name ([entity[fieldName]]) is the projection that reads
      it, its values compared by value; a method of an entity ([isExpired])
      is the function it computes at the time of the call.
    - Time passes only while a timer is awaited: the clock is the same at the
      start and at the end of a method that awaits none. *)

From Stdlib Require Import ZArith Lia List Bool String Ascii Sorted.
From stdpp Require Import base option list gmap strings pretty fin_maps.
Import ListNotations.

Local Open Scope string_scope.
Local Open Scope list_scope.
Local Open Scope Z_scope.

(** ** Entities and classes *)

(** A class (constructor function).  [storageKey] is the static property;
    the empty string stands for an absent one, both being falsy. *)
Record EntityClass := {
  className : string;
  storageKey : string
}.

(** A record as the engine sees it: its class, the optional [id] and
    [timestamp] fields probed by value, and the rest of its fields. *)
Record Entity := {
  ent_class : EntityClass;
  ent_id : option string;
  ent_timestamp : option string;
  ent_payload : string
}.

#[global] Instance EntityClass_eq_dec : EqDecision EntityClass.
Proof. solve_decision. Defined.

#[global] Instance Entity_eq_dec : EqDecision Entity.
Proof. solve_decision. Defined.

(** ** Errors and results *)

Inductive Error :=
| RegistryRequired                 (* 'EntityRegistry is required. ...' *)
| NotRegistered (name : string)    (* 'Entity <name> is not registered. ...' *)
| MissingStorageKey                (* '... must have a static storageKey property' *)
| WriteFailed (code : Z)           (* what dbInstance.write() threw *)
| Mistyped                         (* a cached value of the other shape was handed back *)
| RangeError.                      (* 'Invalid time value', of toISOString *)

#[global] Instance Error_eq_dec : EqDecision Error.
Proof. solve_decision. Defined.

(** [Pending]: the awaited promise is not settled by any step of the model. *)
Inductive Result (A : Type) :=
| Ok (a : A)
| Err (e : Error)
| Pending.
Arguments Ok {A} a.
Arguments Err {A} e.
Arguments Pending {A}.

Inductive Outcome := Resolved | Rejected (e : Error).

(** ** Registry (registry.ts) *)

Record EntityRegistration := {
  reg_storageKey : string;
  getCollectionKey : Entity -> string
}.

(** [Map<Function, EntityRegistration>]: an association list on classes. *)
Definition EntityRegistry := list (EntityClass * EntityRegistration).

Fixpoint registry_get (r : EntityRegistry) (c : EntityClass) : option EntityRegistration :=
  match r with
  | [] => None
  | (c', reg) :: r' => if decide (c' = c) then Some reg else registry_get r' c
  end.

Fixpoint registry_set (r : EntityRegistry) (c : EntityClass) (reg : EntityRegistration)
  : EntityRegistry :=
  match r with
  | [] => [(c, reg)]
  | (c', reg') :: r' =>
      if decide (c' = c) then (c, reg) :: r' else (c', reg') :: registry_set r' c reg
  end.

Definition register (r : EntityRegistry) (c : EntityClass) (f : Entity -> string)
  : Result EntityRegistry :=
  if String.eqb (storageKey c) "" then Err MissingStorageKey
  else Ok (registry_set r c {| reg_storageKey := storageKey c; getCollectionKey := f |}).

Definition getRegistrationForInstance (r : EntityRegistry) (e : Entity)
  : option EntityRegistration :=
  registry_get r (ent_class e).

(** ** Configuration, cache entries, pending writes *)

Record RepositoryConfig := {
  entityRegistry : option EntityRegistry;
  enableCaching : bool;
  cacheTTL : Z;
  maxCacheSize : Z
}.

(** The argument of [initialize]: every field but the path is optional. *)
Record ConfigInput := {
  in_entityRegistry : option EntityRegistry;
  in_enableCaching : option bool;
  in_cacheTTL : option Z;
  in_maxCacheSize : option Z
}.

(** What a cache entry holds: the array cached by [getAll] or the entity
    (or null) cached by [getById]. *)
Inductive CacheData :=
| CArray (l : list Entity)
| CEntity (e : option Entity).

Record CacheEntry := {
  ce_data : CacheData;
  expiresAt : Z;
  accessCount : nat;
  lastAccessed : Z
}.

Record PendingWrite := {
  pw_collectionKey : string;
  pw_storageKey : string;
  pw_data : Entity
}.

Record PerformanceMetrics := {
  totalWrites : nat;
  batchedWrites : nat
}.

Record CacheStats := {
  hits : nat;
  misses : nat;
  evictions : nat
}.

(** The document tree: collection key, then storage key, then the list. *)
Abbreviation Tree := (gmap string (gmap string (list Entity))).

(** The environment of a run. *)
Record Env := {
  writeFails : nat -> option Z;     (* outcome of the k-th dbInstance.write() *)
  toISOString : Z -> string;        (* Date.prototype.toISOString on a time in ms *)
  LocalTZA : Z -> bool -> Z         (* offset of the local time zone, in ms, at a
                                       time that is UTC ([true]) or local ([false]) *)
}.

Record State := {
  config : option RepositoryConfig;
  initialized : bool;
  data : Tree;                      (* dbInstance.data *)
  pendingWrites : list PendingWrite;
  writeTimeout : option Z;          (* deadline of the pending flush timer *)
  isWriting : bool;
  metrics : PerformanceMetrics;
  cache : list (string * CacheEntry);   (* a Map, in insertion order *)
  cacheStats : CacheStats;
  clock : Z;                        (* Date.now() *)
  file : Tree;                      (* what the last successful write stored *)
  writeCalls : nat;                 (* calls of dbInstance.write() so far *)
  slept : list Z                    (* delays waited by executeWithRetry *)
}.

Definition BATCH_DELAY_MS : Z := 50.
Definition MAX_BATCH_SIZE : nat := 100.
Definition MAX_RETRIES : nat := 3.
Definition RETRY_DELAY_MS : Z := 100.

(** Field updates. *)

Definition set_data v (st : State) : State :=
  {| config := config st;
     initialized := initialized st;
     data := v;
     pendingWrites := pendingWrites st;
     writeTimeout := writeTimeout st;
     isWriting := isWriting st;
     metrics := metrics st;
     cache := cache st;
     cacheStats := cacheStats st;
     clock := clock st;
     file := file st;
     writeCalls := writeCalls st;
     slept := slept st |}.

Definition set_pendingWrites v (st : State) : State :=
  {| config := config st;
     initialized := initialized st;
     data := data st;
     pendingWrites := v;
     writeTimeout := writeTimeout st;
     isWriting := isWriting st;
     metrics := metrics st;
     cache := cache st;
     cacheStats := cacheStats st;
     clock := clock st;
     file := file st;
     writeCalls := writeCalls st;
     slept := slept st |}.

Definition set_writeTimeout v (st : State) : State :=
  {| config := config st;
     initialized := initialized st;
     data := data st;
     pendingWrites := pendingWrites st;
     writeTimeout := v;
     isWriting := isWriting st;
     metrics := metrics st;
     cache := cache st;
     cacheStats := cacheStats st;
     clock := clock st;
     file := file st;
     writeCalls := writeCalls st;
     slept := slept st |}.

Definition set_isWriting v (st : State) : State :=
  {| config := config st;
     initialized := initialized st;
     data := data st;
     pendingWrites := pendingWrites st;
     writeTimeout := writeTimeout st;
     isWriting := v;
     metrics := metrics st;
     cache := cache st;
     cacheStats := cacheStats st;
     clock := clock st;
     file := file st;
     writeCalls := writeCalls st;
     slept := slept st |}.

Definition set_metrics v (st : State) : State :=
  {| config := config st;
     initialized := initialized st;
     data := data st;
     pendingWrites := pendingWrites st;
     writeTimeout := writeTimeout st;
     isWriting := isWriting st;
     metrics := v;
     cache := cache st;
     cacheStats := cacheStats st;
     clock := clock st;
     file := file st;
     writeCalls := writeCalls st;
     slept := slept st |}.

Definition set_cache v (st : State) : State :=
  {| config := config st;
     initialized := initialized st;
     data := data st;
     pendingWrites := pendingWrites st;
     writeTimeout := writeTimeout st;
     isWriting := isWriting st;
     metrics := metrics st;
     cache := v;
     cacheStats := cacheStats st;
     clock := clock st;
     file := file st;
     writeCalls := writeCalls st;
     slept := slept st |}.

Definition set_cacheStats v (st : State) : State :=
  {| config := config st;
     initialized := initialized st;
     data := data st;
     pendingWrites := pendingWrites st;
     writeTimeout := writeTimeout st;
     isWriting := isWriting st;
     metrics := metrics st;
     cache := cache st;
     cacheStats := v;
     clock := clock st;
     file := file st;
     writeCalls := writeCalls st;
     slept := slept st |}.

Definition set_clock v (st : State) : State :=
  {| config := config st;
     initialized := initialized st;
     data := data st;
     pendingWrites := pendingWrites st;
     writeTimeout := writeTimeout st;
     isWriting := isWriting st;
     metrics := metrics st;
     cache := cache st;
     cacheStats := cacheStats st;
     clock := v;
     file := file st;
     writeCalls := writeCalls st;
     slept := slept st |}.

Definition set_file v (st : State) : State :=
  {| config := config st;
     initialized := initialized st;
     data := data st;
     pendingWrites := pendingWrites st;
     writeTimeout := writeTimeout st;
     isWriting := isWriting st;
     metrics := metrics st;
     cache := cache st;
     cacheStats := cacheStats st;
     clock := clock st;
     file := v;
     writeCalls := writeCalls st;
     slept := slept st |}.

Definition set_writeCalls v (st : State) : State :=
  {| config := config st;
     initialized := initialized st;
     data := data st;
     pendingWrites := pendingWrites st;
     writeTimeout := writeTimeout st;
     isWriting := isWriting st;
     metrics := metrics st;
     cache := cache st;
     cacheStats := cacheStats st;
     clock := clock st;
     file := file st;
     writeCalls := v;
     slept := slept st |}.

Definition set_slept v (st : State) : State :=
  {| config := config st;
     initialized := initialized st;
     data := data st;
     pendingWrites := pendingWrites st;
     writeTimeout := writeTimeout st;
     isWriting := isWriting st;
     metrics := metrics st;
     cache := cache st;
     cacheStats := cacheStats st;
     clock := clock st;
     file := file st;
     writeCalls := writeCalls st;
     slept := v |}.

(** ** The state and error monad of the asynchronous methods *)

Definition M (A : Type) : Type := State -> Result A * State.

Definition ret {A} (a : A) : M A := fun st => (Ok a, st).

Definition throw {A} (e : Error) : M A := fun st => (Err e, st).

Definition bind {A B} (m : M A) (k : A -> M B) : M B :=
  fun st =>
    match m st with
    | (Ok a, st1) => k a st1
    | (Err e, st1) => (Err e, st1)
    | (Pending, st1) => (Pending, st1)
    end.

Definition gets {A} (f : State -> A) : M A := fun st => (Ok (f st), st).

Definition modify (f : State -> State) : M unit := fun st => (Ok tt, f st).

Declare Scope repo_scope.
Delimit Scope repo_scope with repo.
Notation "x <- c1 ;; c2" := (bind c1 (fun x => c2))
  (at level 100, c1 at next level, right associativity) : repo_scope.
Notation "c1 ;;; c2" := (bind c1 (fun _ => c2))
  (at level 100, right associativity) : repo_scope.
Local Open Scope repo_scope.

(** ** JavaScript array helpers *)

(** [Array.prototype.sort] with a comparator: a stable insertion sort, [x]
    going after every element [y] with [cmp y x <= 0]. *)
Fixpoint insertSorted {A} (cmp : A -> A -> Z) (x : A) (l : list A) : list A :=
  match l with
  | [] => [x]
  | y :: l' => if 0 <? cmp y x then x :: y :: l' else y :: insertSorted cmp x l'
  end.

Definition arraySort {A} (cmp : A -> A -> Z) (l : list A) : list A :=
  fold_left (fun acc x => insertSorted cmp x acc) l [].

(** The bound of [slice] for an index [i] on an array of length [len]. *)
Definition sliceIndex (len : nat) (i : Z) : nat :=
  if i <? 0 then Z.to_nat (Z.max (Z.of_nat len + i) 0)
  else Nat.min (Z.to_nat i) len.

(** [l.slice(start, stop)]. *)
Definition slice {A} (start stop : Z) (l : list A) : list A :=
  let from := sliceIndex (length l) start in
  let to := sliceIndex (length l) stop in
  take (to - from) (drop from l).

(** [l.slice(start)]. *)
Definition sliceFrom {A} (start : Z) (l : list A) : list A :=
  drop (sliceIndex (length l) start) l.

(** [l.findIndex(p)], [None] for -1. *)
Fixpoint findIndex {A} (p : A -> bool) (l : list A) : option nat :=
  match l with
  | [] => None
  | x :: l' => if p x then Some 0%nat else S <$> findIndex p l'
  end.

(** [a > b] on strings. *)
Definition str_gt (a b : string) : bool :=
  match String.compare a b with
  | Gt => true
  | _ => false
  end.

(** ** Cache layer *)

Fixpoint cache_get (k : string) (c : list (string * CacheEntry)) : option CacheEntry :=
  match c with
  | [] => None
  | (k', e) :: c' => if String.eqb k' k then Some e else cache_get k c'
  end.

(** [Map.set]: a present key keeps its place, a new one goes last. *)
Fixpoint cache_set (k : string) (e : CacheEntry) (c : list (string * CacheEntry))
  : list (string * CacheEntry) :=
  match c with
  | [] => [(k, e)]
  | (k', e') :: c' =>
      if String.eqb k' k then (k, e) :: c' else (k', e') :: cache_set k e c'
  end.

Definition cache_delete (k : string) (c : list (string * CacheEntry))
  : list (string * CacheEntry) :=
  List.filter (fun p => negb (String.eqb (fst p) k)) c.

Definition getCacheKey (entityType collectionKey : string) (suffix : option string) : string :=
  match suffix with
  | Some s => if String.eqb s "" then entityType +:+ ":" +:+ collectionKey
              else entityType +:+ ":" +:+ collectionKey +:+ ":" +:+ s
  | None => entityType +:+ ":" +:+ collectionKey
  end.

(** [this.config?.enableCaching] *)
Definition cachingEnabled (st : State) : bool :=
  match config st with
  | Some c => enableCaching c
  | None => false
  end.

Definition bumpMisses (s : CacheStats) : CacheStats :=
  {| hits := hits s; misses := S (misses s); evictions := evictions s |}.

Definition bumpHits (s : CacheStats) : CacheStats :=
  {| hits := S (hits s); misses := misses s; evictions := evictions s |}.

Definition addEvictions (n : nat) (s : CacheStats) : CacheStats :=
  {| hits := hits s; misses := misses s; evictions := (evictions s + n)%nat |}.

Definition touch (now : Z) (e : CacheEntry) : CacheEntry :=
  {| ce_data := ce_data e;
     expiresAt := expiresAt e;
     accessCount := S (accessCount e);
     lastAccessed := now |}.

Definition getFromCache (key : string) (st : State) : option CacheData * State :=
  if negb (cachingEnabled st) then (None, st)
  else
    match cache_get key (cache st) with
    | None => (None, set_cacheStats (bumpMisses (cacheStats st)) st)
    | Some entry =>
        if expiresAt entry <? clock st then
          (None, set_cacheStats (bumpMisses (cacheStats st))
                   (set_cache (cache_delete key (cache st)) st))
        else
          (Some (ce_data entry),
           set_cacheStats (bumpHits (cacheStats st))
             (set_cache (cache_set key (touch (clock st) entry) (cache st)) st))
    end.

(** The entries sorted by [lastAccessed], oldest first. *)
Definition byLastAccessed (c : list (string * CacheEntry)) : list (string * CacheEntry) :=
  arraySort (fun a b => lastAccessed (snd a) - lastAccessed (snd b)) c.

Definition evictOldestEntries (st : State) : State :=
  let entries := byLastAccessed (cache st) in
  let toRemove := (length entries / 5)%nat in
  let victims := take toRemove entries in
  set_cacheStats (addEvictions toRemove (cacheStats st))
    (set_cache (fold_left (fun c v => cache_delete (fst v) c) victims (cache st)) st).

Definition setCache (key : string) (d : CacheData) (st : State) : State :=
  match config st with
  | None => st
  | Some cfg =>
      if negb (enableCaching cfg) then st
      else
        let st1 := if maxCacheSize cfg <=? Z.of_nat (length (cache st))
                   then evictOldestEntries st else st in
        set_cache
          (cache_set key
             {| ce_data := d;
                expiresAt := clock st1 + cacheTTL cfg;
                accessCount := 1;
                lastAccessed := clock st1 |}
             (cache st1))
          st1
  end.

Definition clearCacheByPattern (pattern : string) (st : State) : State :=
  set_cache (List.filter (fun p => negb (String.prefix pattern (fst p))) (cache st)) st.

(** ** Document store and write batcher *)

(** [data[collectionKey]?.[storageKey]] *)
Definition readList (t : Tree) (collectionKey storageKey : string) : option (list Entity) :=
  match t !! collectionKey with
  | Some inner => inner !! storageKey
  | None => None
  end.

(** [data[collectionKey][storageKey] = objects], creating [data[collectionKey]]. *)
Definition writeList (t : Tree) (collectionKey storageKey : string) (objects : list Entity)
  : Tree :=
  <[collectionKey := <[storageKey := objects]> (default ∅ (t !! collectionKey))]> t.

(** One turn of the loop of [performBatchWrite]: create what is missing, push. *)
Definition pushRecord (t : Tree) (w : PendingWrite) : Tree :=
  writeList t (pw_collectionKey w) (pw_storageKey w)
    (default [] (readList t (pw_collectionKey w) (pw_storageKey w)) ++ [pw_data w]).

Definition scheduleBatchWrite (resetExisting : bool) (st : State) : State :=
  match writeTimeout st with
  | Some _ =>
      if negb resetExisting then st
      else set_writeTimeout (Some (clock st + BATCH_DELAY_MS)) st
  | None => set_writeTimeout (Some (clock st + BATCH_DELAY_MS)) st
  end.

(** The synchronous part of [storeData]: queue the write, reset the timer.
    The promise it returns is the queued record itself. *)
Definition storeData (collectionKey storageKey : string) (d : Entity) (st : State) : State :=
  scheduleBatchWrite true
    (set_pendingWrites
       (pendingWrites st ++
          [{| pw_collectionKey := collectionKey; pw_storageKey := storageKey; pw_data := d |}])
       st).

Definition recordBatch (n : nat) (m : PerformanceMetrics) : PerformanceMetrics :=
  {| totalWrites := S (totalWrites m); batchedWrites := (batchedWrites m + n)%nat |}.

Section Engine.

Variable env : Env.

(** [await this.dbInstance.write()]: [None] when the file was written. *)
Definition dbWrite (st : State) : option Error * State :=
  let st1 := set_writeCalls (S (writeCalls st)) st in
  match writeFails env (writeCalls st) with
  | Some code => (Some (WriteFailed code), st1)
  | None => (None, set_file (data st1) st1)
  end.

(** [performBatchWrite], with the promises it settled, in order. *)
Definition performBatchWrite (st : State) : list (PendingWrite * Outcome) * State :=
  if Nat.eqb (length (pendingWrites st)) 0 || isWriting st then ([], st)
  else
    let batch := take MAX_BATCH_SIZE (pendingWrites st) in
    let st1 := set_pendingWrites (drop MAX_BATCH_SIZE (pendingWrites st))
                 (set_isWriting true st) in
    let st2 := set_data (fold_left pushRecord batch (data st1)) st1 in
    let '(failure, st3) := dbWrite st2 in
    let '(settled, st4) :=
      match failure with
      | None =>
          (map (fun w => (w, Resolved)) batch,
           set_metrics (recordBatch (length batch) (metrics st3)) st3)
      | Some e => (map (fun w => (w, Rejected e)) batch, st3)
      end in
    let st5 := set_isWriting false st4 in
    (settled,
     if Nat.ltb 0 (length (pendingWrites st5)) then scheduleBatchWrite false st5 else st5).

(** The callback of the flush timer. *)
Definition fireTimer (st : State) : list (PendingWrite * Outcome) * State :=
  performBatchWrite (set_writeTimeout None st).

Definition flushPendingWrites (st : State) : list (PendingWrite * Outcome) * State :=
  performBatchWrite (match writeTimeout st with
                     | Some _ => set_writeTimeout None st
                     | None => st
                     end).

(** Let the clock reach the deadline [d] and run the timer callback. *)
Definition fireAt (d : Z) (st : State) : list (PendingWrite * Outcome) * State :=
  fireTimer (set_clock (Z.max (clock st) d) st).

(** Run the flush timers due up to time [t]; every firing with a non-empty
    queue shortens it, which bounds the number of firings. *)
Fixpoint runTimers (fuel : nat) (t : Z) (st : State) : State :=
  match fuel with
  | O => st
  | S n =>
      match writeTimeout st with
      | Some d => if d <=? t then runTimers n t (snd (fireAt d st)) else st
      | None => st
      end
  end.

(** Time passes until [t]. *)
Definition advanceTo (t : Z) (st : State) : State :=
  let st1 := runTimers (S (length (pendingWrites st))) t st in
  set_clock (Z.max (clock st1) t) st1.

(** [await new Promise(resolve => setTimeout(resolve, delay))] *)
Definition sleep (delay : Z) (st : State) : State :=
  advanceTo (clock st + delay) (set_slept (slept st ++ [delay]) st).

(** The loop of [executeWithRetry], from attempt [attempt] on, with [fuel]
    attempts left; [lastError] is what the last failed attempt threw.  The
    loop ends by throwing [lastError]; it is entered with [MAX_RETRIES]
    attempts left, so an attempt has failed by then. *)
Fixpoint retryLoop {A} (fuel attempt : nat) (lastError : option Error) (operation : M A)
  : M A :=
  fun st =>
    match fuel with
    | O =>
        match lastError with
        | Some e => (Err e, st)
        | None => (Pending, st)
        end
    | S fuel' =>
        match operation st with
        | (Ok a, st1) => (Ok a, st1)
        | (Pending, st1) => (Pending, st1)
        | (Err e, st1) =>
            let st2 := if Nat.ltb attempt MAX_RETRIES
                       then sleep (RETRY_DELAY_MS * Z.of_nat attempt) st1
                       else st1 in
            retryLoop fuel' (S attempt) (Some e) operation st2
        end
    end.

Definition executeWithRetry {A} (operation : M A) : M A :=
  retryLoop MAX_RETRIES 1 None operation.

(** Await the promise of the queued write at position [pos] of the queue:
    the flush timers run until a batch contains it. *)
Fixpoint awaitWrite (fuel pos : nat) : M unit :=
  fun st =>
    match fuel with
    | O => (Pending, st)
    | S n =>
        match writeTimeout st with
        | None => (Pending, st)
        | Some d =>
            let '(settled, st1) := fireAt d st in
            match settled !! pos with
            | Some (_, Resolved) => (Ok tt, st1)
            | Some (_, Rejected e) => (Err e, st1)
            | None => awaitWrite n (pos - length settled) st1
            end
        end
    end.

(** [await this.storeData(collectionKey, storageKey, data)] *)
Definition storeDataAwait (collectionKey storageKey : string) (d : Entity) : M unit :=
  fun st =>
    let st1 := storeData collectionKey storageKey d st in
    awaitWrite (length (pendingWrites st1)) (length (pendingWrites st)) st1.

(** The flush timers run until none is pending; the promises settled on the
    way, in order.  Every firing with a non-empty queue shortens it. *)
Fixpoint runUntilIdle (fuel : nat) (st : State) : list (PendingWrite * Outcome) * State :=
  match fuel with
  | O => ([], st)
  | S n =>
      match writeTimeout st with
      | None => ([], st)
      | Some d =>
          let '(settled, st1) := fireAt d st in
          let '(settled', st2) := runUntilIdle n st1 in
          (settled ++ settled', st2)
      end
  end.

Definition settleAll (st : State) : list (PendingWrite * Outcome) * State :=
  runUntilIdle (S (length (pendingWrites st))) st.

(** Calls of [storeData] made together, none awaited in between. *)
Definition enqueueAll (ws : list PendingWrite) (st : State) : State :=
  fold_left
    (fun s w => storeData (pw_collectionKey w) (pw_storageKey w) (pw_data w) s) ws st.

(** Calls of [storeData] at given times, the clock advancing in between. *)
Definition enqueueAt (st : State) (tw : Z * PendingWrite) : State :=
  storeData (pw_collectionKey (snd tw)) (pw_storageKey (snd tw)) (pw_data (snd tw))
    (advanceTo (fst tw) st).

(** ** Repository facade *)

Definition initialize (c : ConfigInput) (st : State) : State :=
  {| config := Some {| entityRegistry := in_entityRegistry c;
                       enableCaching := default true (in_enableCaching c);
                       cacheTTL := default (5 * 60 * 1000) (in_cacheTTL c);
                       maxCacheSize := default 1000 (in_maxCacheSize c) |};
     initialized := true;
     data := data st;
     pendingWrites := pendingWrites st;
     writeTimeout := writeTimeout st;
     isWriting := isWriting st;
     metrics := metrics st;
     cache := cache st;
     cacheStats := cacheStats st;
     clock := clock st;
     file := file st;
     writeCalls := writeCalls st;
     slept := slept st |}.

Definition isInitialized (st : State) : bool :=
  initialized st && bool_decide (config st <> None).

(** The registration of an instance, or the configuration error thrown. *)
Definition resolveRegistration (object : Entity) : M EntityRegistration :=
  fun st =>
    match config st with
    | None => (Err RegistryRequired, st)
    | Some cfg =>
        match entityRegistry cfg with
        | None => (Err RegistryRequired, st)
        | Some registry =>
            match getRegistrationForInstance registry object with
            | None => (Err (NotRegistered (className (ent_class object))), st)
            | Some registration => (Ok registration, st)
            end
        end
    end.

Definition store (object : Entity) : M unit :=
  fun st =>
    if negb (isInitialized st) then (Ok tt, st)
    else
      executeWithRetry
        (registration <- resolveRegistration object;;
         let cKey := getCollectionKey registration object in
         let sKey := reg_storageKey registration in
         storeDataAwait cKey sKey object;;;
         modify (clearCacheByPattern (getCacheKey sKey cKey None)))
        st.

(** A [DatabaseCollection]: its collection key and the object itself as it
    lands in the list. *)
Record DatabaseCollection := {
  coll_getCollectionKey : string;
  coll_object : Entity
}.

Definition storeCollection (storageKey : string) (collection : DatabaseCollection) : M unit :=
  fun st =>
    if negb (isInitialized st) then (Ok tt, st)
    else
      executeWithRetry
        (storeDataAwait (coll_getCollectionKey collection) storageKey (coll_object collection))
        st.

(** One attempt of [getAll].  The flag tells whether the array returned is
    the one a cache entry holds. *)
Definition getAllOnce (EntityClass : EntityClass) (collectionKey : string)
  : M (list Entity * bool) :=
  fun st =>
    let sKey := storageKey EntityClass in
    if String.eqb sKey "" then (Err MissingStorageKey, st)
    else
      let cacheKey := getCacheKey sKey collectionKey None in
      let '(cached, st1) := getFromCache cacheKey st in
      match cached with
      | Some (CArray l) => (Ok (l, true), st1)
      | Some (CEntity (Some _)) => (Err Mistyped, st1)
      | _ =>
          match readList (data st1) collectionKey sKey with
          | None => (Ok ([], false), st1)
          | Some storedData =>
              (Ok (storedData, cachingEnabled st1),
               setCache cacheKey (CArray storedData) st1)
          end
      end.

Definition getAllShared (EntityClass : EntityClass) (collectionKey : string)
  : M (list Entity * bool) :=
  fun st =>
    if negb (isInitialized st) then (Ok ([], false), st)
    else executeWithRetry (getAllOnce EntityClass collectionKey) st.

Definition getAll (EntityClass : EntityClass) (collectionKey : string) : M (list Entity) :=
  r <- getAllShared EntityClass collectionKey;; ret (fst r).

(** A write into an array that a cache entry holds too. *)
Fixpoint cache_setData (k : string) (d : CacheData) (c : list (string * CacheEntry))
  : list (string * CacheEntry) :=
  match c with
  | [] => []
  | (k', e) :: c' =>
      if String.eqb k' k
      then (k', {| ce_data := d; expiresAt := expiresAt e;
                   accessCount := accessCount e; lastAccessed := lastAccessed e |}) :: c'
      else (k', e) :: cache_setData k d c'
  end.

Definition writeShared (shared : bool) (key : string) (l : list Entity) : M unit :=
  fun st =>
    if shared then (Ok tt, set_cache (cache_setData key (CArray l) (cache st)) st)
    else (Ok tt, st).

Definition replaceAll (EntityClass : EntityClass) (collectionKey : string)
    (objects : list Entity) : M unit :=
  fun st =>
    if negb (isInitialized st) then (Ok tt, st)
    else
      executeWithRetry
        (fun st0 =>
           let sKey := storageKey EntityClass in
           if String.eqb sKey "" then (Err MissingStorageKey, st0)
           else
             let st1 := set_data (writeList (data st0) collectionKey sKey objects) st0 in
             match dbWrite st1 with
             | (Some e, st2) => (Err e, st2)
             | (None, st2) =>
                 (Ok tt, clearCacheByPattern (getCacheKey sKey collectionKey None) st2)
             end)
        st.

(** [item.id === id] *)
Definition hasId (id : option string) (item : Entity) : bool :=
  bool_decide (ent_id item = id).

Definition storeUnique (object : Entity) : M bool :=
  fun st =>
    if negb (isInitialized st) then (Ok false, st)
    else
      executeWithRetry
        (registration <- resolveRegistration object;;
         let cKey := getCollectionKey registration object in
         let sKey := reg_storageKey registration in
         r <- getAllShared (ent_class object) cKey;;
         let '(allItems, shared) := r in
         isUpdate <-
           match findIndex (hasId (ent_id object)) allItems with
           | Some existingIndex =>
               let allItems' := <[existingIndex := object]> allItems in
               writeShared shared
                 (getCacheKey (storageKey (ent_class object)) cKey None)
                 allItems';;;
               replaceAll (ent_class object) cKey allItems';;;
               ret true
           | None =>
               storeDataAwait cKey sKey object;;;
               ret false
           end;;
         modify (clearCacheByPattern (getCacheKey sKey cKey None));;;
         ret isUpdate)
        st.

(** [itemTimestamp > cutoffTimestamp]; an absent timestamp compares false. *)
Definition isFresh (cutoffTimestamp : string) (item : Entity) : bool :=
  match ent_timestamp item with
  | Some itemTimestamp => str_gt itemTimestamp cutoffTimestamp
  | None => false
  end.

(** Time values of [Date], in milliseconds (ECMAScript, Date objects). *)
Definition msPerDay : Z := 86400000.
Definition msPerHour : Z := 3600000.
Definition msPerMinute : Z := 60000.
Definition msPerSecond : Z := 1000.

Definition Day (t : Z) : Z := t / msPerDay.
Definition HourFromTime (t : Z) : Z := (t / msPerHour) mod 24.
Definition MinFromTime (t : Z) : Z := (t / msPerMinute) mod 60.
Definition SecFromTime (t : Z) : Z := (t / msPerSecond) mod 60.
Definition msFromTime (t : Z) : Z := t mod msPerSecond.

Definition MakeTime (hour min sec ms : Z) : Z :=
  hour * msPerHour + min * msPerMinute + sec * msPerSecond + ms.

Definition MakeDate (day time : Z) : Z := day * msPerDay + time.

Definition LocalTime (t : Z) : Z := t + LocalTZA env t true.

Definition UTC (t : Z) : Z := t - LocalTZA env t false.

(** [None] is NaN, the time value of an invalid date. *)
Definition TimeClip (time : Z) : option Z :=
  if Z.abs time <=? 8640000000000000 then Some time else None.

(** [getHours()] of a date of time value [t]. *)
Definition getHours (t : Z) : Z := HourFromTime (LocalTime t).

(** The time [setHours(hour)] computes from the time value [t], before it is
    clipped: the hour of the local date is replaced, minutes, seconds and
    milliseconds are kept, and the local time obtained is read back with the
    offset in force at that local time. *)
Definition hoursSet (t hour : Z) : Z :=
  let t' := LocalTime t in
  UTC (MakeDate (Day t')
         (MakeTime hour (MinFromTime t') (SecFromTime t') (msFromTime t'))).

(** The time value of the date after [setHours(hour)]. *)
Definition setHours (t hour : Z) : option Z := TimeClip (hoursSet t hour).

(** [const cutoffTime = new Date();
     cutoffTime.setHours(cutoffTime.getHours() - maxAgeHours)],
    for an age of whole hours. *)
Definition cutoffTime (maxAgeHours : Z) (st : State) : option Z :=
  setHours (clock st) (getHours (clock st) - maxAgeHours).

(** [cutoffTime.toISOString()], which throws on an invalid date. *)
Definition dateToISOString (timeValue : option Z) : M string :=
  fun st =>
    match timeValue with
    | Some t => (Ok (toISOString env t), st)
    | None => (Err RangeError, st)
    end.

(** The string of the cutoff, where the cutoff is a valid date. *)
Definition cutoffTimestamp (maxAgeHours : Z) (st : State) : string :=
  toISOString env (hoursSet (clock st) (getHours (clock st) - maxAgeHours)).

Definition purgeStaleItems (EntityClass : EntityClass) (collectionKey : string)
    (maxAgeHours : option Z) : M nat :=
  fun st =>
    if negb (isInitialized st) then (Ok 0%nat, st)
    else
      executeWithRetry
        (fun st0 =>
           if String.eqb (storageKey EntityClass) "" then (Err MissingStorageKey, st0)
           else
             (allItems <- getAll EntityClass collectionKey;;
              cutoffTime <- gets (cutoffTime (default 168 maxAgeHours));;
              cutoff <- dateToISOString cutoffTime;;
              let freshItems := List.filter (isFresh cutoff) allItems in
              let purgedCount := (length allItems - length freshItems)%nat in
              (if Nat.ltb 0 purgedCount
               then replaceAll EntityClass collectionKey freshItems
               else ret tt);;;
              ret purgedCount) st0)
        st.

Definition deleteById (EntityClass : EntityClass) (collectionKey objectId : string) : M bool :=
  fun st =>
    if negb (isInitialized st) then (Ok false, st)
    else
      executeWithRetry
        (allItems <- getAll EntityClass collectionKey;;
         let updatedItems :=
           List.filter (fun item => negb (hasId (Some objectId) item)) allItems in
         if Nat.eqb (length updatedItems) (length allItems) then ret false
         else
           replaceAll EntityClass collectionKey updatedItems;;;
           (if String.eqb (storageKey EntityClass) "" then ret tt
            else modify (clearCacheByPattern
                           (getCacheKey (storageKey EntityClass) collectionKey None)));;;
           ret true)
        st.

Definition deleteUnique (EntityClass : EntityClass) (collectionKey objectId : string) : M bool :=
  deleteById EntityClass collectionKey objectId.

(** [l.filter((_, index) => keep(index))], the indices counted from [i]. *)
Fixpoint filterByIndex {A} (keep : nat -> bool) (i : nat) (l : list A) : list A :=
  match l with
  | [] => []
  | x :: l' => if keep i then x :: filterByIndex keep (S i) l' else filterByIndex keep (S i) l'
  end.

(** The list [deleteById] of the earlier copy of the module hands to
    [replaceAll], [None] where it returns false: only the entry at the first
    matching index is left out. *)
Definition legacy_updatedItems (objectId : string) (allItems : list Entity)
  : option (list Entity) :=
  match findIndex (hasId (Some objectId)) allItems with
  | None => None
  | Some itemIndex =>
      Some (filterByIndex (fun index => negb (Nat.eqb index itemIndex)) 0 allItems)
  end.

Record QueryOptions := {
  q_filter : option (Entity -> bool);
  q_sort : option (Entity -> Entity -> Z);
  q_limit : option Z;
  q_offset : option Z
}.

Record QueryResult := {
  entities : list Entity;
  totalCount : nat;
  hasMore : bool;
  executionTimeMs : Z
}.

Definition query (EntityClass : EntityClass) (collectionKey : string) (options : QueryOptions)
  : M QueryResult :=
  startTime <- gets clock;;
  r <- getAllShared EntityClass collectionKey;;
  let '(all, shared) := r in
  let count := length all in
  let filtered :=
    match q_filter options with
    | Some f => List.filter f all
    | None => all
    end in
  let sorted :=
    match q_sort options with
    | Some cmp => arraySort cmp filtered
    | None => filtered
    end in
  (* sort works in place: without a filter it reorders the array getAll gave *)
  writeShared
    (shared && bool_decide (q_filter options = None) && bool_decide (q_sort options <> None))
    (getCacheKey (storageKey EntityClass) collectionKey None) sorted;;;
  let offset := default 0 (q_offset options) in
  let page :=
    match q_limit options with
    | Some limit => slice offset (offset + limit) sorted
    | None => if 0 <? offset then sliceFrom offset sorted else sorted
    end in
  endTime <- gets clock;;
  ret {| entities := page;
         totalCount := count;
         hasMore := match q_limit options with
                    | Some limit => offset + limit <? Z.of_nat count
                    | None => false
                    end;
         executionTimeMs := endTime - startTime |}.

Definition count (EntityClass : EntityClass) (collectionKey : string)
    (filter : option (Entity -> bool)) : M nat :=
  all <- getAll EntityClass collectionKey;;
  ret (match filter with
       | Some f => length (List.filter f all)
       | None => length all
       end).

Definition getById (EntityClass : EntityClass) (collectionKey entityId : string)
  : M (option Entity) :=
  fun st =>
    let sKey := storageKey EntityClass in
    if String.eqb sKey "" then (Err MissingStorageKey, st)
    else
      let cacheKey := getCacheKey sKey collectionKey (Some entityId) in
      let '(cached, st1) := getFromCache cacheKey st in
      match cached with
      | Some (CEntity (Some e)) => (Ok (Some e), st1)
      | Some (CArray _) => (Err Mistyped, st1)
      | _ =>
          (allEntities <- getAll EntityClass collectionKey;;
           let entity := List.find (hasId (Some entityId)) allEntities in
           modify (setCache cacheKey (CEntity entity));;;
           ret entity) st1
      end.

Definition exists_ (EntityClass : EntityClass) (collectionKey entityId : string) : M bool :=
  entity <- getById EntityClass collectionKey entityId;;
  ret (bool_decide (entity <> None)).

(** ** Registry lookups (registry.ts) *)

Definition getRegistration (r : EntityRegistry) (c : EntityClass) : option EntityRegistration :=
  registry_get r c.

(** [Map.has] *)
Definition isRegistered (r : EntityRegistry) (c : EntityClass) : bool :=
  bool_decide (registry_get r c <> None).

(** [Map.clear] *)
Definition clear (r : EntityRegistry) : EntityRegistry := [].

(** ** Finders *)


(** [entity[fieldName] === fieldValue]: the field is the projection that
    reads it, its values primitives compared by value. *)
Definition findByField {V} `{EqDecision V} (EntityClass : EntityClass) (collectionKey : string)
    (fieldName : Entity -> V) (fieldValue : V) : M (list Entity) :=
  result <- query EntityClass collectionKey
              {| q_filter := Some (fun entity => bool_decide (fieldName entity = fieldValue));
                 q_sort := None;
                 q_limit := None;
                 q_offset := None |};;
  ret (entities result).


(** [isExpired] is the method of the entities, read at the time of the call. *)
Definition getActiveTemporary (isExpired : Entity -> bool) (EntityClass : EntityClass)
    (collectionKey : string) : M (list Entity) :=
  result <- query EntityClass collectionKey
              {| q_filter := Some (fun entity => negb (isExpired entity));
                 q_sort := None;
                 q_limit := None;
                 q_offset := None |};;
  ret (entities result).

Definition getExpiredTemporary (isExpired : Entity -> bool) (EntityClass : EntityClass)
    (collectionKey : string) : M (list Entity) :=
  result <- query EntityClass collectionKey
              {| q_filter := Some (fun entity => isExpired entity);
                 q_sort := None;
                 q_limit := None;
                 q_offset := None |};;
  ret (entities result).

(** ** Bulk operations *)

(** What an entry of [errors] is about: the entity, or [{ id: entityId }]. *)
Inductive BulkSubject :=
| WholeEntity (entity : Entity)
| IdOnly (id : string).

(** Its message: 'Entity not found', or the message of the error caught. *)
Inductive BulkMessage :=
| EntityNotFound
| Caught (e : Error).

Record BulkOperationResult := {
  successful : nat;
  failed : nat;
  errors : list (BulkSubject * BulkMessage);
  bulk_executionTimeMs : Z
}.

Definition emptyBulkResult : BulkOperationResult :=
  {| successful := 0; failed := 0; errors := []; bulk_executionTimeMs := 0 |}.

(** [result.successful++] *)
Definition countSuccess (result : BulkOperationResult) : BulkOperationResult :=
  {| successful := S (successful result);
     failed := failed result;
     errors := errors result;
     bulk_executionTimeMs := bulk_executionTimeMs result |}.

(** [result.failed++; result.errors.push({ entity, error })] *)
Definition countFailure (subject : BulkSubject) (message : BulkMessage)
    (result : BulkOperationResult) : BulkOperationResult :=
  {| successful := successful result;
     failed := S (failed result);
     errors := errors result ++ [(subject, message)];
     bulk_executionTimeMs := bulk_executionTimeMs result |}.

Definition setExecutionTime (t : Z) (result : BulkOperationResult) : BulkOperationResult :=
  {| successful := successful result;
     failed := failed result;
     errors := errors result;
     bulk_executionTimeMs := t |}.

(** The loop of [bulkStore]: every [store] is awaited before the next one
    starts, what it throws is caught. *)
Fixpoint bulkStoreLoop (entities : list Entity) (result : BulkOperationResult)
  : M BulkOperationResult :=
  fun st =>
    match entities with
    | [] => (Ok result, st)
    | entity :: rest =>
        match store entity st with
        | (Ok _, st1) => bulkStoreLoop rest (countSuccess result) st1
        | (Err e, st1) =>
            bulkStoreLoop rest (countFailure (WholeEntity entity) (Caught e) result) st1
        | (Pending, st1) => (Pending, st1)
        end
    end.

Definition bulkStore (entities : list Entity) : M BulkOperationResult :=
  startTime <- gets clock;;
  result <- bulkStoreLoop entities emptyBulkResult;;
  endTime <- gets clock;;
  ret (setExecutionTime (endTime - startTime) result).

Fixpoint bulkDeleteLoop (EntityClass : EntityClass) (collectionKey : string)
    (entityIds : list string) (result : BulkOperationResult) : M BulkOperationResult :=
  fun st =>
    match entityIds with
    | [] => (Ok result, st)
    | entityId :: rest =>
        match deleteById EntityClass collectionKey entityId st with
        | (Ok deleted, st1) =>
            bulkDeleteLoop EntityClass collectionKey rest
              (if deleted then countSuccess result
               else countFailure (IdOnly entityId) EntityNotFound result)
              st1
        | (Err e, st1) =>
            bulkDeleteLoop EntityClass collectionKey rest
              (countFailure (IdOnly entityId) (Caught e) result) st1
        | (Pending, st1) => (Pending, st1)
        end
    end.

Definition bulkDelete (EntityClass : EntityClass) (collectionKey : string)
    (entityIds : list string) : M BulkOperationResult :=
  startTime <- gets clock;;
  result <- bulkDeleteLoop EntityClass collectionKey entityIds emptyBulkResult;;
  endTime <- gets clock;;
  ret (setExecutionTime (endTime - startTime) result).

(** [{ ...this.metrics }] *)
Definition getPerformanceMetrics (st : State) : PerformanceMetrics := metrics st.

(** ** Ages of purgeable entities (enhanced-entities.ts) *)

(** [a < b] and [a >= b] on strings. *)
Definition str_lt (a b : string) : bool :=
  match String.compare a b with
  | Lt => true
  | _ => false
  end.


(** [PurgeableDiscordEntity.isExpired(maxAgeHours)]:
    [this.timestamp < expirationTime.toISOString()], the expiration time being
    computed as the cutoff of [purgeStaleItems] is, for an age that leaves it
    within the range of [Date]. *)
Definition isExpired (maxAgeHours : Z) (item : Entity) (st : State) : bool :=
  match ent_timestamp item with
  | Some timestamp => str_lt timestamp (cutoffTimestamp maxAgeHours st)
  | None => false
  end.


(** ** Sample data: the Score scenario of the specification *)

(** Every write succeeds; a time prints as the digits of its milliseconds. *)
Definition env0 : Env :=
  {| writeFails := fun _ => None;
     toISOString := fun t => pretty (Z.to_N t);
     LocalTZA := fun _ _ => 0 |}.

(** The state of a fresh [DatabaseRepository]. *)
Definition fresh : State :=
  {| config := None;
     initialized := false;
     data := ∅;
     pendingWrites := [];
     writeTimeout := None;
     isWriting := false;
     metrics := {| totalWrites := 0; batchedWrites := 0 |};
     cache := [];
     cacheStats := {| hits := 0; misses := 0; evictions := 0 |};
     clock := 0;
     file := ∅;
     writeCalls := 0;
     slept := [] |}.

Definition Score : EntityClass := {| className := "Score"; storageKey := "scores" |}.

(** A class without the static [storageKey]. *)
Definition Keyless : EntityClass := {| className := "Keyless"; storageKey := "" |}.

Definition score (id value timestamp : string) : Entity :=
  {| ent_class := Score;
     ent_id := Some id;
     ent_timestamp := Some timestamp;
     ent_payload := value |}.

Definition u1 : Entity := score "u1" "10" "1000".
Definition u1' : Entity := score "u1" "99" "2000".
Definition u2 : Entity := score "u2" "20" "3000".
Definition u3 : Entity := score "u3" "30" "4000".

(** Score is keyed by [guildId], which is "g1" for the sample records. *)
Definition scoreRegistry : EntityRegistry :=
  [(Score, {| reg_storageKey := "scores"; getCollectionKey := fun _ => "g1" |})].

Definition configured (maxSize : option Z) : State :=
  initialize {| in_entityRegistry := Some scoreRegistry;
                in_enableCaching := None;
                in_cacheTTL := None;
                in_maxCacheSize := maxSize |} fresh.

(** The repository with [u1; u2] stored under g1. *)
Definition withScores : State :=
  set_data (writeList ∅ "g1" "scores" [u1; u2]) (configured None).

(** Every write fails, the k-th with error code k. *)
Definition failing : Env :=
  {| writeFails := fun k => Some (Z.of_nat k);
     toISOString := fun t => pretty (Z.to_N t);
     LocalTZA := fun _ _ => 0 |}.

(** A repository holding [u1; u1'; u2] (timestamps 1000, 2000, 3000), at a
    time whose cutoff for 168 hours is 2000. *)
Definition aged : State :=
  set_clock (2000 + 168 * 3600000)
    (set_data (writeList ∅ "g1" "scores" [u1; u1'; u2]) (configured None)).

(** ** Sample data: a week across a change of the clocks *)

(** [n] in decimal, padded with zeros to [width] digits. *)
Definition padded (width : nat) (n : Z) : string :=
  let digits := pretty (Z.to_N n) in
  String.append
    (String.concat "" (repeat "0" (width - String.length digits)%nat)) digits.

(** Year, month (1 to 12) and day of the month of a day number, in the
    proleptic Gregorian calendar, counted in eras of 400 years from
    1 March 0000. *)
Definition YearMonthDate (day : Z) : Z * Z * Z :=
  let z := day + 719468 in
  let era := z / 146097 in
  let dayOfEra := z mod 146097 in
  let yearOfEra :=
    (dayOfEra - dayOfEra / 1460 + dayOfEra / 36524 - dayOfEra / 146096) / 365 in
  let dayOfYear := dayOfEra - (365 * yearOfEra + yearOfEra / 4 - yearOfEra / 100) in
  let m := (5 * dayOfYear + 2) / 153 in
  let date := dayOfYear - (153 * m + 2) / 5 + 1 in
  let month := if m <? 10 then m + 3 else m - 9 in
  let year := yearOfEra + era * 400 + (if month <=? 2 then 1 else 0) in
  (year, month, date).

(** [Date.prototype.toISOString] of a valid time value:
    YYYY-MM-DDTHH:mm:ss.sssZ, the year with a sign and six digits outside
    0 to 9999. *)
Definition isoString (t : Z) : string :=
  let '(year, month, date) := YearMonthDate (Day t) in
  String.concat ""
    [ (if (0 <=? year) && (year <=? 9999) then padded 4 year
       else String.append (if year <? 0 then "-" else "+") (padded 6 (Z.abs year)));
      "-"; padded 2 month; "-"; padded 2 date;
      "T"; padded 2 (HourFromTime t); ":"; padded 2 (MinFromTime t); ":";
      padded 2 (SecFromTime t); "."; padded 3 (msFromTime t); "Z" ].

(** The offsets of America/New_York from November 2023 to November 2024:
    five hours behind UTC until 10 March 2024, 07:00 UTC, when 02:00 local
    time becomes 03:00, four hours behind after it.  A local time that the
    change skips is read with the offset before it. *)
Definition newYorkTZA (t : Z) (isUTC : bool) : Z :=
  let change := 1710054000000 in
  if isUTC
  then (if t <? change then -5 * msPerHour else -4 * msPerHour)
  else (if t <? change - 4 * msPerHour then -5 * msPerHour else -4 * msPerHour).

(** Every write succeeds; the process runs in America/New_York. *)
Definition newYork : Env :=
  {| writeFails := fun _ => None;
     toISOString := isoString;
     LocalTZA := newYorkTZA |}.

(** The same, the process running in UTC. *)
Definition utc : Env :=
  {| writeFails := fun _ => None;
     toISOString := isoString;
     LocalTZA := fun _ _ => 0 |}.

(** Two records, written 167.5 hours and 27 hours before
    13 March 2024, 12:00 UTC. *)
Definition w1 : Entity := score "u1" "10" "2024-03-06T12:30:00.000Z".
Definition w2 : Entity := score "u2" "20" "2024-03-12T09:00:00.000Z".

(** A repository holding them, on 13 March 2024 at 12:00 UTC. *)
Definition weekOld : State :=
  set_clock 1710331200000
    (set_data (writeList ∅ "g1" "scores" [w1; w2]) (configured None)).

(** ** Vocabulary of the statements *)

(** The queued write of a call of [storeData]. *)
Definition queued (ck sk : string) (d : Entity) : PendingWrite :=
  {| pw_collectionKey := ck; pw_storageKey := sk; pw_data := d |}.

(** [n] writes of [u1], the i-th at time i ms. *)
Definition burst (n : nat) : list (Z * PendingWrite) :=
  map (fun i => (Z.of_nat i, queued "g1" "scores" u1)) (seq 0 n).

(** The configuration of a state: only [initialize] changes it. *)
Definition setup (st : State) : option RepositoryConfig * bool :=
  (config st, initialized st).

(** A state that differs from [st] in the cache and its counters only. *)
Definition recached (c : list (string * CacheEntry)) (cs : CacheStats) (st : State) : State :=
  set_cacheStats cs (set_cache c st).

(** The stored list of a class under a collection key, empty when absent. *)
Definition storedList (st : State) (cls : EntityClass) (ck : string) : list Entity :=
  default [] (readList (data st) ck (storageKey cls)).

(** A list of the tree, empty when absent. *)
Definition listAt (t : Tree) (ck sk : string) : list Entity :=
  default [] (readList t ck sk).

(** The writes of a queue that go to one list of the tree. *)
Definition forList (ck sk : string) (ws : list PendingWrite) : list PendingWrite :=
  List.filter
    (fun w => bool_decide (pw_collectionKey w = ck /\ pw_storageKey w = sk)) ws.

(** The cache entry of the collection, if any, holds the stored list. *)
Definition cacheAgrees (st : State) (cls : EntityClass) (ck : string) : Prop :=
  forall e, cache_get (getCacheKey (storageKey cls) ck None) (cache st) = Some e ->
            ce_data e = CArray (storedList st cls ck).

(** Every registration carries the storage key of its class, which is not
    empty: what [register] establishes. *)
Definition wfRegistry (r : EntityRegistry) : Prop :=
  forall c reg, registry_get r c = Some reg ->
                reg_storageKey reg = storageKey c /\ storageKey c <> "".

(** Nothing queued, no timer pending, no write in flight. *)
Definition idle (st : State) : Prop :=
  pendingWrites st = [] /\ writeTimeout st = None /\ isWriting st = false.

(** The number of batches of a queue of [n] writes: the ceiling of n/100. *)
Definition batches (n : nat) : nat := ((n + 99) / 100)%nat.

(** The timer callbacks still to come from a state left alone: none without a
    pending timer, else one per batch of the queue and at least one. *)
Definition firingsLeft (st : State) : nat :=
  match writeTimeout st with
  | None => 0
  | Some _ => Nat.max 1 (batches (length (pendingWrites st)))
  end.

(** The state a flush leaves when the durable write succeeds. *)
Definition flushed (st : State) : State :=
  let batch := take MAX_BATCH_SIZE (pendingWrites st) in
  let rest := drop MAX_BATCH_SIZE (pendingWrites st) in
  let t := fold_left pushRecord batch (data st) in
  let st' :=
    {| config := config st;
       initialized := initialized st;
       data := t;
       pendingWrites := rest;
       writeTimeout := writeTimeout st;
       isWriting := false;
       metrics := recordBatch (length batch) (metrics st);
       cache := cache st;
       cacheStats := cacheStats st;
       clock := clock st;
       file := t;
       writeCalls := S (writeCalls st);
       slept := slept st |} in
  if Nat.ltb 0 (length rest) then scheduleBatchWrite false st' else st'.

(** The state a flush leaves when the durable write fails. *)
Definition flushFailed (st : State) : State :=
  let batch := take MAX_BATCH_SIZE (pendingWrites st) in
  let rest := drop MAX_BATCH_SIZE (pendingWrites st) in
  let st' :=
    {| config := config st;
       initialized := initialized st;
       data := fold_left pushRecord batch (data st);
       pendingWrites := rest;
       writeTimeout := writeTimeout st;
       isWriting := false;
       metrics := metrics st;
       cache := cache st;
       cacheStats := cacheStats st;
       clock := clock st;
       file := file st;
       writeCalls := S (writeCalls st);
       slept := slept st |} in
  if Nat.ltb 0 (length rest) then scheduleBatchWrite false st' else st'.

(** The state after [await storeData(...)] on an empty queue, the write
    succeeding: one flush, 50 ms later. *)
Definition appended (ck sk : string) (d : Entity) (st : State) : State :=
  {| config := config st;
     initialized := initialized st;
     data := pushRecord (data st) (queued ck sk d);
     pendingWrites := [];
     writeTimeout := None;
     isWriting := false;
     metrics := recordBatch 1 (metrics st);
     cache := cache st;
     cacheStats := cacheStats st;
     clock := clock st + BATCH_DELAY_MS;
     file := pushRecord (data st) (queued ck sk d);
     writeCalls := S (writeCalls st);
     slept := slept st |}.

(** The state after a successful [replaceAll]. *)
Definition replaced (cls : EntityClass) (ck : string) (objects : list Entity) (st : State)
  : State :=
  let t := writeList (data st) ck (storageKey cls) objects in
  clearCacheByPattern (getCacheKey (storageKey cls) ck None)
    (set_file t (set_writeCalls (S (writeCalls st)) (set_data t st))).

(** No cache entry has a key that starts with the key of the collection. *)
Definition invalidated (st : State) (sk ck : string) : Prop :=
  forall k e, In (k, e) (cache st) -> String.prefix (getCacheKey sk ck None) k = false.

(** Entry [a] was accessed no later than entry [b]. *)
Definition olderThan (a b : string * CacheEntry) : Prop :=
  lastAccessed (snd a) <= lastAccessed (snd b).

(** Deleting the keys of [victims] one by one is one filter. *)
Definition notAmong (victims : list (string * CacheEntry)) (p : string * CacheEntry) : bool :=
  negb (existsb (fun v => String.eqb (fst p) (fst v)) victims).

(** A method that leaves the configuration as it found it. *)
Definition Keeps {A} (m : M A) : Prop := forall s, setup (snd (m s)) = setup s.

(** The next reads of a collection miss the cache and return what the
    document store holds. *)
Definition readsStore (st : State) (cls : EntityClass) (ck : string) : Prop :=
  (forall suffix,
      fst (getFromCache (getCacheKey (storageKey cls) ck suffix) st) = None) /\
  (exists st', getAll cls ck st = (Ok (storedList st cls ck), st')) /\
  (forall entityId, exists st',
      getById cls ck entityId st =
        (Ok (List.find (hasId (Some entityId)) (storedList st cls ck)), st')).

(** The cache and its counters: what the write batcher never touches. *)
Definition cacheView (st : State) : list (string * CacheEntry) * CacheStats :=
  (cache st, cacheStats st).

(** The document store, the file and the batcher: what reading a collection
    never touches. *)
Definition storeView (st : State)
  : Tree * Tree * nat * list PendingWrite * option Z * bool * PerformanceMetrics :=
  (data st, file st, writeCalls st, pendingWrites st, writeTimeout st, isWriting st,
   metrics st).

(** The uses the methods make of the cache, and time passing in between. *)
Inductive CacheOp :=
| CacheRead (key : string)                  (* getFromCache(key) *)
| CacheWrite (key : string) (d : CacheData) (* setCache(key, d) *)
| CacheClear (pattern : string)             (* clearCacheByPattern(pattern) *)
| ClockAdvance (t : Z).

Definition runCacheOp (st : State) (op : CacheOp) : State :=
  match op with
  | CacheRead key => snd (getFromCache key st)
  | CacheWrite key d => setCache key d st
  | CacheClear pattern => clearCacheByPattern pattern st
  | ClockAdvance t => set_clock t st
  end.

(** The record has one of the ids. *)
Definition listed (ids : list string) (item : Entity) : bool :=
  existsb (fun id => hasId (Some id) item) ids.

(** Some record of the list has the id. *)
Definition occurs (l : list Entity) (id : string) : bool :=
  existsb (hasId (Some id)) l.

(** The write [store] queues for an object whose class is registered. *)
Definition writeOf (registry : EntityRegistry) (object : Entity) : PendingWrite :=
  match getRegistrationForInstance registry object with
  | Some registration =>
      queued (getCollectionKey registration object) (reg_storageKey registration) object
  | None => queued "" "" object
  end.

(** The state after [await storeData(...)] on an empty queue, the write
    failing: the record is on its list in memory, the file is as it was. *)
Definition appendedInMemory (ck sk : string) (d : Entity) (st : State) : State :=
  {| config := config st;
     initialized := initialized st;
     data := pushRecord (data st) (queued ck sk d);
     pendingWrites := [];
     writeTimeout := None;
     isWriting := false;
     metrics := metrics st;
     cache := cache st;
     cacheStats := cacheStats st;
     clock := clock st + BATCH_DELAY_MS;
     file := file st;
     writeCalls := S (writeCalls st);
     slept := slept st |}.

(** The sample repository with caching switched off. *)
Definition uncached : State :=
  set_data (writeList ∅ "g1" "scores" [u1; u2])
    (initialize {| in_entityRegistry := Some scoreRegistry;
                   in_enableCaching := Some false;
                   in_cacheTTL := None;
                   in_maxCacheSize := None |} fresh).

(** The first durable write fails with code 7, the later ones succeed. *)
Definition flaky : Env :=
  {| writeFails := fun k => if Nat.eqb k 0 then Some 7 else None;
     toISOString := fun t => pretty (Z.to_N t);
     LocalTZA := fun _ _ => 0 |}.

(** A record of a class that is not registered. *)
Definition stray : Entity :=
  {| ent_class := Keyless; ent_id := Some "k1"; ent_timestamp := None; ent_payload := "" |}.

(** * Properties *)

(** ** The monad and the retry loop *)

Lemma bind_ok_inv {A B} (m : M A) (k : A -> M B) st b st' :
  bind m k st = (Ok b, st') ->
  exists a st1, m st = (Ok a, st1) /\ k a st1 = (Ok b, st').
Proof.
  unfold bind. destruct (m st) as [[a | e |] st1]; intros H; try discriminate.
  exists a, st1. split; [reflexivity | exact H].
Qed.

Lemma bind_ok {A B} (m : M A) (k : A -> M B) st a st1 :
  m st = (Ok a, st1) -> bind m k st = k a st1.
Proof. unfold bind. intros ->. reflexivity. Qed.

Lemma bind_err {A B} (m : M A) (k : A -> M B) st e st1 :
  m st = (Err e, st1) -> bind m k st = (Err e, st1).
Proof. unfold bind. intros ->. reflexivity. Qed.

(** An attempt that succeeds at once is not retried. *)
Lemma executeWithRetry_ok {A} (operation : M A) st a st' :
  operation st = (Ok a, st') -> executeWithRetry operation st = (Ok a, st').
Proof. unfold executeWithRetry. simpl. intros ->. reflexivity. Qed.

(** What holds after every successful attempt holds after the loop. *)
Lemma retryLoop_ok_post {A} (operation : M A) (Q : A -> State -> Prop) :
  (forall s a s', operation s = (Ok a, s') -> Q a s') ->
  forall fuel attempt last st a st',
    retryLoop fuel attempt last operation st = (Ok a, st') -> Q a st'.
Proof.
  intros HQ fuel. induction fuel as [| fuel IH]; intros attempt last st a st' H.
  - simpl in H. destruct last; discriminate.
  - simpl in H. destruct (operation st) as [[a1 | e |] st1] eqn:Hop.
    + inversion H; subst. eapply HQ; eauto.
    + eapply IH; eauto.
    + discriminate.
Qed.

Lemma executeWithRetry_ok_post {A} (operation : M A) (Q : A -> State -> Prop) st a st' :
  (forall s a s', operation s = (Ok a, s') -> Q a s') ->
  executeWithRetry operation st = (Ok a, st') -> Q a st'.
Proof. intros HQ H. eapply retryLoop_ok_post; eauto. Qed.

(** An attempt that always throws the same error makes the loop throw it. *)
Lemma retryLoop_always_err {A} (operation : M A) e :
  (forall s, exists s', operation s = (Err e, s')) ->
  forall fuel attempt last st,
    exists st', retryLoop fuel attempt (Some last) operation st = (Err (if fuel is O then last else e), st').
Proof.
  intros Hop fuel. induction fuel as [| fuel IH]; intros attempt last st.
  - simpl. eauto.
  - simpl. destruct (Hop st) as [s1 ->].
    destruct (IH (S attempt) e
                (if Nat.ltb attempt MAX_RETRIES
                 then sleep (RETRY_DELAY_MS * Z.of_nat attempt) s1 else s1)) as [s2 H2].
    rewrite H2. exists s2. destruct fuel; reflexivity.
Qed.

Lemma executeWithRetry_always_err {A} (operation : M A) e st :
  (forall s, exists s', operation s = (Err e, s')) ->
  exists st', executeWithRetry operation st = (Err e, st').
Proof.
  intros Hop. unfold executeWithRetry. simpl.
  destruct (Hop st) as [s1 ->].
  destruct (retryLoop_always_err operation e Hop 2 2 e
              (sleep (RETRY_DELAY_MS * Z.of_nat 1) s1)) as [s2 H2].
  simpl in H2. exists s2. exact H2.
Qed.

(** ** Before [initialize] *)

Lemma isInitialized_false st :
  initialized st = false -> isInitialized st = false.
Proof. unfold isInitialized. intros ->. reflexivity. Qed.

Lemma getAllShared_uninitialized cls ck st :
  initialized st = false -> getAllShared cls ck st = (Ok ([], false), st).
Proof. intros H. unfold getAllShared. rewrite (isInitialized_false _ H). reflexivity. Qed.

Lemma getAll_uninitialized cls ck st :
  initialized st = false -> getAll cls ck st = (Ok [], st).
Proof.
  intros H. unfold getAll.
  rewrite (bind_ok _ _ _ _ _ (getAllShared_uninitialized cls ck st H)). reflexivity.
Qed.

Lemma slice_nil {A} a b : slice a b (@nil A) = [].
Proof. unfold slice. rewrite drop_nil, take_nil. reflexivity. Qed.

Lemma sliceFrom_nil {A} a : sliceFrom a (@nil A) = [].
Proof. unfold sliceFrom. apply drop_nil. Qed.

(** C10 (as amended): before [initialize] has run, [store], [storeCollection]
    and [replaceAll] resolve without touching the state, [getAll] returns the
    empty list, [deleteById], [deleteUnique] and [storeUnique] return false,
    [purgeStaleItems] returns 0, [query] returns no entity and a total of 0,
    [count] returns 0; [getById] and [exists] return null and false when the
    class has a storage key.  None of them changes the state or throws. *)
Theorem uninitialized_operations_are_noops (st : State) :
  config st = None ->
  initialized st = false ->
  (forall o, store o st = (Ok tt, st)) /\
  (forall sk c, storeCollection sk c st = (Ok tt, st)) /\
  (forall cls ck objs, replaceAll cls ck objs st = (Ok tt, st)) /\
  (forall cls ck, getAll cls ck st = (Ok [], st)) /\
  (forall cls ck i, deleteById cls ck i st = (Ok false, st)) /\
  (forall cls ck i, deleteUnique cls ck i st = (Ok false, st)) /\
  (forall o, storeUnique o st = (Ok false, st)) /\
  (forall cls ck h, purgeStaleItems cls ck h st = (Ok 0%nat, st)) /\
  (forall cls ck opts, exists r,
      query cls ck opts st = (Ok r, st) /\ entities r = [] /\ totalCount r = 0%nat) /\
  (forall cls ck f, count cls ck f st = (Ok 0%nat, st)) /\
  (forall cls ck i, storageKey cls <> "" ->
      getById cls ck i st = (Ok None, st) /\ exists_ cls ck i st = (Ok false, st)).
Proof.
  intros Hcfg Hinit.
  pose proof (isInitialized_false _ Hinit) as Hni.
  assert (Hget : forall cls ck i, storageKey cls <> "" ->
                 getById cls ck i st = (Ok None, st)).
  { intros cls ck i Hsk. unfold getById.
    apply String.eqb_neq in Hsk. rewrite Hsk.
    unfold getFromCache, cachingEnabled. rewrite Hcfg. simpl.
    rewrite (bind_ok _ _ _ _ _ (getAll_uninitialized cls ck st Hinit)).
    simpl. unfold bind, modify, setCache, ret. rewrite Hcfg. reflexivity. }
  repeat split.
  - intros o. unfold store. rewrite Hni. reflexivity.
  - intros sk c. unfold storeCollection. rewrite Hni. reflexivity.
  - intros cls ck objs. unfold replaceAll. rewrite Hni. reflexivity.
  - intros cls ck. apply getAll_uninitialized, Hinit.
  - intros cls ck i. unfold deleteById. rewrite Hni. reflexivity.
  - intros cls ck i. unfold deleteUnique, deleteById. rewrite Hni. reflexivity.
  - intros o. unfold storeUnique. rewrite Hni. reflexivity.
  - intros cls ck h. unfold purgeStaleItems. rewrite Hni. reflexivity.
  - intros cls ck opts. unfold query.
    unfold bind at 1. unfold gets at 1.
    rewrite (bind_ok _ _ _ _ _ (getAllShared_uninitialized cls ck st Hinit)).
    simpl. unfold bind, writeShared, gets, ret. simpl.
    eexists. split; [reflexivity |]. simpl. split; [| reflexivity].
    destruct (q_filter opts); destruct (q_sort opts); destruct (q_limit opts);
      simpl; unfold arraySort; simpl;
      rewrite ?slice_nil, ?sliceFrom_nil; try reflexivity;
      destruct (0 <? default 0 (q_offset opts)); rewrite ?sliceFrom_nil; reflexivity.
  - intros cls ck f. unfold count.
    rewrite (bind_ok _ _ _ _ _ (getAll_uninitialized cls ck st Hinit)).
    destruct f; reflexivity.
  - apply Hget; assumption.
  - unfold exists_. rewrite (bind_ok _ _ _ _ _ (Hget cls ck i H)). reflexivity.
Qed.

(** ** Query engine *)

Lemma getAll_shared_inv cls ck st full st1 :
  getAll cls ck st = (Ok full, st1) ->
  exists shared, getAllShared cls ck st = (Ok (full, shared), st1).
Proof.
  unfold getAll. intros H. apply bind_ok_inv in H as ([l sh] & s1 & H1 & H2).
  unfold ret in H2. inversion H2; subst. simpl. eauto.
Qed.

(** C1 (as amended): with a filter F, a comparator S, a limit L and an
    offset O, [query] returns slice(O, O+L) of sort(S, filter(F, full)), where
    [full] is what [getAll] reads, and its [totalCount] is the length of
    [full], the count before filtering. *)
Theorem query_filter_sort_slice
    (cls : EntityClass) (ck : string) (F : Entity -> bool) (S : Entity -> Entity -> Z)
    (L O : Z) (st st1 : State) (full : list Entity) :
  getAll cls ck st = (Ok full, st1) ->
  exists r,
    query cls ck {| q_filter := Some F; q_sort := Some S;
                    q_limit := Some L; q_offset := Some O |} st = (Ok r, st1) /\
    entities r = slice O (O + L) (arraySort S (List.filter F full)) /\
    totalCount r = length full.
Proof.
  intros H. apply getAll_shared_inv in H as [shared H].
  unfold query. unfold bind at 1. unfold gets at 1.
  rewrite (bind_ok _ _ _ _ _ H). simpl.
  unfold bind, writeShared, gets, ret. simpl.
  rewrite andb_false_r. simpl.
  eexists. split; [reflexivity |]. simpl. split; reflexivity.
Qed.

(** ** What the batcher and the cache leave alone *)

Lemma setup_isInitialized st st' :
  setup st' = setup st -> isInitialized st' = isInitialized st.
Proof. unfold setup, isInitialized. intros H. inversion H as [[Hc Hi]]. reflexivity. Qed.

Lemma scheduleBatchWrite_setup b st : setup (scheduleBatchWrite b st) = setup st.
Proof. unfold scheduleBatchWrite. destruct (writeTimeout st), b; reflexivity. Qed.

Lemma performBatchWrite_setup st : setup (snd (performBatchWrite st)) = setup st.
Proof.
  unfold performBatchWrite, dbWrite.
  repeat case_match; simplify_eq; cbn [snd]; rewrite ?scheduleBatchWrite_setup; reflexivity.
Qed.

Lemma fireAt_setup d st : setup (snd (fireAt d st)) = setup st.
Proof. unfold fireAt, fireTimer. rewrite performBatchWrite_setup. reflexivity. Qed.

Lemma runTimers_setup fuel t st : setup (runTimers fuel t st) = setup st.
Proof.
  revert st. induction fuel as [| fuel IH]; intros st; simpl; [reflexivity |].
  destruct (writeTimeout st) as [d |]; [| reflexivity].
  destruct (d <=? t); [| reflexivity].
  rewrite IH. apply fireAt_setup.
Qed.

Lemma sleep_setup delay st : setup (sleep delay st) = setup st.
Proof.
  unfold sleep, advanceTo. cbn -[runTimers]. 
  change (setup (runTimers (S (length (pendingWrites st))) (clock st + delay)
                   (set_slept (slept st ++ [delay]) st)) = setup st).
  rewrite runTimers_setup. reflexivity.
Qed.

Lemma retryLoop_setup {A} (operation : M A) :
  (forall s, setup (snd (operation s)) = setup s) ->
  forall fuel attempt last st,
    setup (snd (retryLoop fuel attempt last operation st)) = setup st.
Proof.
  intros Hop fuel. induction fuel as [| fuel IH]; intros attempt last st.
  - simpl. destruct last; reflexivity.
  - simpl. specialize (Hop st).
    destruct (operation st) as [[a | e |] st1]; simpl in *; try assumption.
    rewrite IH. destruct (Nat.ltb attempt MAX_RETRIES); [rewrite sleep_setup |]; assumption.
Qed.

Lemma getFromCache_setup key st : setup (snd (getFromCache key st)) = setup st.
Proof.
  unfold getFromCache. destruct (negb (cachingEnabled st)); [reflexivity |].
  destruct (cache_get key (cache st)) as [e |]; [| reflexivity].
  destruct (expiresAt e <? clock st); reflexivity.
Qed.

Lemma setCache_setup key d st : setup (setCache key d st) = setup st.
Proof.
  unfold setCache. destruct (config st) as [cfg |] eqn:Hc; [| reflexivity].
  destruct (negb (enableCaching cfg)); [reflexivity |].
  destruct (maxCacheSize cfg <=? Z.of_nat (length (cache st))); reflexivity.
Qed.

Lemma getAllOnce_setup cls ck st : setup (snd (getAllOnce cls ck st)) = setup st.
Proof.
  unfold getAllOnce. destruct (String.eqb (storageKey cls) ""); [reflexivity |].
  pose proof (getFromCache_setup (getCacheKey (storageKey cls) ck None) st) as H.
  destruct (getFromCache (getCacheKey (storageKey cls) ck None) st) as [cached st1].
  simpl in H.
  destruct cached as [[l | [e |]] |]; simpl; try assumption;
    destruct (readList (data st1) ck (storageKey cls)); simpl;
    rewrite ?setCache_setup; assumption.
Qed.

Lemma getAllShared_setup cls ck st : setup (snd (getAllShared cls ck st)) = setup st.
Proof.
  unfold getAllShared. destruct (negb (isInitialized st)); [reflexivity |].
  apply retryLoop_setup. intros s. apply getAllOnce_setup.
Qed.

Lemma getAll_setup cls ck st r st1 :
  getAll cls ck st = (r, st1) -> setup st1 = setup st.
Proof.
  unfold getAll, bind. intros H. pose proof (getAllShared_setup cls ck st) as Hs.
  destruct (getAllShared cls ck st) as [[a | e |] s1]; simpl in *;
    unfold ret in H; inversion H; subst; assumption.
Qed.

(** ** The document tree *)

Lemma readList_writeList_eq (t : Tree) ck sk l :
  readList (writeList t ck sk l) ck sk = Some l.
Proof. unfold readList, writeList. rewrite lookup_insert_eq. apply lookup_insert_eq. Qed.

Lemma readList_writeList_ne (t : Tree) ck sk l ck' sk' :
  (ck', sk') <> (ck, sk) ->
  readList (writeList t ck sk l) ck' sk' = readList t ck' sk'.
Proof.
  intros Hne. unfold readList, writeList.
  destruct (decide (ck = ck')) as [-> | Hck].
  - rewrite lookup_insert_eq.
    assert (sk <> sk') as Hsk by (intros ->; apply Hne; reflexivity).
    rewrite lookup_insert_ne by assumption.
    destruct (t !! ck'); [reflexivity | apply lookup_empty].
  - rewrite lookup_insert_ne by assumption. reflexivity.
Qed.

(** ** Lists *)

Lemma filter_length_le {A} (f : A -> bool) l : (length (List.filter f l) <= length l)%nat.
Proof. induction l as [| x l IH]; simpl; [lia |]. destruct (f x); simpl; lia. Qed.

Lemma filter_length_eq {A} (f : A -> bool) l :
  length (List.filter f l) = length l -> forallb f l = true.
Proof.
  induction l as [| x l IH]; simpl; [reflexivity |].
  destruct (f x); simpl; intros H.
  - apply IH. lia.
  - pose proof (filter_length_le f l). lia.
Qed.

Lemma forallb_filter_id {A} (f : A -> bool) l :
  forallb f l = true -> List.filter f l = l.
Proof.
  induction l as [| x l IH]; simpl; [reflexivity |].
  destruct (f x); simpl; [| discriminate]. intros H. rewrite IH; auto.
Qed.

Lemma existsb_negb_forallb {A} (f : A -> bool) l :
  existsb f l = negb (forallb (fun x => negb (f x)) l).
Proof.
  induction l as [| x l IH]; simpl; [reflexivity |].
  rewrite IH. destruct (f x); reflexivity.
Qed.

(** ** [replaceAll] and [getAll] on an initialized repository *)

Lemma replaceAll_ok cls ck objects st :
  isInitialized st = true ->
  storageKey cls <> "" ->
  writeFails env (writeCalls st) = None ->
  replaceAll cls ck objects st = (Ok tt, replaced cls ck objects st).
Proof.
  intros Hi Hsk Hw. unfold replaceAll. rewrite Hi. simpl negb. cbv iota.
  apply executeWithRetry_ok.
  apply String.eqb_neq in Hsk. rewrite Hsk.
  unfold dbWrite. cbn [writeCalls set_data]. rewrite Hw. reflexivity.
Qed.

Lemma getAllShared_keyless cls ck st :
  isInitialized st = true ->
  storageKey cls = "" ->
  exists st', getAllShared cls ck st = (Err MissingStorageKey, st').
Proof.
  intros Hi Hsk. unfold getAllShared. rewrite Hi. simpl negb. cbv iota.
  apply executeWithRetry_always_err.
  intros s. exists s. unfold getAllOnce. rewrite Hsk. reflexivity.
Qed.

Lemma getAll_ok_has_key cls ck st all st1 :
  isInitialized st = true ->
  getAll cls ck st = (Ok all, st1) ->
  storageKey cls <> "".
Proof.
  intros Hi H Hsk. apply getAll_shared_inv in H as [sh H].
  destruct (getAllShared_keyless cls ck st Hi Hsk) as [st' H']. congruence.
Qed.

(** ** deleteById *)

(** C3: with [all] the collection as [getAll] reads it, [deleteById] returns
    whether some record of [all] has the given id; when none has, nothing is
    rewritten; when some have, the stored list becomes [all] without every
    record of that id, the others in their order, duplicates of the id
    included, and no other list of the tree changes. *)
Theorem deleteById_removes_every_match
    (cls : EntityClass) (ck objectId : string) (st st1 : State) (all : list Entity) :
  (forall k, writeFails env k = None) ->
  getAll cls ck st = (Ok all, st1) ->
  let kept := List.filter (fun item => negb (hasId (Some objectId) item)) all in
  exists st',
    deleteById cls ck objectId st = (Ok (existsb (hasId (Some objectId)) all), st') /\
    Forall (fun item => ent_id item <> Some objectId) kept /\
    (existsb (hasId (Some objectId)) all = false -> st' = st1 /\ kept = all) /\
    (existsb (hasId (Some objectId)) all = true ->
       readList (data st') ck (storageKey cls) = Some kept /\
       forall ck' sk', (ck', sk') <> (ck, storageKey cls) ->
                       readList (data st') ck' sk' = readList (data st1) ck' sk').
Proof.
  intros Hrel Hget kept.
  assert (Hkept : Forall (fun item => ent_id item <> Some objectId) kept).
  { apply List.Forall_forall. intros x Hx. apply filter_In in Hx as [_ Hx].
    unfold hasId in Hx. apply negb_true_iff, bool_decide_eq_false in Hx. exact Hx. }
  unfold deleteById.
  destruct (isInitialized st) eqn:Hi; simpl negb; cbv iota.
  - (* initialized *)
    pose proof (getAll_ok_has_key _ _ _ _ _ Hi Hget) as Hsk.
    pose proof (getAll_setup _ _ _ _ _ Hget) as Hset.
    rewrite existsb_negb_forallb.
    destruct (Nat.eqb (length kept) (length all)) eqn:Hlen.
    + apply Nat.eqb_eq, filter_length_eq in Hlen.
      exists st1. split; [| split; [exact Hkept | split]].
      * apply executeWithRetry_ok. rewrite (bind_ok _ _ _ _ _ Hget).
        fold kept. rewrite (proj2 (Nat.eqb_eq _ _)).
        -- rewrite Hlen. reflexivity.
        -- unfold kept. rewrite (forallb_filter_id _ _ Hlen). reflexivity.
      * intros _. split; [reflexivity |]. apply forallb_filter_id, Hlen.
      * rewrite Hlen. discriminate.
    + assert (Hall : forallb (fun x => negb (hasId (Some objectId) x)) all = false).
      { destruct (forallb _ all) eqn:Hf; [| reflexivity].
        apply forallb_filter_id in Hf. fold kept in Hf. rewrite Hf in Hlen.
        rewrite Nat.eqb_refl in Hlen. discriminate. }
      rewrite Hall. simpl negb.
      exists (clearCacheByPattern (getCacheKey (storageKey cls) ck None)
                (replaced cls ck kept st1)).
      split; [| split; [exact Hkept | split]].
      * apply executeWithRetry_ok. rewrite (bind_ok _ _ _ _ _ Hget).
        fold kept. rewrite Hlen.
        rewrite (bind_ok _ _ _ _ _
                   (replaceAll_ok cls ck kept st1
                      (eq_trans (setup_isInitialized _ _ Hset) Hi) Hsk (Hrel _))).
        apply String.eqb_neq in Hsk. rewrite Hsk. reflexivity.
      * discriminate.
      * intros _. split.
        -- apply readList_writeList_eq.
        -- intros ck' sk' Hne. apply readList_writeList_ne, Hne.
  - (* not initialized: the collection reads as empty *)
    assert (Hinit : initialized st = false \/ config st = None).
    { unfold isInitialized in Hi. apply andb_false_iff in Hi as [Hi | Hi]; [left; exact Hi |].
      right. apply bool_decide_eq_false in Hi. destruct (config st); [| reflexivity].
      exfalso. apply Hi. discriminate. }
    assert (Hg : getAll cls ck st = (Ok [], st)).
    { unfold getAll, getAllShared. unfold bind. rewrite Hi. reflexivity. }
    rewrite Hg in Hget. inversion Hget; subst. simpl.
    exists st1. repeat split; try constructor; discriminate.
Qed.

(** ** purgeStaleItems *)

Lemma filter_length_split {A} (f : A -> bool) l :
  (length l - length (List.filter f l))%nat = length (List.filter (fun x => negb (f x)) l).
Proof.
  induction l as [| x l IH]; simpl; [reflexivity |].
  pose proof (filter_length_le f l).
  destruct (f x); simpl; lia.
Qed.

Lemma str_gt_irrefl s : str_gt s s = false.
Proof.
  unfold str_gt. pose proof (String.compare_antisym s s) as H.
  destruct (String.compare s s); try discriminate; reflexivity.
Qed.

Lemma isFresh_boundary cutoff item :
  ent_timestamp item = Some cutoff -> isFresh cutoff item = false.
Proof. unfold isFresh. intros ->. apply str_gt_irrefl. Qed.

(** The date arithmetic of the cutoff: [setHours(getHours() - h)] moves the
    local time back by [h] hours, whatever the hour of the day. *)
Lemma MakeDate_of_parts (t hour : Z) :
  MakeDate (Day t) (MakeTime hour (MinFromTime t) (SecFromTime t) (msFromTime t)) =
  t + (hour - HourFromTime t) * msPerHour.
Proof.
  unfold MakeDate, MakeTime, Day, HourFromTime, MinFromTime, SecFromTime, msFromTime,
    msPerDay, msPerHour, msPerMinute, msPerSecond.
  pose proof (Z.div_mod t 1000 ltac:(lia)) as H1.
  pose proof (Z.div_mod (t / 1000) 60 ltac:(lia)) as H2.
  pose proof (Z.div_mod (t / 60000) 60 ltac:(lia)) as H3.
  pose proof (Z.div_mod (t / 3600000) 24 ltac:(lia)) as H4.
  rewrite (Z.div_div t 1000 60) in H2 by lia.
  rewrite (Z.div_div t 60000 60) in H3 by lia.
  rewrite (Z.div_div t 3600000 24) in H4 by lia.
  change (1000 * 60) with 60000 in H2.
  change (60000 * 60) with 3600000 in H3.
  change (3600000 * 24) with 86400000 in H4.
  lia.
Qed.

Lemma hoursSet_back (t h : Z) :
  hoursSet t (getHours t - h) = UTC (LocalTime t - h * msPerHour).
Proof.
  unfold hoursSet, getHours. cbv zeta. rewrite MakeDate_of_parts. f_equal. lia.
Qed.

(** Where the local offset is the same at every time, the cutoff is the
    current time minus [h] hours of 3600000 ms. *)
Lemma hoursSet_constant_offset (offset t h : Z) :
  (forall u isUTC, LocalTZA env u isUTC = offset) ->
  hoursSet t (getHours t - h) = t - h * msPerHour.
Proof.
  intros Hc. rewrite hoursSet_back. unfold UTC, LocalTime. rewrite !Hc. lia.
Qed.

Lemma cutoffTime_valid (h : Z) (st : State) :
  cutoffTime h st <> None ->
  cutoffTime h st = Some (hoursSet (clock st) (getHours (clock st) - h)).
Proof.
  unfold cutoffTime, setHours, TimeClip. destruct (_ <=? _); [reflexivity | congruence].
Qed.

Lemma dateToISOString_cutoff (h : Z) (st : State) :
  cutoffTime h st <> None ->
  dateToISOString (cutoffTime h st) st = (Ok (cutoffTimestamp h st), st).
Proof. intros H. rewrite (cutoffTime_valid _ _ H). reflexivity. Qed.

Lemma keeps_dateToISOString timeValue : Keeps (dateToISOString timeValue).
Proof. intros s. unfold dateToISOString. destruct timeValue; reflexivity. Qed.

(** What [purgeStaleItems] does, in terms of the cutoff it computes: with
    [all] the collection as [getAll] reads it and [cutoff] the ISO string of
    the cutoff date, a valid one, it keeps exactly the records whose
    timestamp is greater than [cutoff], returns the number of the others,
    and rewrites the stored list to the kept records when that number is
    positive; a record whose timestamp equals [cutoff] is among the
    removed. *)
Lemma purgeStaleItems_keeps_strictly_newer
    (cls : EntityClass) (ck : string) (maxAgeHours : option Z)
    (st st1 : State) (all : list Entity) :
  (forall k, writeFails env k = None) ->
  getAll cls ck st = (Ok all, st1) ->
  cutoffTime (default 168 maxAgeHours) st1 <> None ->
  let cutoff := cutoffTimestamp (default 168 maxAgeHours) st1 in
  let freshItems := List.filter (isFresh cutoff) all in
  let stale := List.filter (fun item => negb (isFresh cutoff item)) all in
  exists st',
    purgeStaleItems cls ck maxAgeHours st = (Ok (length stale), st') /\
    (stale = [] -> st' = st1 /\ freshItems = all) /\
    (stale <> [] ->
       readList (data st') ck (storageKey cls) = Some freshItems /\
       forall ck' sk', (ck', sk') <> (ck, storageKey cls) ->
                       readList (data st') ck' sk' = readList (data st1) ck' sk') /\
    (forall item, In item all -> ent_timestamp item = Some cutoff ->
                  In item stale /\ ~ In item freshItems).
Proof.
  intros Hrel Hget Hvalid cutoff freshItems stale.
  assert (Hcount : (length all - length freshItems)%nat = length stale)
    by apply filter_length_split.
  assert (Hbound : forall item, In item all -> ent_timestamp item = Some cutoff ->
                                In item stale /\ ~ In item freshItems).
  { intros item Hin Hts. pose proof (isFresh_boundary _ _ Hts) as Hf. split.
    - apply filter_In. split; [exact Hin |]. rewrite Hf. reflexivity.
    - intros Hc. apply filter_In in Hc as [_ Hc]. congruence. }
  unfold purgeStaleItems.
  destruct (isInitialized st) eqn:Hi; simpl negb; cbv iota.
  - pose proof (getAll_ok_has_key _ _ _ _ _ Hi Hget) as Hsk.
    pose proof (getAll_setup _ _ _ _ _ Hget) as Hset.
    pose proof Hsk as Hskb. apply String.eqb_neq in Hskb.
    destruct stale as [| x stale'] eqn:Hstale.
    + exists st1. split; [| split; [| split]].
      * apply executeWithRetry_ok. rewrite Hskb.
        rewrite (bind_ok _ _ _ _ _ Hget). unfold bind at 1. unfold gets at 1.
        rewrite (bind_ok _ _ _ _ _ (dateToISOString_cutoff _ _ Hvalid)).
        fold cutoff. fold freshItems. rewrite Hcount. reflexivity.
      * intros _. split; [reflexivity |].
        apply forallb_filter_id.
        apply filter_length_eq. simpl in Hcount. fold freshItems.
        pose proof (filter_length_le (isFresh cutoff) all). fold freshItems in H. lia.
      * intros Hne. exfalso. apply Hne. reflexivity.
      * exact Hbound.
    + exists (replaced cls ck freshItems st1). split; [| split; [| split]].
      * apply executeWithRetry_ok. rewrite Hskb.
        rewrite (bind_ok _ _ _ _ _ Hget). unfold bind at 1. unfold gets at 1.
        rewrite (bind_ok _ _ _ _ _ (dateToISOString_cutoff _ _ Hvalid)).
        fold cutoff. fold freshItems. rewrite Hcount. simpl length.
        cbn [Nat.ltb Nat.leb].
        rewrite (bind_ok _ _ _ _ _
                   (replaceAll_ok cls ck freshItems st1
                      (eq_trans (setup_isInitialized _ _ Hset) Hi) Hsk (Hrel _))).
        reflexivity.
      * discriminate.
      * intros _. split.
        -- apply readList_writeList_eq.
        -- intros ck' sk' Hne. apply readList_writeList_ne, Hne.
      * exact Hbound.
  - assert (Hg : getAll cls ck st = (Ok [], st)).
    { unfold getAll, getAllShared. unfold bind. rewrite Hi. reflexivity. }
    rewrite Hg in Hget. inversion Hget; subst. simpl.
    exists st1. repeat split; try contradiction; try tauto.
Qed.

(** ** One flush *)

Lemma scheduleBatchWrite_reset st :
  scheduleBatchWrite true st = set_writeTimeout (Some (clock st + BATCH_DELAY_MS)) st.
Proof. unfold scheduleBatchWrite. destruct (writeTimeout st); reflexivity. Qed.

Lemma length_zero_false {A} (l : list A) : l <> [] -> Nat.eqb (length l) 0 = false.
Proof. destruct l; [congruence | reflexivity]. Qed.

Lemma performBatchWrite_ok st :
  pendingWrites st <> [] ->
  isWriting st = false ->
  writeFails env (writeCalls st) = None ->
  performBatchWrite st =
    (map (fun w => (w, Resolved)) (take MAX_BATCH_SIZE (pendingWrites st)), flushed st).
Proof.
  intros Hp Hw Hf. unfold performBatchWrite, flushed, dbWrite.
  rewrite (length_zero_false _ Hp), Hw.
  cbn [orb writeCalls set_data set_pendingWrites set_isWriting]. rewrite Hf.
  reflexivity.
Qed.

Lemma performBatchWrite_fail st code :
  pendingWrites st <> [] ->
  isWriting st = false ->
  writeFails env (writeCalls st) = Some code ->
  performBatchWrite st =
    (map (fun w => (w, Rejected (WriteFailed code))) (take MAX_BATCH_SIZE (pendingWrites st)),
     flushFailed st).
Proof.
  intros Hp Hw Hf. unfold performBatchWrite, flushFailed, dbWrite.
  rewrite (length_zero_false _ Hp), Hw.
  cbn [orb writeCalls set_data set_pendingWrites set_isWriting]. rewrite Hf.
  reflexivity.
Qed.

(** ** An awaited write on an idle batcher *)

Lemma storeDataAwait_ok ck sk d st :
  pendingWrites st = [] ->
  isWriting st = false ->
  writeFails env (writeCalls st) = None ->
  storeDataAwait ck sk d st = (Ok tt, appended ck sk d st).
Proof.
  intros Hp Hw Hf. unfold storeDataAwait, storeData.
  rewrite scheduleBatchWrite_reset, Hp.
  cbn [app length pendingWrites set_writeTimeout set_pendingWrites clock awaitWrite
       writeTimeout].
  unfold fireAt, fireTimer.
  rewrite performBatchWrite_ok; [| discriminate | exact Hw | exact Hf].
  cbn [pendingWrites set_writeTimeout set_clock set_pendingWrites]. 
  unfold MAX_BATCH_SIZE. simpl take. simpl map. cbn [lookup list_lookup].
  f_equal. unfold flushed, appended, queued, MAX_BATCH_SIZE, BATCH_DELAY_MS.
  cbn. rewrite Z.max_r by lia. reflexivity.
Qed.

(** ** Reading through a cache that agrees with the store *)

Lemma recached_self st : recached (cache st) (cacheStats st) st = st.
Proof. destruct st; reflexivity. Qed.

Lemma getFromCache_recached key st :
  exists c cs, snd (getFromCache key st) = recached c cs st.
Proof.
  unfold getFromCache. destruct (negb (cachingEnabled st)).
  - exists (cache st), (cacheStats st). symmetry. apply recached_self.
  - destruct (cache_get key (cache st)) as [e |].
    + destruct (expiresAt e <? clock st); eexists _, _; reflexivity.
    + exists (cache st), (bumpMisses (cacheStats st)). destruct st; reflexivity.
Qed.

Lemma getFromCache_hit key st d st1 :
  getFromCache key st = (Some d, st1) ->
  exists e, cache_get key (cache st) = Some e /\ ce_data e = d.
Proof.
  unfold getFromCache. destruct (negb (cachingEnabled st)); [discriminate |].
  destruct (cache_get key (cache st)) as [e |]; [| discriminate].
  destruct (expiresAt e <? clock st); [discriminate |].
  intros H. inversion H; subst. eauto.
Qed.

Lemma setCache_recached key d st :
  exists c cs, setCache key d st = recached c cs st.
Proof.
  unfold setCache. destruct (config st) as [cfg |].
  - destruct (negb (enableCaching cfg)).
    + exists (cache st), (cacheStats st). symmetry. apply recached_self.
    + destruct (maxCacheSize cfg <=? Z.of_nat (length (cache st))).
      * eexists _, _. unfold evictOldestEntries, recached. reflexivity.
      * exists (cache_set key
                  {| ce_data := d; expiresAt := clock st + cacheTTL cfg;
                     accessCount := 1; lastAccessed := clock st |} (cache st)),
               (cacheStats st).
        unfold recached. destruct st; reflexivity.
  - exists (cache st), (cacheStats st). symmetry. apply recached_self.
Qed.

Lemma getAllOnce_agrees cls ck st :
  storageKey cls <> "" ->
  cacheAgrees st cls ck ->
  exists shared c cs,
    getAllOnce cls ck st = (Ok (storedList st cls ck, shared), recached c cs st).
Proof.
  intros Hsk Hagree. unfold getAllOnce.
  apply String.eqb_neq in Hsk. rewrite Hsk.
  destruct (getFromCache_recached (getCacheKey (storageKey cls) ck None) st)
    as (c & cs & Hst1).
  destruct (getFromCache (getCacheKey (storageKey cls) ck None) st)
    as [cached st1] eqn:Hget.
  simpl in Hst1. subst st1.
  assert (Hmiss : exists shared c' cs',
             match readList (data (recached c cs st)) ck (storageKey cls) with
             | Some storedData =>
                 (Ok (storedData, cachingEnabled (recached c cs st)),
                  setCache (getCacheKey (storageKey cls) ck None) (CArray storedData)
                    (recached c cs st))
             | None => (Ok ([], false), recached c cs st)
             end = (Ok (storedList st cls ck, shared), recached c' cs' st)).
  { unfold storedList. change (data (recached c cs st)) with (data st).
    destruct (readList (data st) ck (storageKey cls)) as [l |].
    - destruct (setCache_recached (getCacheKey (storageKey cls) ck None) (CArray l)
                  (recached c cs st)) as (c' & cs' & ->).
      eexists _, c', cs'. reflexivity.
    - eexists _, c, cs. reflexivity. }
  destruct cached as [[l | [e |]] |]; try exact Hmiss.
  - apply getFromCache_hit in Hget as (e & He & Hd).
    apply Hagree in He. rewrite He in Hd. inversion Hd; subst.
    eexists _, c, cs. reflexivity.
  - apply getFromCache_hit in Hget as (e' & He & Hd).
    apply Hagree in He. congruence.
Qed.

Lemma getAllShared_agrees cls ck st :
  isInitialized st = true ->
  storageKey cls <> "" ->
  cacheAgrees st cls ck ->
  exists shared c cs,
    getAllShared cls ck st = (Ok (storedList st cls ck, shared), recached c cs st).
Proof.
  intros Hi Hsk Hagree. unfold getAllShared. rewrite Hi. simpl negb. cbv iota.
  destruct (getAllOnce_agrees cls ck st Hsk Hagree) as (sh & c & cs & H).
  exists sh, c, cs. apply executeWithRetry_ok, H.
Qed.

Lemma getAll_agrees cls ck st :
  isInitialized st = true ->
  storageKey cls <> "" ->
  cacheAgrees st cls ck ->
  exists c cs, getAll cls ck st = (Ok (storedList st cls ck), recached c cs st).
Proof.
  intros Hi Hsk Hagree.
  destruct (getAllShared_agrees cls ck st Hi Hsk Hagree) as (sh & c & cs & H).
  exists c, cs. unfold getAll. rewrite (bind_ok _ _ _ _ _ H). reflexivity.
Qed.

(** ** Invalidation by prefix *)

Lemma prefix_append p s : String.prefix p (p +:+ s) = true.
Proof.
  induction p as [| a p IH].
  - destruct s; reflexivity.
  - change (String a p +:+ s) with (String a (p +:+ s)). simpl.
    destruct (ascii_dec a a); [exact IH | congruence].
Qed.

Lemma string_append_assoc a b c : (a +:+ b) +:+ c = a +:+ (b +:+ c).
Proof.
  induction a as [| x a IH]; [reflexivity |].
  change (String x ((a +:+ b) +:+ c) = String x (a +:+ (b +:+ c))).
  f_equal. exact IH.
Qed.

Lemma prefix_self p : String.prefix p p = true.
Proof.
  induction p as [| a p IH]; simpl; [reflexivity |].
  destruct (ascii_dec a a); [exact IH | congruence].
Qed.

(** The key of a collection is a prefix of the keys of its entities. *)
Lemma getCacheKey_prefix sk ck suffix :
  String.prefix (getCacheKey sk ck None) (getCacheKey sk ck suffix) = true.
Proof.
  unfold getCacheKey. destruct suffix as [s |]; [| apply prefix_self].
  destruct (String.eqb s ""); [apply prefix_self |].
  replace (sk +:+ ":" +:+ ck +:+ ":" +:+ s) with ((sk +:+ ":" +:+ ck) +:+ (":" +:+ s)).
  - apply prefix_append.
  - rewrite !string_append_assoc. reflexivity.
Qed.

Lemma cache_get_In k c e : cache_get k c = Some e -> In (k, e) c.
Proof.
  induction c as [| [k' e'] c IH]; simpl; [discriminate |].
  destruct (String.eqb k' k) eqn:Hk.
  - intros H. inversion H; subst. apply String.eqb_eq in Hk. subst. left. reflexivity.
  - intros H. right. apply IH, H.
Qed.

Lemma clearCacheByPattern_spec pattern st k e :
  In (k, e) (cache (clearCacheByPattern pattern st)) ->
  String.prefix pattern k = false /\ In (k, e) (cache st).
Proof.
  unfold clearCacheByPattern. cbn [cache set_cache]. intros H.
  apply filter_In in H as [Hin Hp]. simpl in Hp.
  apply negb_true_iff in Hp. split; assumption.
Qed.

Lemma cache_get_cleared pattern st k :
  String.prefix pattern k = true ->
  cache_get k (cache (clearCacheByPattern pattern st)) = None.
Proof.
  intros Hp. destruct (cache_get k _) as [e |] eqn:H; [| reflexivity].
  apply cache_get_In, clearCacheByPattern_spec in H as [H _]. congruence.
Qed.

Lemma cacheAgrees_cleared st cls ck :
  cacheAgrees (clearCacheByPattern (getCacheKey (storageKey cls) ck None) st) cls ck.
Proof.
  intros e He. rewrite cache_get_cleared in He; [discriminate | apply prefix_self].
Qed.

(** ** Registries built by [register] *)

Lemma wfRegistry_nil : wfRegistry [].
Proof. intros c reg H. discriminate. Qed.

Lemma registry_get_set r c reg c' :
  registry_get (registry_set r c reg) c' =
    if decide (c = c') then Some reg else registry_get r c'.
Proof.
  induction r as [| [c0 reg0] r IH]; simpl.
  - reflexivity.
  - destruct (decide (c0 = c)) as [-> | Hne]; simpl.
    + destruct (decide (c = c')); reflexivity.
    + destruct (decide (c0 = c')) as [-> | Hne'].
      * destruct (decide (c = c')); [congruence | reflexivity].
      * exact IH.
Qed.

Lemma register_wf r c f r' :
  wfRegistry r -> register r c f = Ok r' -> wfRegistry r'.
Proof.
  unfold register. intros Hwf H.
  destruct (String.eqb (storageKey c) "") eqn:Hk; [discriminate |].
  inversion H; subst. intros c' reg Hget.
  rewrite registry_get_set in Hget. destruct (decide (c = c')) as [<- | Hne].
  - inversion Hget; subst. simpl. split; [reflexivity |]. apply String.eqb_neq, Hk.
  - apply Hwf, Hget.
Qed.

(** ** storeUnique *)

Lemma resolveRegistration_ok obj st cfg registry registration :
  config st = Some cfg ->
  entityRegistry cfg = Some registry ->
  getRegistrationForInstance registry obj = Some registration ->
  resolveRegistration obj st = (Ok registration, st).
Proof. unfold resolveRegistration. intros -> -> ->. reflexivity. Qed.

Lemma findIndex_none_existsb {A} (p : A -> bool) l :
  findIndex p l = None <-> existsb p l = false.
Proof.
  induction l as [| x l IH]; simpl; [tauto |].
  destruct (p x); simpl; [split; discriminate |].
  rewrite fmap_None. exact IH.
Qed.

Lemma findIndex_app_last {A} (p : A -> bool) l x :
  existsb p l = false -> p x = true -> findIndex p (l ++ [x]) = Some (length l).
Proof.
  induction l as [| y l IH]; simpl; intros Hl Hx.
  - rewrite Hx. reflexivity.
  - apply orb_false_iff in Hl as [Hy Hl]. rewrite Hy, (IH Hl Hx). reflexivity.
Qed.

Lemma filter_none_existsb {A} (p : A -> bool) l :
  existsb p l = false -> List.filter p l = [].
Proof.
  induction l as [| y l IH]; simpl; [reflexivity |].
  intros H. apply orb_false_iff in H as [Hy Hl]. rewrite Hy. apply IH, Hl.
Qed.

(** The insert path: nothing read has the id, the record goes through the
    batcher. *)
Lemma storeUnique_insert obj st cfg registry registration :
  (forall k, writeFails env k = None) ->
  isInitialized st = true ->
  config st = Some cfg ->
  entityRegistry cfg = Some registry ->
  wfRegistry registry ->
  getRegistrationForInstance registry obj = Some registration ->
  pendingWrites st = [] ->
  isWriting st = false ->
  cacheAgrees st (ent_class obj) (getCollectionKey registration obj) ->
  existsb (hasId (ent_id obj))
    (storedList st (ent_class obj) (getCollectionKey registration obj)) = false ->
  exists c cs,
    storeUnique obj st =
      (Ok false,
       clearCacheByPattern
         (getCacheKey (storageKey (ent_class obj)) (getCollectionKey registration obj) None)
         (appended (getCollectionKey registration obj) (storageKey (ent_class obj)) obj
            (recached c cs st))).
Proof.
  intros Hrel Hi Hcfg Hreg Hwf Hget Hp Hw Hagree Hnew.
  destruct (Hwf _ _ Hget) as [Hsk Hne].
  destruct (getAllShared_agrees _ _ _ Hi Hne Hagree) as (sh & c & cs & Hall).
  exists c, cs. unfold storeUnique. rewrite Hi. simpl negb. cbv iota.
  apply executeWithRetry_ok.
  rewrite (bind_ok _ _ _ _ _ (resolveRegistration_ok _ _ _ _ _ Hcfg Hreg Hget)).
  rewrite (bind_ok _ _ _ _ _ Hall).
  rewrite (proj2 (findIndex_none_existsb _ _) Hnew).
  rewrite Hsk. unfold bind at 1. unfold bind at 1.
  rewrite storeDataAwait_ok; [reflexivity | exact Hp | exact Hw | apply Hrel].
Qed.

(** The update path: a record read has the id, the list is rewritten with
    the new record in its place. *)
Lemma storeUnique_update obj st cfg registry registration i :
  (forall k, writeFails env k = None) ->
  isInitialized st = true ->
  config st = Some cfg ->
  entityRegistry cfg = Some registry ->
  wfRegistry registry ->
  getRegistrationForInstance registry obj = Some registration ->
  cacheAgrees st (ent_class obj) (getCollectionKey registration obj) ->
  findIndex (hasId (ent_id obj))
    (storedList st (ent_class obj) (getCollectionKey registration obj)) = Some i ->
  exists st',
    storeUnique obj st = (Ok true, st') /\
    readList (data st') (getCollectionKey registration obj) (storageKey (ent_class obj)) =
      Some (<[i := obj]>
              (storedList st (ent_class obj) (getCollectionKey registration obj))) /\
    metrics st' = metrics st /\
    writeCalls st' = S (writeCalls st).
Proof.
  intros Hrel Hi Hcfg Hreg Hwf Hget Hagree Hfind.
  destruct (Hwf _ _ Hget) as [Hsk Hne].
  destruct (getAllShared_agrees _ _ _ Hi Hne Hagree) as (sh & c & cs & Hall).
  unfold storeUnique. rewrite Hi. simpl negb. cbv iota.
  assert (Hrep : forall st0, setup st0 = setup st ->
            replaceAll (ent_class obj) (getCollectionKey registration obj)
              (<[i:=obj]> (storedList st (ent_class obj)
                             (getCollectionKey registration obj))) st0 =
            (Ok tt, replaced (ent_class obj) (getCollectionKey registration obj)
                      (<[i:=obj]> (storedList st (ent_class obj)
                                     (getCollectionKey registration obj))) st0)).
  { intros st0 Hs. apply replaceAll_ok; [| exact Hne | apply Hrel].
    rewrite (setup_isInitialized _ _ Hs). exact Hi. }
  destruct sh; (eexists; split; [apply executeWithRetry_ok |]).
  - rewrite (bind_ok _ _ _ _ _ (resolveRegistration_ok _ _ _ _ _ Hcfg Hreg Hget)).
    rewrite (bind_ok _ _ _ _ _ Hall).
    rewrite Hfind. rewrite Hsk.
    unfold bind at 1. unfold bind at 1. unfold bind at 1.
    unfold writeShared. rewrite Hrep by reflexivity. reflexivity.
  - cbn. split; [apply readList_writeList_eq | split; reflexivity].
  - rewrite (bind_ok _ _ _ _ _ (resolveRegistration_ok _ _ _ _ _ Hcfg Hreg Hget)).
    rewrite (bind_ok _ _ _ _ _ Hall).
    rewrite Hfind. rewrite Hsk.
    unfold bind at 1. unfold bind at 1. unfold bind at 1.
    unfold writeShared. rewrite Hrep by reflexivity. reflexivity.
  - cbn. split; [apply readList_writeList_eq | split; reflexivity].
Qed.

Lemma hasId_self obj : hasId (ent_id obj) obj = true.
Proof. unfold hasId. apply bool_decide_eq_true. reflexivity. Qed.

Lemma filter_one_match {A} (p : A -> bool) l x :
  existsb p l = false -> p x = true -> List.filter p (l ++ [x]) = [x].
Proof.
  intros Hl Hx. rewrite List.filter_app, (filter_none_existsb _ _ Hl). simpl.
  rewrite Hx. reflexivity.
Qed.

(** C6: on an initialized repository with an idle batcher, a registered
    class and a cache that agrees with the store, [storeUnique] of a record
    whose id no stored record has reports an insert (false), appends it
    through the batcher, and leaves exactly one record of that id; a second
    [storeUnique] of a record of the same class, id and collection key
    reports an update (true), rewrites the list with that record in the place
    of the first, outside the batcher, and the one record of that id is then
    the second. *)
Theorem storeUnique_insert_then_update
    (obj obj2 : Entity) (st : State)
    (cfg : RepositoryConfig) (registry : EntityRegistry)
    (registration : EntityRegistration) :
  (forall k, writeFails env k = None) ->
  isInitialized st = true ->
  config st = Some cfg ->
  entityRegistry cfg = Some registry ->
  wfRegistry registry ->
  getRegistrationForInstance registry obj = Some registration ->
  pendingWrites st = [] ->
  isWriting st = false ->
  let cls := ent_class obj in
  let ck := getCollectionKey registration obj in
  let all := storedList st cls ck in
  cacheAgrees st cls ck ->
  existsb (hasId (ent_id obj)) all = false ->
  ent_class obj2 = cls ->
  ent_id obj2 = ent_id obj ->
  getCollectionKey registration obj2 = ck ->
  exists st1 st2,
    storeUnique obj st = (Ok false, st1) /\
    storedList st1 cls ck = all ++ [obj] /\
    List.filter (hasId (ent_id obj)) (storedList st1 cls ck) = [obj] /\
    metrics st1 = recordBatch 1 (metrics st) /\
    storeUnique obj2 st1 = (Ok true, st2) /\
    storedList st2 cls ck = all ++ [obj2] /\
    List.filter (hasId (ent_id obj)) (storedList st2 cls ck) = [obj2] /\
    metrics st2 = metrics st1.
Proof.
  intros Hrel Hi Hcfg Hreg Hwf Hget Hp Hw cls ck all Hagree Hnew Hcls Hid Hck.
  destruct (storeUnique_insert obj st cfg registry registration
              Hrel Hi Hcfg Hreg Hwf Hget Hp Hw Hagree Hnew) as (c & cs & H1).
  fold cls ck in H1.
  set (st1 := clearCacheByPattern (getCacheKey (storageKey cls) ck None)
                (appended ck (storageKey cls) obj (recached c cs st))) in *.
  assert (Hstored1 : storedList st1 cls ck = all ++ [obj]).
  { unfold storedList, st1. cbn [data clearCacheByPattern set_cache appended].
    unfold pushRecord, queued. cbn [pw_collectionKey pw_storageKey pw_data].
    rewrite readList_writeList_eq. reflexivity. }
  assert (Hget2 : getRegistrationForInstance registry obj2 = Some registration).
  { unfold getRegistrationForInstance in *. rewrite Hcls. exact Hget. }
  assert (Hfind : findIndex (hasId (ent_id obj2))
                    (storedList st1 (ent_class obj2) (getCollectionKey registration obj2))
                  = Some (length all)).
  { rewrite Hcls, Hck, Hid, Hstored1.
    apply findIndex_app_last; [exact Hnew | apply hasId_self]. }
  assert (Hagree1 : cacheAgrees st1 (ent_class obj2) (getCollectionKey registration obj2)).
  { rewrite Hcls, Hck. apply cacheAgrees_cleared. }
  destruct (storeUnique_update obj2 st1 cfg registry registration (length all)
              Hrel Hi Hcfg Hreg Hwf Hget2 Hagree1 Hfind) as (st2 & H2 & Hread & Hm & _).
  rewrite Hcls, Hck, Hstored1 in Hread.
  replace (length all) with (length all + 0)%nat in Hread by lia.
  rewrite insert_app_r in Hread. cbn [insert list_insert] in Hread.
  assert (Hstored2 : storedList st2 cls ck = all ++ [obj2]).
  { unfold storedList. rewrite Hread. reflexivity. }
  exists st1, st2. repeat split; try assumption.
  - rewrite Hstored1. apply filter_one_match; [exact Hnew | apply hasId_self].
  - rewrite Hstored2. apply filter_one_match; [exact Hnew |].
    rewrite <- Hid. apply hasId_self.
Qed.

(** ** Methods keep the configuration *)

Lemma keeps_ret {A} (a : A) : Keeps (ret a).
Proof. intros s. reflexivity. Qed.

Lemma keeps_bind {A B} (m : M A) (k : A -> M B) :
  Keeps m -> (forall a, Keeps (k a)) -> Keeps (bind m k).
Proof.
  intros Hm Hk s. unfold bind. specialize (Hm s).
  destruct (m s) as [[a | e |] s1]; simpl in *; try assumption.
  rewrite (Hk a s1). assumption.
Qed.

Lemma keeps_modify (f : State -> State) :
  (forall s, setup (f s) = setup s) -> Keeps (modify f).
Proof. intros Hf s. apply Hf. Qed.

Lemma keeps_retry {A} (operation : M A) : Keeps operation -> Keeps (executeWithRetry operation).
Proof. intros H s. apply retryLoop_setup, H. Qed.

Lemma keeps_guarded {A} (a : A) (m : M A) :
  Keeps m -> Keeps (fun st => if negb (isInitialized st) then (Ok a, st) else m st).
Proof. intros H s. destruct (negb (isInitialized s)); [reflexivity | apply H]. Qed.

Lemma keeps_resolveRegistration obj : Keeps (resolveRegistration obj).
Proof.
  intros s. unfold resolveRegistration.
  destruct (config s) as [cfg |]; [| reflexivity].
  destruct (entityRegistry cfg) as [r |]; [| reflexivity].
  destruct (getRegistrationForInstance r obj); reflexivity.
Qed.

Lemma keeps_awaitWrite fuel pos : Keeps (awaitWrite fuel pos).
Proof.
  revert pos. induction fuel as [| fuel IH]; intros pos s; simpl; [reflexivity |].
  destruct (writeTimeout s) as [d |]; [| reflexivity].
  pose proof (fireAt_setup d s) as Hf.
  destruct (fireAt d s) as [settled s1]. simpl in Hf.
  destruct (settled !! pos) as [[w [| e]] |]; simpl; try assumption.
  rewrite IH. assumption.
Qed.

Lemma keeps_storeDataAwait ck sk d : Keeps (storeDataAwait ck sk d).
Proof.
  intros s. unfold storeDataAwait. rewrite keeps_awaitWrite.
  unfold storeData. rewrite scheduleBatchWrite_setup. reflexivity.
Qed.

Lemma keeps_getAllShared cls ck : Keeps (getAllShared cls ck).
Proof. intros s. apply getAllShared_setup. Qed.

Lemma keeps_getAll cls ck : Keeps (getAll cls ck).
Proof.
  unfold getAll. apply keeps_bind; [apply keeps_getAllShared | intros a; apply keeps_ret].
Qed.

Lemma keeps_writeShared b key l : Keeps (writeShared b key l).
Proof. intros s. unfold writeShared. destruct b; reflexivity. Qed.

Lemma keeps_replaceAll cls ck objects : Keeps (replaceAll cls ck objects).
Proof.
  unfold replaceAll. apply keeps_guarded, keeps_retry. intros s.
  destruct (String.eqb (storageKey cls) ""); [reflexivity |].
  unfold dbWrite. cbn [writeCalls set_data].
  destruct (writeFails env (writeCalls s)); reflexivity.
Qed.

(** The loop of [executeWithRetry] under an invariant of the attempts and of
    the waits between them. *)
Lemma retryLoop_ok_inv {A} (operation : M A) (I : State -> Prop) (Q : A -> State -> Prop) :
  (forall s, I s -> I (snd (operation s))) ->
  (forall s d, I s -> I (sleep d s)) ->
  (forall s a s', I s -> operation s = (Ok a, s') -> Q a s') ->
  forall fuel attempt last st a st',
    I st -> retryLoop fuel attempt last operation st = (Ok a, st') -> Q a st'.
Proof.
  intros Hop Hsleep HQ fuel. induction fuel as [| fuel IH]; intros attempt last st a st' HI H.
  - simpl in H. destruct last; discriminate.
  - simpl in H. pose proof (Hop st HI) as HI1.
    destruct (operation st) as [[a1 | e |] st1] eqn:Hrun; simpl in HI1.
    + inversion H; subst. exact (HQ st a st' HI Hrun).
    + eapply IH; [| exact H].
      destruct (Nat.ltb attempt MAX_RETRIES); [apply Hsleep |]; exact HI1.
    + discriminate.
Qed.

(** With the configuration as the invariant. *)
Lemma executeWithRetry_ok_setup {A} (operation : M A) (Q : A -> State -> Prop) st a st' :
  Keeps operation ->
  (forall s a s', setup s = setup st -> operation s = (Ok a, s') -> Q a s') ->
  executeWithRetry operation st = (Ok a, st') -> Q a st'.
Proof.
  intros Hk HQ H. unfold executeWithRetry in H.
  refine (retryLoop_ok_inv operation (fun s => setup s = setup st) Q _ _ HQ
            _ _ _ st a st' eq_refl H).
  - intros s Hs. rewrite Hk. exact Hs.
  - intros s d Hs. rewrite sleep_setup. exact Hs.
Qed.

(** ** Mutations invalidate the cache *)

Lemma invalidated_clear sk ck st :
  invalidated (clearCacheByPattern (getCacheKey sk ck None) st) sk ck.
Proof. intros k e H. apply clearCacheByPattern_spec in H as [H _]. exact H. Qed.

Lemma invalidated_clear_more p sk ck st :
  invalidated st sk ck -> invalidated (clearCacheByPattern p st) sk ck.
Proof. intros Hinv k e H. apply clearCacheByPattern_spec in H as [_ H]. eapply Hinv, H. Qed.

Lemma invalidated_no_entry st sk ck suffix :
  invalidated st sk ck -> cache_get (getCacheKey sk ck suffix) (cache st) = None.
Proof.
  intros Hinv. destruct (cache_get _ _) as [e |] eqn:H; [| reflexivity].
  apply cache_get_In, Hinv in H. rewrite getCacheKey_prefix in H. discriminate.
Qed.

Lemma replaceAll_invalidates cls ck objects st st' :
  isInitialized st = true ->
  replaceAll cls ck objects st = (Ok tt, st') ->
  invalidated st' (storageKey cls) ck.
Proof.
  intros Hi H. unfold replaceAll in H. rewrite Hi in H. simpl negb in H. cbv iota in H.
  revert H. apply (executeWithRetry_ok_post _ (fun _ s' => invalidated s' (storageKey cls) ck)).
  intros s [] s' Hop.
  destruct (String.eqb (storageKey cls) ""); [discriminate |].
  destruct (dbWrite _) as [[e |] s2]; [discriminate |].
  inversion Hop; subst. apply invalidated_clear.
Qed.

Lemma resolveRegistration_setup obj s st :
  setup s = setup st ->
  fst (resolveRegistration obj s) = fst (resolveRegistration obj st).
Proof.
  unfold setup, resolveRegistration. intros H. inversion H as [[Hc Hi]].
  clear H. destruct (config s) as [cfg |]; [| reflexivity].
  destruct (entityRegistry cfg) as [r |]; [| reflexivity].
  destruct (getRegistrationForInstance r obj); reflexivity.
Qed.

Lemma store_invalidates obj registration st st' :
  isInitialized st = true ->
  fst (resolveRegistration obj st) = Ok registration ->
  store obj st = (Ok tt, st') ->
  invalidated st' (reg_storageKey registration) (getCollectionKey registration obj).
Proof.
  intros Hi Hreg H. unfold store in H. rewrite Hi in H. simpl negb in H. cbv iota in H.
  revert H.
  apply (executeWithRetry_ok_setup _
           (fun _ s' => invalidated s' (reg_storageKey registration)
                          (getCollectionKey registration obj))).
  - apply keeps_bind; [apply keeps_resolveRegistration |]. intros r.
    apply keeps_bind; [apply keeps_storeDataAwait |]. intros _.
    apply keeps_modify. intros s. reflexivity.
  - intros s [] s' Hs Hop.
    apply bind_ok_inv in Hop as (r & s1 & Hr & Hop).
    pose proof (resolveRegistration_setup obj s st Hs) as Hsame.
    rewrite Hr, Hreg in Hsame. simpl in Hsame. inversion Hsame; subst r.
    apply bind_ok_inv in Hop as ([] & s2 & _ & Hop).
    unfold modify in Hop. inversion Hop; subst. apply invalidated_clear.
Qed.

Lemma storeUnique_invalidates obj registration st b st' :
  isInitialized st = true ->
  fst (resolveRegistration obj st) = Ok registration ->
  storeUnique obj st = (Ok b, st') ->
  invalidated st' (reg_storageKey registration) (getCollectionKey registration obj).
Proof.
  intros Hi Hreg H. unfold storeUnique in H. rewrite Hi in H. simpl negb in H.
  cbv iota in H. revert H.
  apply (executeWithRetry_ok_setup _
           (fun _ s' => invalidated s' (reg_storageKey registration)
                          (getCollectionKey registration obj))).
  - apply keeps_bind; [apply keeps_resolveRegistration |]. intros r.
    apply keeps_bind; [apply keeps_getAllShared |]. intros [l sh].
    apply keeps_bind.
    + destruct (findIndex _ l).
      * apply keeps_bind; [apply keeps_writeShared |]. intros _.
        apply keeps_bind; [apply keeps_replaceAll |]. intros _. apply keeps_ret.
      * apply keeps_bind; [apply keeps_storeDataAwait |]. intros _. apply keeps_ret.
    + intros u. apply keeps_bind; [| intros _; apply keeps_ret].
      apply keeps_modify. intros s. reflexivity.
  - intros s b' s' Hs Hop.
    apply bind_ok_inv in Hop as (r & s1 & Hr & Hop).
    pose proof (resolveRegistration_setup obj s st Hs) as Hsame.
    rewrite Hr, Hreg in Hsame. simpl in Hsame. inversion Hsame; subst r.
    apply bind_ok_inv in Hop as ([l sh] & s2 & _ & Hop).
    apply bind_ok_inv in Hop as (u & s3 & _ & Hop).
    apply bind_ok_inv in Hop as ([] & s4 & Hclear & Hop).
    unfold modify in Hclear. unfold ret in Hop. inversion Hclear; inversion Hop; subst.
    apply invalidated_clear.
Qed.

Lemma deleteById_invalidates cls ck objectId st st' :
  isInitialized st = true ->
  deleteById cls ck objectId st = (Ok true, st') ->
  invalidated st' (storageKey cls) ck.
Proof.
  intros Hi H. unfold deleteById in H. rewrite Hi in H. simpl negb in H. cbv iota in H.
  refine (executeWithRetry_ok_setup _
            (fun b s' => b = true -> invalidated s' (storageKey cls) ck)
            st true st' _ _ H eq_refl).
  - apply keeps_bind; [apply keeps_getAll |]. intros l.
    destruct (Nat.eqb _ _); [apply keeps_ret |].
    apply keeps_bind; [apply keeps_replaceAll |]. intros _.
    apply keeps_bind; [| intros _; apply keeps_ret].
    destruct (String.eqb (storageKey cls) ""); [apply keeps_ret |].
    apply keeps_modify. intros s. reflexivity.
  - intros s b s' Hs Hop Hb. subst b.
    apply bind_ok_inv in Hop as (all & s1 & Hget & Hop).
    destruct (Nat.eqb _ _); [unfold ret in Hop; inversion Hop |].
    apply bind_ok_inv in Hop as ([] & s2 & Hrep & Hop).
    apply replaceAll_invalidates in Hrep.
    + apply bind_ok_inv in Hop as ([] & s3 & Hclear & Hop).
      unfold ret in Hop. inversion Hop; subst.
      destruct (String.eqb (storageKey cls) "").
      * unfold ret in Hclear. inversion Hclear; subst. exact Hrep.
      * unfold modify in Hclear. inversion Hclear; subst.
        apply invalidated_clear_more, Hrep.
    + rewrite (setup_isInitialized st s1); [exact Hi |].
      rewrite (getAll_setup _ _ _ _ _ Hget). exact Hs.
Qed.

Lemma purgeStaleItems_invalidates cls ck maxAgeHours st n st' :
  isInitialized st = true ->
  purgeStaleItems cls ck maxAgeHours st = (Ok n, st') ->
  (0 < n)%nat ->
  invalidated st' (storageKey cls) ck.
Proof.
  intros Hi H. unfold purgeStaleItems in H. rewrite Hi in H. simpl negb in H.
  cbv iota in H.
  refine (executeWithRetry_ok_setup _
            (fun n s' => (0 < n)%nat -> invalidated s' (storageKey cls) ck)
            st n st' _ _ H).
  - intros s. destruct (String.eqb (storageKey cls) ""); [reflexivity |].
    apply keeps_bind; [apply keeps_getAll |]. intros l.
    apply keeps_bind; [intros s0; reflexivity |]. intros cutoffTime.
    apply keeps_bind; [apply keeps_dateToISOString |]. intros cutoff.
    apply keeps_bind; [| intros _; apply keeps_ret].
    destruct (Nat.ltb _ _); [apply keeps_replaceAll | apply keeps_ret].
  - intros s m s' Hs Hop Hm.
    destruct (String.eqb (storageKey cls) ""); [discriminate |].
    apply bind_ok_inv in Hop as (all & s1 & Hget & Hop).
    apply bind_ok_inv in Hop as (cutoffTime & s2 & Hcut & Hop).
    unfold gets in Hcut. inversion Hcut; subst s2. clear Hcut.
    apply bind_ok_inv in Hop as (cutoff & s2 & Hcut & Hop).
    unfold dateToISOString in Hcut.
    destruct cutoffTime; [| discriminate]. inversion Hcut; subst s2. clear Hcut.
    apply bind_ok_inv in Hop as ([] & s3 & Hrep & Hop).
    unfold ret in Hop. inversion Hop; subst. clear Hop.
    apply Nat.ltb_lt in Hm. rewrite Hm in Hrep.
    apply replaceAll_invalidates in Hrep; [exact Hrep |].
    rewrite (setup_isInitialized st s1); [exact Hi |].
    rewrite (getAll_setup _ _ _ _ _ Hget). exact Hs.
Qed.

(** After an invalidation, reads of the collection go to the store. *)
Lemma invalidated_agrees st cls ck :
  invalidated st (storageKey cls) ck -> cacheAgrees st cls ck.
Proof.
  intros Hinv e He.
  rewrite (invalidated_no_entry st (storageKey cls) ck None Hinv) in He. discriminate.
Qed.

Lemma getFromCache_miss key st :
  cache_get key (cache st) = None ->
  getFromCache key st =
    (None, if cachingEnabled st then set_cacheStats (bumpMisses (cacheStats st)) st else st).
Proof.
  intros H. unfold getFromCache. rewrite H. destruct (cachingEnabled st); reflexivity.
Qed.

Lemma getById_after_invalidation cls ck entityId st :
  isInitialized st = true ->
  storageKey cls <> "" ->
  invalidated st (storageKey cls) ck ->
  exists st',
    getById cls ck entityId st =
      (Ok (List.find (hasId (Some entityId)) (storedList st cls ck)), st').
Proof.
  intros Hi Hsk Hinv. unfold getById.
  pose proof Hsk as Hskb. apply String.eqb_neq in Hskb. rewrite Hskb.
  rewrite (getFromCache_miss _ _ (invalidated_no_entry st _ ck (Some entityId) Hinv)).
  set (s1 := if cachingEnabled st then _ else st).
  assert (Hs1 : s1 = recached (cache st) (cacheStats s1) st).
  { unfold s1. destruct (cachingEnabled st); [reflexivity |]. symmetry. apply recached_self. }
  assert (Hag : cacheAgrees s1 cls ck).
  { rewrite Hs1. apply invalidated_agrees. exact Hinv. }
  assert (Hi1 : isInitialized s1 = true).
  { rewrite Hs1. exact Hi. }
  destruct (getAll_agrees cls ck s1 Hi1 Hsk Hag) as (c & cs & Hall).
  rewrite (bind_ok _ _ _ _ _ Hall).
  replace (storedList s1 cls ck) with (storedList st cls ck)
    by (rewrite Hs1; reflexivity).
  eexists. reflexivity.
Qed.

Lemma keeps_store obj : Keeps (store obj).
Proof.
  unfold store. apply keeps_guarded, keeps_retry.
  apply keeps_bind; [apply keeps_resolveRegistration |]. intros r.
  apply keeps_bind; [apply keeps_storeDataAwait |]. intros _.
  apply keeps_modify. intros s. reflexivity.
Qed.

Lemma keeps_storeUnique obj : Keeps (storeUnique obj).
Proof.
  unfold storeUnique. apply keeps_guarded, keeps_retry.
  apply keeps_bind; [apply keeps_resolveRegistration |]. intros r.
  apply keeps_bind; [apply keeps_getAllShared |]. intros [l sh].
  apply keeps_bind.
  - destruct (findIndex _ l).
    + apply keeps_bind; [apply keeps_writeShared |]. intros _.
      apply keeps_bind; [apply keeps_replaceAll |]. intros _. apply keeps_ret.
    + apply keeps_bind; [apply keeps_storeDataAwait |]. intros _. apply keeps_ret.
  - intros u. apply keeps_bind; [| intros _; apply keeps_ret].
    apply keeps_modify. intros s. reflexivity.
Qed.

Lemma keeps_deleteById cls ck objectId : Keeps (deleteById cls ck objectId).
Proof.
  unfold deleteById. apply keeps_guarded, keeps_retry.
  apply keeps_bind; [apply keeps_getAll |]. intros l.
  destruct (Nat.eqb _ _); [apply keeps_ret |].
  apply keeps_bind; [apply keeps_replaceAll |]. intros _.
  apply keeps_bind; [| intros _; apply keeps_ret].
  destruct (String.eqb (storageKey cls) ""); [apply keeps_ret |].
  apply keeps_modify. intros s. reflexivity.
Qed.

Lemma keeps_purgeStaleItems cls ck maxAgeHours : Keeps (purgeStaleItems cls ck maxAgeHours).
Proof.
  unfold purgeStaleItems. apply keeps_guarded, keeps_retry.
  intros s. destruct (String.eqb (storageKey cls) ""); [reflexivity |].
  apply keeps_bind; [apply keeps_getAll |]. intros l.
  apply keeps_bind; [intros s0; reflexivity |]. intros cutoffTime.
  apply keeps_bind; [apply keeps_dateToISOString |]. intros cutoff.
  apply keeps_bind; [| intros _; apply keeps_ret].
  destruct (Nat.ltb _ _); [apply keeps_replaceAll | apply keeps_ret].
Qed.

Lemma invalidated_readsStore st cls ck :
  isInitialized st = true ->
  storageKey cls <> "" ->
  invalidated st (storageKey cls) ck ->
  readsStore st cls ck.
Proof.
  intros Hi Hsk Hinv. split; [| split].
  - intros suffix.
    rewrite (getFromCache_miss _ _ (invalidated_no_entry st _ ck suffix Hinv)). reflexivity.
  - destruct (getAll_agrees cls ck st Hi Hsk (invalidated_agrees _ _ _ Hinv)) as (c & cs & H).
    eexists. exact H.
  - intros entityId. apply getById_after_invalidation; assumption.
Qed.

(** C8: on an initialized repository, a [store], [storeUnique] or
    [replaceAll] that completes, a [deleteById] that removed something and a
    [purgeStaleItems] that purged something leave no cache entry whose key
    starts with the key of the storage identifier and collection key they
    wrote to, entries of single entities included; and in such a state the
    next [getFromCache] for the collection or one of its entities misses,
    [getAll] returns the stored list and [getById] searches it. *)
Theorem mutations_invalidate_and_reads_see_the_store (st st' : State) :
  isInitialized st = true ->
  (forall obj registration,
      fst (resolveRegistration obj st) = Ok registration ->
      store obj st = (Ok tt, st') ->
      setup st' = setup st /\
      invalidated st' (reg_storageKey registration) (getCollectionKey registration obj)) /\
  (forall obj registration b,
      fst (resolveRegistration obj st) = Ok registration ->
      storeUnique obj st = (Ok b, st') ->
      setup st' = setup st /\
      invalidated st' (reg_storageKey registration) (getCollectionKey registration obj)) /\
  (forall cls ck objects,
      replaceAll cls ck objects st = (Ok tt, st') ->
      setup st' = setup st /\ invalidated st' (storageKey cls) ck) /\
  (forall cls ck objectId,
      deleteById cls ck objectId st = (Ok true, st') ->
      setup st' = setup st /\ invalidated st' (storageKey cls) ck) /\
  (forall cls ck maxAgeHours n,
      purgeStaleItems cls ck maxAgeHours st = (Ok n, st') -> (0 < n)%nat ->
      setup st' = setup st /\ invalidated st' (storageKey cls) ck) /\
  (forall cls ck,
      setup st' = setup st ->
      storageKey cls <> "" ->
      invalidated st' (storageKey cls) ck ->
      readsStore st' cls ck).
Proof.
  intros Hi.
  assert (Hset : forall A (m : M A) r, Keeps m -> m st = (r, st') -> setup st' = setup st).
  { intros A m r Hk Hrun. specialize (Hk st). rewrite Hrun in Hk. exact Hk. }
  split; [| split; [| split; [| split; [| split]]]].
  - intros obj registration Hreg H. split.
    + exact (Hset _ _ _ (keeps_store obj) H).
    + exact (store_invalidates _ _ _ _ Hi Hreg H).
  - intros obj registration b Hreg H. split.
    + exact (Hset _ _ _ (keeps_storeUnique obj) H).
    + exact (storeUnique_invalidates _ _ _ _ _ Hi Hreg H).
  - intros cls ck objects H. split.
    + exact (Hset _ _ _ (keeps_replaceAll cls ck objects) H).
    + exact (replaceAll_invalidates _ _ _ _ _ Hi H).
  - intros cls ck objectId H. split.
    + exact (Hset _ _ _ (keeps_deleteById cls ck objectId) H).
    + exact (deleteById_invalidates _ _ _ _ _ Hi H).
  - intros cls ck maxAgeHours n H Hn. split.
    + exact (Hset _ _ _ (keeps_purgeStaleItems cls ck maxAgeHours) H).
    + exact (purgeStaleItems_invalidates _ _ _ _ _ _ Hi H Hn).
  - intros cls ck Hs Hsk Hinv. apply invalidated_readsStore; [| assumption | assumption].
    rewrite (setup_isInitialized st st'); assumption.
Qed.

(** ** Draining the queue *)

Lemma flushed_fields st :
  writeTimeout st = None ->
  let st1 := flushed st in
  pendingWrites st1 = drop MAX_BATCH_SIZE (pendingWrites st) /\
  isWriting st1 = false /\
  data st1 = fold_left pushRecord (take MAX_BATCH_SIZE (pendingWrites st)) (data st) /\
  file st1 = data st1 /\
  writeCalls st1 = S (writeCalls st) /\
  metrics st1 = recordBatch (length (take MAX_BATCH_SIZE (pendingWrites st))) (metrics st) /\
  clock st1 = clock st /\
  writeTimeout st1 =
    (if Nat.ltb 0 (length (drop MAX_BATCH_SIZE (pendingWrites st)))
     then Some (clock st + BATCH_DELAY_MS) else None).
Proof.
  intros Ht. unfold flushed.
  destruct (Nat.ltb 0 (length (drop MAX_BATCH_SIZE (pendingWrites st)))).
  - unfold scheduleBatchWrite. cbn [writeTimeout]. rewrite Ht. cbn.
    repeat split; reflexivity.
  - cbn. rewrite Ht. repeat split; reflexivity.
Qed.

Lemma fireAt_ok d st :
  pendingWrites st <> [] ->
  isWriting st = false ->
  writeFails env (writeCalls st) = None ->
  fireAt d st =
    (map (fun w => (w, Resolved)) (take MAX_BATCH_SIZE (pendingWrites st)),
     flushed (set_writeTimeout None (set_clock (Z.max (clock st) d) st))).
Proof.
  intros Hp Hw Hf. unfold fireAt, fireTimer.
  rewrite performBatchWrite_ok; [reflexivity | exact Hp | exact Hw | exact Hf].
Qed.

Lemma batches_zero : batches 0 = 0%nat.
Proof. reflexivity. Qed.

Lemma batches_step n : (0 < n)%nat -> batches n = S (batches (n - 100)).
Proof.
  intros Hn. unfold batches.
  destruct (Nat.le_gt_cases 100 n) as [Hge | Hlt].
  - replace (n + 99)%nat with ((n - 100 + 99) + 1 * 100)%nat by lia.
    rewrite Nat.div_add by lia. lia.
  - replace (n - 100)%nat with 0%nat by lia.
    replace (n + 99)%nat with ((n - 1) + 1 * 100)%nat by lia.
    rewrite Nat.div_add by lia.
    rewrite (Nat.div_small (n - 1) 100) by lia. reflexivity.
Qed.

Lemma runUntilIdle_drains fuel :
  (forall k, writeFails env k = None) ->
  forall st,
    isWriting st = false ->
    (pendingWrites st <> [] -> exists d, writeTimeout st = Some d) ->
    (pendingWrites st = [] -> writeTimeout st = None) ->
    (batches (length (pendingWrites st)) <= fuel)%nat ->
    exists st',
      runUntilIdle fuel st = (map (fun w => (w, Resolved)) (pendingWrites st), st') /\
      data st' = fold_left pushRecord (pendingWrites st) (data st) /\
      (pendingWrites st <> [] -> file st' = data st') /\
      writeCalls st' = (writeCalls st + batches (length (pendingWrites st)))%nat /\
      totalWrites (metrics st') =
        (totalWrites (metrics st) + batches (length (pendingWrites st)))%nat /\
      batchedWrites (metrics st') =
        (batchedWrites (metrics st) + length (pendingWrites st))%nat /\
      pendingWrites st' = [] /\
      writeTimeout st' = None /\
      isWriting st' = false.
Proof.
  intros Hrel. induction fuel as [| fuel IH]; intros st Hw Htimer Hidle Hfuel.
  - destruct (pendingWrites st) as [| w q] eqn:Hq.
    + exists st. simpl. rewrite Hq. rewrite (Hidle eq_refl).
      repeat split; try reflexivity; try exact Hw; try congruence;
        rewrite ?batches_zero; lia.
    + rewrite batches_step in Hfuel by (simpl; lia). lia.
  - destruct (pendingWrites st) as [| w q] eqn:Hq.
    + exists st. simpl. rewrite (Hidle eq_refl). rewrite Hq.
      repeat split; try reflexivity; try exact Hw; try congruence;
        rewrite ?batches_zero; lia.
    + destruct Htimer as [d Hd]; [discriminate |].
      cbn [runUntilIdle]. rewrite Hd.
      rewrite fireAt_ok; [| rewrite Hq; discriminate | exact Hw | apply Hrel].
      set (st0 := set_writeTimeout None (set_clock (Z.max (clock st) d) st)).
      destruct (flushed_fields st0 eq_refl)
        as (Hp1 & Hw1 & Hd1 & Hf1 & Hc1 & Hm1 & Hk1 & Ht1).
      change (pendingWrites st0) with (pendingWrites st) in *.
      change (data st0) with (data st) in *.
      change (writeCalls st0) with (writeCalls st) in *.
      change (metrics st0) with (metrics st) in *.
      rewrite Hq in *.
      destruct (IH (flushed st0)) as (st' & Hrun & Hdata & Hfile & Hcalls & Htw & Hbw
                                      & Hpend & Htime & Hwr).
      * exact Hw1.
      * intros Hne. rewrite Ht1. rewrite Hp1 in Hne.
        destruct (drop MAX_BATCH_SIZE (w :: q)); [congruence | simpl; eauto].
      * intros He. rewrite Ht1. rewrite Hp1 in He. rewrite He. reflexivity.
      * rewrite Hp1, length_drop. rewrite batches_step in Hfuel by (simpl; lia).
        unfold MAX_BATCH_SIZE. lia.
      * exists st'. rewrite Hrun. rewrite Hp1 in *.
        rewrite <- map_app, take_drop.
        split; [reflexivity |].
        split; [rewrite Hdata, Hd1, <- fold_left_app, take_drop; reflexivity |].
        split.
        { intros _. destruct (drop MAX_BATCH_SIZE (w :: q)) eqn:Hdrop.
          - (* the first flush was the last *)
            assert (st' = flushed st0) as ->; [| exact Hf1].
            destruct fuel; cbn [runUntilIdle] in Hrun; [inversion Hrun; reflexivity |].
            rewrite Ht1 in Hrun. cbn in Hrun. inversion Hrun; reflexivity.
          - apply Hfile. discriminate. }
        rewrite Hcalls, Htw, Hbw, Hc1, Hm1. cbn [totalWrites batchedWrites recordBatch].
        rewrite (batches_step (length (w :: q))) by (simpl; lia).
        rewrite length_drop, length_take. unfold MAX_BATCH_SIZE.
        repeat split; try assumption; lia.
Qed.

Lemma enqueueAll_fields ws : forall st,
  let st' := enqueueAll ws st in
  pendingWrites st' = pendingWrites st ++ ws /\
  isWriting st' = isWriting st /\
  data st' = data st /\
  file st' = file st /\
  writeCalls st' = writeCalls st /\
  metrics st' = metrics st /\
  clock st' = clock st /\
  writeTimeout st' =
    (match ws with [] => writeTimeout st | _ => Some (clock st + BATCH_DELAY_MS) end).
Proof.
  induction ws as [| w ws IH]; intros st.
  - simpl. rewrite app_nil_r. repeat split; reflexivity.
  - cbn [enqueueAll fold_left].
    specialize (IH (storeData (pw_collectionKey w) (pw_storageKey w) (pw_data w) st)).
    unfold enqueueAll in IH. cbv zeta in IH.
    destruct IH as (Hp & Hw & Hd & Hf & Hc & Hm & Hk & Ht).
    unfold storeData in *. rewrite scheduleBatchWrite_reset in *.
    cbn [pendingWrites isWriting data file writeCalls metrics clock writeTimeout
         set_writeTimeout set_pendingWrites] in *.
    rewrite Hp, Hw, Hd, Hf, Hc, Hm, Hk, Ht.
    destruct w as [ck sk d]. cbn [pw_collectionKey pw_storageKey pw_data].
    rewrite <- app_assoc.
    repeat split; try reflexivity. destruct ws; reflexivity.
Qed.

Lemma listAt_pushRecord t w ck sk :
  listAt (pushRecord t w) ck sk =
    listAt t ck sk ++ map pw_data (forList ck sk [w]).
Proof.
  unfold listAt, pushRecord, forList. simpl.
  destruct (decide (pw_collectionKey w = ck /\ pw_storageKey w = sk)) as [[<- <-] | Hne].
  - rewrite bool_decide_eq_true_2 by (split; reflexivity).
    rewrite readList_writeList_eq. reflexivity.
  - rewrite bool_decide_eq_false_2 by exact Hne.
    rewrite readList_writeList_ne.
    + simpl. rewrite app_nil_r. reflexivity.
    + intros Heq. inversion Heq; subst. apply Hne. split; reflexivity.
Qed.

(** Every write of the queue lands once, in queue order, at the end of its
    list. *)
Lemma listAt_fold_pushRecord ws : forall t ck sk,
  listAt (fold_left pushRecord ws t) ck sk =
    listAt t ck sk ++ map pw_data (forList ck sk ws).
Proof.
  induction ws as [| w ws IH]; intros t ck sk.
  - simpl. rewrite app_nil_r. reflexivity.
  - cbn [fold_left]. rewrite IH, listAt_pushRecord.
    rewrite <- app_assoc, <- map_app. unfold forList.
    rewrite <- List.filter_app. reflexivity.
Qed.

Lemma batches_le n : (batches n <= S n)%nat.
Proof. unfold batches. apply Nat.Div0.div_le_upper_bound. lia. Qed.

(** C5: a flush takes the 100 oldest queued writes (all of them when fewer),
    pushes them on their lists in queue order, calls the durable write once,
    resolves their promises in order and, when writes remain, leaves a flush
    timer pending; [n] writes queued together on an idle batcher are thus
    written in ceiling(n/100) durable writes, each record landing once, in
    order, at the end of its list. *)
Theorem flush_takes_one_hundred_and_partitions_the_queue
    (st s : State) (ws : list PendingWrite) :
  (forall k, writeFails env k = None) ->
  pendingWrites st = [] ->
  writeTimeout st = None ->
  isWriting st = false ->
  pendingWrites s <> [] ->
  isWriting s = false ->
  (exists s1,
     fireTimer s =
       (map (fun w => (w, Resolved)) (take MAX_BATCH_SIZE (pendingWrites s)), s1) /\
     data s1 = fold_left pushRecord (take MAX_BATCH_SIZE (pendingWrites s)) (data s) /\
     file s1 = data s1 /\
     writeCalls s1 = S (writeCalls s) /\
     pendingWrites s1 = drop MAX_BATCH_SIZE (pendingWrites s) /\
     writeTimeout s1 =
       (if Nat.ltb 0 (length (drop MAX_BATCH_SIZE (pendingWrites s)))
        then Some (clock s + BATCH_DELAY_MS) else None)) /\
  (exists st',
     settleAll (enqueueAll ws st) = (map (fun w => (w, Resolved)) ws, st') /\
     writeCalls st' = (writeCalls st + (length ws + 99) / 100)%nat /\
     totalWrites (metrics st') = (totalWrites (metrics st) + (length ws + 99) / 100)%nat /\
     batchedWrites (metrics st') = (batchedWrites (metrics st) + length ws)%nat /\
     data st' = fold_left pushRecord ws (data st) /\
     (forall ck sk,
         listAt (data st') ck sk = listAt (data st) ck sk ++ map pw_data (forList ck sk ws)) /\
     pendingWrites st' = [] /\
     writeTimeout st' = None).
Proof.
  intros Hrel Hp Ht Hw Hps Hws. split.
  - exists (flushed (set_writeTimeout None s)). unfold fireTimer.
    rewrite performBatchWrite_ok; [| exact Hps | exact Hws | apply Hrel].
    destruct (flushed_fields (set_writeTimeout None s) eq_refl)
      as (Hp1 & Hw1 & Hd1 & Hf1 & Hc1 & Hm1 & Hk1 & Ht1).
    repeat split; assumption.
  - destruct (enqueueAll_fields ws st) as (Hp' & Hw' & Hd' & Hf' & Hc' & Hm' & Hk' & Ht').
    rewrite Hp in Hp'. simpl in Hp'.
    destruct (runUntilIdle_drains (S (length ws)) Hrel (enqueueAll ws st))
      as (st' & Hrun & Hdata & Hfile & Hcalls & Htw & Hbw & Hpend & Htime & Hwr).
    + rewrite Hw'. exact Hw.
    + intros Hne. rewrite Ht'. destruct ws; [exfalso; apply Hne; exact Hp' | eauto].
    + intros He. rewrite Ht'. rewrite Hp' in He. subst ws. exact Ht.
    + rewrite Hp'. apply batches_le.
    + exists st'. unfold settleAll. rewrite Hp' in *. rewrite Hrun.
      rewrite Hd' in Hdata. rewrite Hc' in Hcalls. rewrite Hm' in Htw, Hbw.
      unfold batches in *.
      repeat split; try assumption.
      intros ck sk. rewrite Hdata. apply listAt_fold_pushRecord.
Qed.

(** ** The debounce window *)

Lemma storeData_fields ck sk d st :
  let st' := storeData ck sk d st in
  writeTimeout st' = Some (clock st + BATCH_DELAY_MS) /\
  pendingWrites st' = pendingWrites st ++ [queued ck sk d] /\
  writeCalls st' = writeCalls st /\
  data st' = data st /\
  file st' = file st /\
  isWriting st' = isWriting st /\
  clock st' = clock st.
Proof.
  unfold storeData. rewrite scheduleBatchWrite_reset. cbn. repeat split; reflexivity.
Qed.

(** C2 (as amended): every enqueue, the first after quiescence or a further
    one, whatever the length of the queue, sets the flush timer to 50 ms
    after it and flushes nothing itself; nothing is flushed while less than
    50 ms have passed since the last enqueue; when 50 ms have passed without
    a new enqueue the flush runs and takes at most 100 writes.  The length of
    the queue never ends the window. *)
Theorem enqueue_resets_the_flush_timer
    (ck sk : string) (d : Entity) (st : State) (t : Z) :
  clock st <= t < clock st + BATCH_DELAY_MS ->
  isWriting st = false ->
  writeFails env (writeCalls st) = None ->
  let w := queued ck sk d in
  let st' := storeData ck sk d st in
  writeTimeout st' = Some (clock st + BATCH_DELAY_MS) /\
  pendingWrites st' = pendingWrites st ++ [w] /\
  writeCalls st' = writeCalls st /\
  data st' = data st /\
  advanceTo t st' = set_clock t st' /\
  let st'' := advanceTo (clock st + BATCH_DELAY_MS) st' in
  writeCalls st'' = S (writeCalls st) /\
  pendingWrites st'' = drop MAX_BATCH_SIZE (pendingWrites st ++ [w]) /\
  data st'' = fold_left pushRecord (take MAX_BATCH_SIZE (pendingWrites st ++ [w])) (data st).
Proof.
  intros Ht Hw Hf w st'.
  destruct (storeData_fields ck sk d st) as (Htime & Hpend & Hcalls & Hdata & _ & Hwr & Hclock).
  fold st' in Htime, Hpend, Hcalls, Hdata, Hwr, Hclock. fold w in Hpend.
  split; [exact Htime |]. split; [exact Hpend |]. split; [exact Hcalls |].
  split; [exact Hdata |]. split.
  - unfold advanceTo. cbn [runTimers]. rewrite Htime.
    replace (clock st + BATCH_DELAY_MS <=? t) with false by (symmetry; apply Z.leb_gt; lia).
    rewrite Hclock. rewrite Z.max_r by lia. reflexivity.
  - unfold advanceTo. cbn [runTimers]. rewrite Htime, Z.leb_refl.
    rewrite fireAt_ok;
      [| rewrite Hpend; destruct (pendingWrites st); discriminate
       | rewrite Hwr; exact Hw | rewrite Hcalls; exact Hf].
    cbn [snd].
    set (st0 := set_writeTimeout None
                  (set_clock (Z.max (clock st') (clock st + BATCH_DELAY_MS)) st')).
    destruct (flushed_fields st0 eq_refl) as (Hp1 & Hw1 & Hd1 & Hf1 & Hc1 & Hm1 & Hk1 & Ht1).
    change (pendingWrites st0) with (pendingWrites st') in *.
    change (data st0) with (data st') in *.
    change (writeCalls st0) with (writeCalls st') in *.
    change (clock st0) with (Z.max (clock st') (clock st + BATCH_DELAY_MS)) in *.
    assert (Hstop : forall fuel,
               runTimers fuel (clock st + BATCH_DELAY_MS) (flushed st0) = flushed st0).
    { intros [| fuel]; [reflexivity |]. cbn [runTimers]. rewrite Ht1.
      destruct (Nat.ltb 0 _); [| reflexivity].
      replace (_ <=? _) with false; [reflexivity |].
      symmetry. apply Z.leb_gt. rewrite Hclock. unfold BATCH_DELAY_MS. lia. }
    rewrite Hstop. cbn [writeCalls pendingWrites data set_clock].
    rewrite Hc1, Hp1, Hd1, Hcalls, Hpend, Hdata. repeat split; reflexivity.
Qed.

(** ** A failing durable write *)

Lemma flushFailed_fields st :
  writeTimeout st = None ->
  (length (pendingWrites st) <= MAX_BATCH_SIZE)%nat ->
  let st1 := flushFailed st in
  setup st1 = setup st /\
  idle st1 /\
  writeCalls st1 = S (writeCalls st) /\
  clock st1 = clock st /\
  slept st1 = slept st /\
  data st1 = fold_left pushRecord (pendingWrites st) (data st).
Proof.
  intros Ht Hlen. unfold flushFailed.
  rewrite (drop_ge (pendingWrites st)) by exact Hlen.
  rewrite (take_ge (pendingWrites st)) by exact Hlen.
  cbn. unfold idle. cbn. rewrite Ht. repeat split; reflexivity.
Qed.

Lemma storeDataAwait_fail ck sk d st code :
  (length (pendingWrites st) < MAX_BATCH_SIZE)%nat ->
  isWriting st = false ->
  writeFails env (writeCalls st) = Some code ->
  exists st',
    storeDataAwait ck sk d st = (Err (WriteFailed code), st') /\
    fst (fireAt (clock st + BATCH_DELAY_MS) (storeData ck sk d st)) =
      map (fun w => (w, Rejected (WriteFailed code))) (pendingWrites st ++ [queued ck sk d]) /\
    setup st' = setup st /\
    idle st' /\
    writeCalls st' = S (writeCalls st) /\
    clock st' = clock st + BATCH_DELAY_MS /\
    slept st' = slept st.
Proof.
  intros Hlen Hw Hf.
  destruct (storeData_fields ck sk d st) as (Htime & Hpend & Hcalls & Hdata & _ & Hwr & Hclock).
  set (st1 := storeData ck sk d st) in *.
  set (st0 := set_writeTimeout None
                (set_clock (Z.max (clock st1) (clock st + BATCH_DELAY_MS)) st1)).
  assert (Hfire : fireAt (clock st + BATCH_DELAY_MS) st1 =
            (map (fun w => (w, Rejected (WriteFailed code)))
               (pendingWrites st ++ [queued ck sk d]), flushFailed st0)).
  { unfold fireAt, fireTimer. fold st0.
    rewrite (performBatchWrite_fail st0 code).
    - change (pendingWrites st0) with (pendingWrites st1). rewrite Hpend.
      rewrite take_ge; [reflexivity |]. rewrite length_app. simpl.
      unfold MAX_BATCH_SIZE in *. lia.
    - change (pendingWrites st0) with (pendingWrites st1). rewrite Hpend.
      destruct (pendingWrites st); discriminate.
    - change (isWriting st0) with (isWriting st1). rewrite Hwr. exact Hw.
    - change (writeCalls st0) with (writeCalls st1). rewrite Hcalls. exact Hf. }
  assert (Hlen0 : (length (pendingWrites st0) <= MAX_BATCH_SIZE)%nat).
  { change (pendingWrites st0) with (pendingWrites st1). rewrite Hpend, length_app. simpl.
    unfold MAX_BATCH_SIZE in *. lia. }
  destruct (flushFailed_fields st0 eq_refl Hlen0) as (Hs & Hidle & Hc & Hk & Hsl & _).
  exists (flushFailed st0). split; [| split; [| split; [| split; [| split; [| split]]]]].
  - unfold storeDataAwait. fold st1. rewrite Hpend, length_app. simpl length.
    rewrite Nat.add_1_r. cbn [awaitWrite]. rewrite Htime, Hfire.
    rewrite list_lookup_fmap, lookup_app_r by lia. rewrite Nat.sub_diag. reflexivity.
  - rewrite Hfire. reflexivity.
  - rewrite Hs. unfold st0, st1, storeData. rewrite scheduleBatchWrite_reset. reflexivity.
  - exact Hidle.
  - rewrite Hc. change (writeCalls st0) with (writeCalls st1). rewrite Hcalls. reflexivity.
  - rewrite Hk. change (clock st0) with (Z.max (clock st1) (clock st + BATCH_DELAY_MS)).
    rewrite Hclock. unfold BATCH_DELAY_MS. lia.
  - rewrite Hsl. unfold st0, st1, storeData. rewrite scheduleBatchWrite_reset. reflexivity.
Qed.

Lemma sleep_idle delay st :
  idle st ->
  0 <= delay ->
  let st' := sleep delay st in
  setup st' = setup st /\
  idle st' /\
  writeCalls st' = writeCalls st /\
  clock st' = clock st + delay /\
  slept st' = slept st ++ [delay].
Proof.
  intros (Hp & Ht & Hw) Hd. unfold sleep, advanceTo.
  cbn [pendingWrites set_slept]. rewrite Hp. cbn [length runTimers writeTimeout set_slept].
  rewrite Ht. unfold idle. cbn. rewrite Hp, Ht, Hw.
  repeat split; try reflexivity. lia.
Qed.

(** C4: [store] of a registered record while other writes are queued, three
    durable writes in a row failing.  The flush rejects every promise of its
    batch, those of the other writes too, with the error of the write; the
    write is attempted three times, after waits of 1 * 100 ms and 2 * 100 ms;
    [store] then fails with the error of the last attempt. *)
Theorem failed_write_is_retried_then_rejected
    (obj : Entity) (st : State)
    (cfg : RepositoryConfig) (registry : EntityRegistry)
    (registration : EntityRegistration) (c1 c2 c3 : Z) :
  isInitialized st = true ->
  config st = Some cfg ->
  entityRegistry cfg = Some registry ->
  getRegistrationForInstance registry obj = Some registration ->
  (length (pendingWrites st) < MAX_BATCH_SIZE)%nat ->
  isWriting st = false ->
  writeFails env (writeCalls st) = Some c1 ->
  writeFails env (S (writeCalls st)) = Some c2 ->
  writeFails env (S (S (writeCalls st))) = Some c3 ->
  let ck := getCollectionKey registration obj in
  let sk := reg_storageKey registration in
  fst (fireAt (clock st + BATCH_DELAY_MS) (storeData ck sk obj st)) =
    map (fun w => (w, Rejected (WriteFailed c1))) (pendingWrites st ++ [queued ck sk obj]) /\
  exists st',
    store obj st = (Err (WriteFailed c3), st') /\
    writeCalls st' = (writeCalls st + MAX_RETRIES)%nat /\
    slept st' = slept st ++ [RETRY_DELAY_MS * 1; RETRY_DELAY_MS * 2] /\
    clock st' = clock st + 3 * BATCH_DELAY_MS + RETRY_DELAY_MS * 1 + RETRY_DELAY_MS * 2.
Proof.
  intros Hi Hcfg Hreg Hget Hlen Hw H1 H2 H3 ck sk.
  set (op := (registration <- resolveRegistration obj;;
              storeDataAwait (getCollectionKey registration obj)
                (reg_storageKey registration) obj;;;
              modify (clearCacheByPattern
                        (getCacheKey (reg_storageKey registration)
                           (getCollectionKey registration obj) None)))).
  assert (Hattempt : forall s code,
             setup s = setup st ->
             (length (pendingWrites s) < MAX_BATCH_SIZE)%nat ->
             isWriting s = false ->
             writeFails env (writeCalls s) = Some code ->
             exists s', op s = (Err (WriteFailed code), s') /\
                        setup s' = setup st /\ idle s' /\
                        writeCalls s' = S (writeCalls s) /\
                        clock s' = clock s + BATCH_DELAY_MS /\
                        slept s' = slept s).
  { intros s code Hs Hl Hws Hfs.
    assert (Hcs : config s = Some cfg).
    { pose proof (f_equal fst Hs) as Hc. simpl in Hc. rewrite Hc. exact Hcfg. }
    destruct (storeDataAwait_fail ck sk obj s code Hl Hws Hfs)
      as (s' & Hrun & _ & Hs' & Hidle & Hc' & Hk' & Hsl').
    exists s'.
    split; [| split; [rewrite Hs'; exact Hs
                     | split; [exact Hidle
                              | split; [exact Hc' | split; [exact Hk' | exact Hsl']]]]].
    unfold op.
    rewrite (bind_ok _ _ _ _ _ (resolveRegistration_ok _ _ _ _ _ Hcs Hreg Hget)).
    fold ck sk. rewrite (bind_err _ _ _ _ _ Hrun). reflexivity. }
  split.
  - destruct (storeDataAwait_fail ck sk obj st c1 Hlen Hw H1) as (s' & _ & Hfire & _).
    exact Hfire.
  - destruct (Hattempt st c1 eq_refl Hlen Hw H1) as (s1 & Hop1 & Hs1 & Hidle1 & Hc1 & Hk1 & Hsl1).
    destruct (sleep_idle (RETRY_DELAY_MS * Z.of_nat 1) s1 Hidle1 ltac:(unfold RETRY_DELAY_MS; lia))
      as (Hs1' & Hidle1' & Hc1' & Hk1' & Hsl1').
    set (s1' := sleep (RETRY_DELAY_MS * Z.of_nat 1) s1) in *.
    destruct Hidle1' as (Hp1' & Ht1' & Hw1').
    destruct (Hattempt s1' c2) as (s2 & Hop2 & Hs2 & Hidle2 & Hc2 & Hk2 & Hsl2).
    { rewrite Hs1'. exact Hs1. }
    { rewrite Hp1'. unfold MAX_BATCH_SIZE. simpl. lia. }
    { exact Hw1'. }
    { rewrite Hc1', Hc1. exact H2. }
    destruct (sleep_idle (RETRY_DELAY_MS * Z.of_nat 2) s2 Hidle2 ltac:(unfold RETRY_DELAY_MS; lia))
      as (Hs2' & Hidle2' & Hc2' & Hk2' & Hsl2').
    set (s2' := sleep (RETRY_DELAY_MS * Z.of_nat 2) s2) in *.
    destruct Hidle2' as (Hp2' & Ht2' & Hw2').
    destruct (Hattempt s2' c3) as (s3 & Hop3 & Hs3 & Hidle3 & Hc3 & Hk3 & Hsl3).
    { rewrite Hs2'. exact Hs2. }
    { rewrite Hp2'. unfold MAX_BATCH_SIZE. simpl. lia. }
    { exact Hw2'. }
    { rewrite Hc2', Hc2, Hc1', Hc1. exact H3. }
    exists s3. split; [| split; [| split]].
    + unfold store. rewrite Hi. simpl negb. cbv iota. fold op.
      unfold executeWithRetry. unfold MAX_RETRIES. cbn [retryLoop].
      unfold MAX_RETRIES. cbn [Nat.ltb Nat.leb].
      rewrite Hop1. fold s1'. rewrite Hop2. fold s2'. rewrite Hop3. reflexivity.
    + rewrite Hc3, Hc2', Hc2, Hc1', Hc1. unfold MAX_RETRIES. lia.
    + rewrite Hsl3, Hsl2', Hsl2, Hsl1', Hsl1. rewrite <- app_assoc. reflexivity.
    + rewrite Hk3, Hk2', Hk2, Hk1', Hk1. unfold BATCH_DELAY_MS, RETRY_DELAY_MS. lia.
Qed.

(** ** The fuel of the timer loops is enough *)

(** After a timer callback either no timer is pending, or the queue was not
    empty and lost its first 100 writes. *)
Lemma fireAt_queue d st :
  writeTimeout (snd (fireAt d st)) = None \/
  (pendingWrites st <> [] /\
   pendingWrites (snd (fireAt d st)) = drop MAX_BATCH_SIZE (pendingWrites st) /\
   pendingWrites (snd (fireAt d st)) <> []).
Proof.
  unfold fireAt, fireTimer, performBatchWrite, dbWrite, scheduleBatchWrite.
  destruct st as [cf ini dt pw wt iw me ca cs cl fi wc sl].
  cbn [pendingWrites isWriting writeTimeout writeCalls data clock metrics
       set_writeTimeout set_clock set_data set_pendingWrites set_isWriting
       set_metrics set_file set_writeCalls].
  destruct pw as [| w q]; [left; reflexivity |].
  destruct iw; [left; reflexivity |].
  cbn [length Nat.eqb orb].
  destruct (drop MAX_BATCH_SIZE (w :: q)) as [| w' q'] eqn:Hd;
    destruct (writeFails env wc);
    cbn [snd pendingWrites isWriting writeTimeout writeCalls data clock metrics
         set_writeTimeout set_clock set_data set_pendingWrites set_isWriting
         set_metrics set_file set_writeCalls length Nat.ltb Nat.leb negb];
    try (left; reflexivity);
    right; (split; [discriminate |]); (split; [reflexivity | discriminate]).
Qed.

Lemma runTimers_no_due_timer t : forall fuel st,
  (firingsLeft st <= fuel)%nat ->
  match writeTimeout (runTimers fuel t st) with
  | Some d => t < d
  | None => True
  end.
Proof.
  induction fuel as [| fuel IH]; intros st Hfuel; unfold firingsLeft in Hfuel; simpl.
  - destruct (writeTimeout st); [lia | exact I].
  - destruct (writeTimeout st) as [d |] eqn:Ht; [| rewrite Ht; exact I].
    destruct (d <=? t) eqn:Hd; [| rewrite Ht; apply Z.leb_gt, Hd].
    apply IH. unfold firingsLeft.
    destruct (fireAt_queue d st) as [-> | (Hne & Hp & Hne')]; [lia |].
    destruct (writeTimeout (snd (fireAt d st))); [| lia].
    rewrite Hp, length_drop.
    rewrite (batches_step (length (pendingWrites st))) in Hfuel
      by (destruct (pendingWrites st); [congruence | simpl; lia]).
    assert (0 < batches (length (pendingWrites st) - MAX_BATCH_SIZE))%nat.
    { rewrite <- length_drop, <- Hp.
      destruct (pendingWrites (snd (fireAt d st))); [congruence |].
      rewrite batches_step by (simpl; lia). lia. }
    unfold MAX_BATCH_SIZE in *. lia.
Qed.

(** [advanceTo] runs every flush timer due by [t]. *)
Lemma advanceTo_no_due_timer t st :
  match writeTimeout (advanceTo t st) with
  | Some d => t < d
  | None => True
  end.
Proof.
  unfold advanceTo. cbn [writeTimeout set_clock].
  apply runTimers_no_due_timer. unfold firingsLeft.
  pose proof (batches_le (length (pendingWrites st))).
  destruct (writeTimeout st); lia.
Qed.

(** A timer callback on an idle batcher with a non-empty queue settles the
    promises of the first 100 writes, all alike, and leaves a timer pending
    when writes remain. *)
Lemma fireAt_settles d st :
  isWriting st = false -> pendingWrites st <> [] ->
  exists o,
    fst (fireAt d st) = map (fun w => (w, o)) (take MAX_BATCH_SIZE (pendingWrites st)) /\
    isWriting (snd (fireAt d st)) = false /\
    pendingWrites (snd (fireAt d st)) = drop MAX_BATCH_SIZE (pendingWrites st) /\
    (pendingWrites (snd (fireAt d st)) <> [] -> writeTimeout (snd (fireAt d st)) <> None).
Proof.
  unfold fireAt, fireTimer, performBatchWrite, dbWrite, scheduleBatchWrite.
  destruct st as [cf ini dt pw wt iw me ca cs cl fi wc sl].
  cbn [pendingWrites isWriting writeTimeout writeCalls data clock metrics
       set_writeTimeout set_clock set_data set_pendingWrites set_isWriting
       set_metrics set_file set_writeCalls].
  intros -> Hne. destruct pw as [| w q]; [congruence |].
  cbn [length Nat.eqb orb].
  destruct (writeFails env wc) as [code |];
    [exists (Rejected (WriteFailed code)) | exists Resolved];
    destruct (drop MAX_BATCH_SIZE (w :: q)) as [| w' q'] eqn:Hd;
    cbn [fst snd pendingWrites isWriting writeTimeout writeCalls data clock metrics
         set_writeTimeout set_clock set_data set_pendingWrites set_isWriting
         set_metrics set_file set_writeCalls length Nat.ltb Nat.leb negb];
    repeat split; congruence.
Qed.

Lemma awaitWrite_settles : forall fuel pos st,
  isWriting st = false -> writeTimeout st <> None ->
  (pos < length (pendingWrites st))%nat -> (pos < fuel)%nat ->
  fst (awaitWrite fuel pos st) <> Pending.
Proof.
  induction fuel as [| fuel IH]; intros pos st Hw Ht Hpos Hfuel; [lia |].
  simpl. destruct (writeTimeout st) as [d |]; [| congruence].
  assert (Hne : pendingWrites st <> []) by (destruct (pendingWrites st); [simpl in Hpos; lia | discriminate]).
  destruct (fireAt_settles d st Hw Hne) as (o & Hs & Hw' & Hp & Ht').
  destruct (fireAt d st) as [settled st1]. cbn [fst snd] in *. subst settled.
  rewrite list_lookup_fmap.
  destruct (take MAX_BATCH_SIZE (pendingWrites st) !! pos) as [w |] eqn:Hl; cbn [fmap option_fmap option_map].
  - destruct o; discriminate.
  - apply lookup_ge_None in Hl. rewrite length_take in Hl.
    rewrite length_map, length_take.
    assert (Hlen : (length (pendingWrites st1) = length (pendingWrites st) - MAX_BATCH_SIZE)%nat)
      by (rewrite Hp; apply length_drop).
    unfold MAX_BATCH_SIZE in *.
    apply IH; [exact Hw' | | lia | lia].
    apply Ht'. destruct (pendingWrites st1); [simpl in Hlen; lia | discriminate].
Qed.

(** The promise of [storeData] settles whenever no flush is in progress. *)
Lemma storeDataAwait_settles cKey sKey d st :
  isWriting st = false -> fst (storeDataAwait cKey sKey d st) <> Pending.
Proof.
  intros Hw. unfold storeDataAwait.
  apply awaitWrite_settles.
  - unfold storeData, scheduleBatchWrite. cbn. destruct (writeTimeout st); exact Hw.
  - unfold storeData, scheduleBatchWrite. cbn. destruct (writeTimeout st); discriminate.
  - unfold storeData, scheduleBatchWrite. cbn.
    destruct (writeTimeout st); cbn; rewrite length_app; simpl; lia.
  - unfold storeData, scheduleBatchWrite. cbn.
    destruct (writeTimeout st); cbn; rewrite length_app; simpl; lia.
Qed.

(** ** Eviction and capacity *)

Lemma insertSorted_perm {A} (cmp : A -> A -> Z) x l : insertSorted cmp x l ≡ₚ x :: l.
Proof.
  induction l as [| y l IH]; simpl; [reflexivity |].
  destruct (0 <? cmp y x); [reflexivity |].
  rewrite IH. apply perm_swap.
Qed.

Lemma arraySort_perm {A} (cmp : A -> A -> Z) l : arraySort cmp l ≡ₚ l.
Proof.
  unfold arraySort.
  assert (H : forall acc, fold_left (fun acc x => insertSorted cmp x acc) l acc ≡ₚ acc ++ l).
  { induction l as [| x l IH]; intros acc; simpl.
    - rewrite app_nil_r. reflexivity.
    - rewrite IH, insertSorted_perm. simpl. apply Permutation_middle. }
  apply (H []).
Qed.

Lemma insertSorted_older x l :
  StronglySorted olderThan l ->
  StronglySorted olderThan
    (insertSorted (fun a b => lastAccessed (snd a) - lastAccessed (snd b)) x l).
Proof.
  induction l as [| y l IH]; intros Hs; simpl.
  - repeat constructor.
  - apply StronglySorted_inv in Hs as [Hs Hy].
    destruct (0 <? lastAccessed (snd y) - lastAccessed (snd x)) eqn:Hc.
    + apply Z.ltb_lt in Hc. constructor; [constructor; assumption |].
      constructor; [unfold olderThan; lia |].
      eapply List.Forall_impl; [| exact Hy]. unfold olderThan. intros z Hz. lia.
    + apply Z.ltb_ge in Hc. constructor; [apply IH, Hs |].
      rewrite insertSorted_perm. constructor; [unfold olderThan; lia | exact Hy].
Qed.

Lemma byLastAccessed_sorted c : StronglySorted olderThan (byLastAccessed c).
Proof.
  unfold byLastAccessed, arraySort.
  assert (H : forall acc, StronglySorted olderThan acc ->
            StronglySorted olderThan
              (fold_left
                 (fun acc x =>
                    insertSorted (fun a b => lastAccessed (snd a) - lastAccessed (snd b)) x acc)
                 c acc)).
  { induction c as [| x c IH]; intros acc Hacc; simpl; [exact Hacc |].
    apply IH, insertSorted_older, Hacc. }
  apply H. constructor.
Qed.

Lemma In_drop {A} (x : A) k l : In x (drop k l) -> In x l.
Proof.
  revert k. induction l as [| y l IH]; intros [| k] H; simpl in *; auto.
  right. eapply IH, H.
Qed.

(** In a sorted list, what comes first is older than what comes later. *)
Lemma sorted_take_drop k l a b :
  StronglySorted olderThan l -> In a (take k l) -> In b (drop k l) -> olderThan a b.
Proof.
  revert k. induction l as [| x l IH]; intros k Hs Ha Hb.
  - rewrite take_nil in Ha. contradiction.
  - apply StronglySorted_inv in Hs as [Hs Hx]. destruct k as [| k]; simpl in *.
    + contradiction.
    + destruct Ha as [<- | Ha].
      * rewrite List.Forall_forall in Hx. apply Hx.
        apply (In_drop _ k). exact Hb.
      * eapply IH; eauto.
Qed.

Lemma fold_cache_delete victims : forall c,
  fold_left (fun c v => cache_delete (fst v) c) victims c = List.filter (notAmong victims) c.
Proof.
  induction victims as [| v victims IH]; intros c; simpl.
  - unfold notAmong. simpl. induction c as [| p c IHc]; simpl; [reflexivity |].
    rewrite <- IHc. reflexivity.
  - rewrite IH. unfold cache_delete. clear IH.
    induction c as [| p c IHc]; simpl; [reflexivity |].
    unfold notAmong at 2. simpl.
    destruct (String.eqb (fst p) (fst v)) eqn:He; simpl.
    + exact IHc.
    + fold (notAmong victims p). destruct (notAmong victims p); simpl; rewrite IHc; reflexivity.
Qed.

Lemma filter_perm {A} (f : A -> bool) l l' : l ≡ₚ l' -> List.filter f l ≡ₚ List.filter f l'.
Proof.
  induction 1 as [| x l l' _ IH | x y l | l l' l'' _ IH1 _ IH2]; simpl.
  - reflexivity.
  - destruct (f x); [constructor |]; exact IH.
  - destruct (f x), (f y); try reflexivity. apply perm_swap.
  - etransitivity; eauto.
Qed.

(** With distinct keys, filtering out the keys of a prefix leaves the rest. *)
Lemma filter_notAmong_split (pre post : list (string * CacheEntry)) :
  NoDup (map fst (pre ++ post)) ->
  List.filter (notAmong pre) (pre ++ post) = post.
Proof.
  intros Hnd. rewrite List.filter_app.
  assert (H1 : List.filter (notAmong pre) pre = []).
  { assert (H : forall l, (forall p, In p l -> In p pre) -> List.filter (notAmong pre) l = []).
    { induction l as [| p l IH]; intros Hin; simpl; [reflexivity |].
      unfold notAmong at 1.
      replace (existsb (fun v => String.eqb (fst p) (fst v)) pre) with true.
      - simpl. apply IH. intros q Hq. apply Hin. right. exact Hq.
      - symmetry. apply existsb_exists. exists p. split; [apply Hin; left; reflexivity |].
        apply String.eqb_refl. }
    apply H. auto. }
  assert (H2 : List.filter (notAmong pre) post = post).
  { apply forallb_filter_id. apply forallb_forall. intros p Hp.
    unfold notAmong. apply negb_true_iff.
    destruct (existsb _ pre) eqn:He; [| reflexivity]. exfalso.
    apply existsb_exists in He as (v & Hv & Heq). apply String.eqb_eq in Heq.
    rewrite map_app in Hnd. apply NoDup_app in Hnd as (_ & Hdisj & _).
    apply (Hdisj (fst v)).
    - apply list_elem_of_In, in_map, Hv.
    - rewrite <- Heq. apply list_elem_of_In, in_map, Hp. }
  rewrite H1, H2. reflexivity.
Qed.

(** What [evictOldestEntries] leaves: the entries but the fifth (rounded
    down) that were accessed longest ago. *)
Lemma evictOldestEntries_survivors st :
  NoDup (map fst (cache st)) ->
  cache (evictOldestEntries st) ≡ₚ
    drop (length (cache st) / 5) (byLastAccessed (cache st)) /\
  evictions (cacheStats (evictOldestEntries st)) =
    (evictions (cacheStats st) + length (cache st) / 5)%nat /\
  forall v s,
    In v (take (length (cache st) / 5) (byLastAccessed (cache st))) ->
    In s (cache (evictOldestEntries st)) ->
    olderThan v s.
Proof.
  intros Hnd. unfold evictOldestEntries. cbn [cache cacheStats set_cache set_cacheStats].
  pose proof (arraySort_perm
                (fun a b : string * CacheEntry => lastAccessed (snd a) - lastAccessed (snd b))
                (cache st)) as Hperm.
  fold (byLastAccessed (cache st)) in Hperm.
  rewrite (Permutation_length Hperm).
  set (k := (length (cache st) / 5)%nat).
  set (sorted := byLastAccessed (cache st)) in *.
  rewrite fold_cache_delete.
  assert (Hsurv : List.filter (notAmong (take k sorted)) (cache st) ≡ₚ drop k sorted).
  { rewrite (filter_perm _ _ _ (Permutation_sym Hperm)).
    rewrite <- (take_drop k sorted) at 2.
    rewrite filter_notAmong_split; [reflexivity |].
    rewrite take_drop. apply NoDup_ListNoDup.
    eapply Permutation_NoDup; [| apply NoDup_ListNoDup; exact Hnd].
    apply Permutation_map. symmetry. exact Hperm. }
  split; [exact Hsurv |]. split; [reflexivity |].
  intros v s Hv Hs.
  apply (sorted_take_drop k sorted); [apply byLastAccessed_sorted | exact Hv |].
  eapply Permutation_in; [exact Hsurv | exact Hs].
Qed.

Lemma cache_set_keys k e c :
  map fst (cache_set k e c) =
    if existsb (String.eqb k) (map fst c) then map fst c else map fst c ++ [k].
Proof.
  induction c as [| [k' e'] c IH]; simpl; [reflexivity |].
  rewrite (String.eqb_sym k k').
  destruct (String.eqb k' k) eqn:He; simpl.
  - apply String.eqb_eq in He. subst. reflexivity.
  - rewrite IH. destruct (existsb (String.eqb k) (map fst c)); reflexivity.
Qed.

Lemma cache_set_length k e c : (length (cache_set k e c) <= S (length c))%nat.
Proof.
  rewrite <- (length_map fst (cache_set k e c)), <- (length_map fst c), cache_set_keys.
  destruct (existsb _ _); [lia |]. rewrite length_app. simpl. lia.
Qed.

Lemma cache_set_NoDup k e c : NoDup (map fst c) -> NoDup (map fst (cache_set k e c)).
Proof.
  intros Hnd. rewrite cache_set_keys.
  destruct (existsb (String.eqb k) (map fst c)) eqn:He; [exact Hnd |].
  apply NoDup_app. split; [exact Hnd |]. split; [| apply NoDup_singleton].
  intros x Hx Hk. apply list_elem_of_singleton in Hk. subst x.
  assert (existsb (String.eqb k) (map fst c) = true); [| congruence].
  apply existsb_exists. exists k. split; [apply list_elem_of_In, Hx | apply String.eqb_refl].
Qed.

Lemma filter_keys_NoDup (f : string * CacheEntry -> bool) c :
  NoDup (map fst c) -> NoDup (map fst (List.filter f c)).
Proof.
  induction c as [| p c IH]; simpl; intros Hnd; [constructor |].
  apply NoDup_cons in Hnd as [Hp Hnd]. destruct (f p); simpl; [| apply IH, Hnd].
  apply NoDup_cons. split; [| apply IH, Hnd].
  intros Hin. apply Hp. apply list_elem_of_In in Hin. apply list_elem_of_In.
  apply in_map_iff in Hin as (q & Hq & Hin). apply filter_In in Hin as [Hin _].
  apply in_map_iff. exists q. split; assumption.
Qed.

(** From a capacity of 5 on, [setCache] keeps the cache within its capacity:
    the eviction it runs on a full cache removes at least one entry. *)
Lemma setCache_within_capacity key d st cfg :
  config st = Some cfg ->
  5 <= maxCacheSize cfg ->
  NoDup (map fst (cache st)) ->
  Z.of_nat (length (cache st)) <= maxCacheSize cfg ->
  Z.of_nat (length (cache (setCache key d st))) <= maxCacheSize cfg /\
  NoDup (map fst (cache (setCache key d st))).
Proof.
  intros Hcfg Hcap Hnd Hlen. unfold setCache. rewrite Hcfg.
  destruct (negb (enableCaching cfg)); [split; assumption |].
  destruct (maxCacheSize cfg <=? Z.of_nat (length (cache st))) eqn:Hfull.
  - apply Z.leb_le in Hfull.
    destruct (evictOldestEntries_survivors st Hnd) as (Hsurv & _ & _).
    pose proof (Permutation_length Hsurv) as Hl. rewrite length_drop in Hl.
    pose proof (Permutation_length
                  (arraySort_perm
                     (fun a b : string * CacheEntry =>
                        lastAccessed (snd a) - lastAccessed (snd b)) (cache st))) as Hs.
    fold (byLastAccessed (cache st)) in Hs. rewrite Hs in Hl.
    assert (Hpos : (0 < length (cache st) / 5)%nat) by (apply Nat.div_str_pos; lia).
    cbn [cache set_cache]. split.
    + pose proof (cache_set_length key
                    {| ce_data := d;
                       expiresAt := clock (evictOldestEntries st) + cacheTTL cfg;
                       accessCount := 1;
                       lastAccessed := clock (evictOldestEntries st) |}
                    (cache (evictOldestEntries st))) as Hset.
      lia.
    + apply cache_set_NoDup. unfold evictOldestEntries. cbn [cache set_cache set_cacheStats].
      rewrite fold_cache_delete. apply filter_keys_NoDup, Hnd.
  - apply Z.leb_gt in Hfull. cbn [cache set_cache]. split.
    + pose proof (cache_set_length key
                    {| ce_data := d; expiresAt := clock st + cacheTTL cfg;
                       accessCount := 1; lastAccessed := clock st |} (cache st)) as Hset.
      lia.
    + apply cache_set_NoDup, Hnd.
Qed.

(** C9, at the failing input: with [maxCacheSize] 1, the second insert finds
    the cache full, [evictOldestEntries] removes floor(1 * 0.2) = 0 entries,
    and the cache then holds two entries. *)
Theorem cache_exceeds_capacity_one :
  let st0 := configured (Some 1) in
  let st1 := setCache "scores:g1" (CArray [u1]) st0 in
  let st2 := setCache "scores:g2" (CArray [u2]) st1 in
  (maxCacheSize <$> config st0) = Some 1 /\
  length (cache st1) = 1%nat /\
  length (cache st2) = 2%nat /\
  evictions (cacheStats st2) = 0%nat.
Proof. vm_compute. repeat split; reflexivity. Qed.


(** * Further properties of the engine *)

(** ** The registry *)

Lemma registry_set_keys r c reg :
  registry_get r c <> None -> map fst (registry_set r c reg) = map fst r.
Proof.
  induction r as [| [c0 reg0] r IH]; simpl; [congruence |].
  destruct (decide (c0 = c)) as [-> | Hne]; simpl; [reflexivity |].
  intros H. rewrite IH by exact H. reflexivity.
Qed.

(** X1: [register] of a class that has a storage key stores a registration
    made of that key and the extractor given; [getRegistration],
    [getRegistrationForInstance] and [isRegistered] then find it, and the
    registrations of the other classes are as before. *)
Theorem register_then_getRegistration
    (r : EntityRegistry) (c : EntityClass) (f : Entity -> string) :
  storageKey c <> "" ->
  exists r',
    register r c f = Ok r' /\
    getRegistration r' c = Some {| reg_storageKey := storageKey c; getCollectionKey := f |} /\
    (forall e, ent_class e = c ->
               getRegistrationForInstance r' e =
                 Some {| reg_storageKey := storageKey c; getCollectionKey := f |}) /\
    isRegistered r' c = true /\
    (forall c', c' <> c ->
                getRegistration r' c' = getRegistration r c' /\
                isRegistered r' c' = isRegistered r c').
Proof.
  intros Hk. unfold register. apply String.eqb_neq in Hk. rewrite Hk.
  eexists. split; [reflexivity |].
  unfold getRegistration, getRegistrationForInstance, isRegistered.
  split; [| split; [| split]].
  - rewrite registry_get_set. destruct (decide (c = c)); [reflexivity | congruence].
  - intros e He. rewrite He, registry_get_set.
    destruct (decide (c = c)); [reflexivity | congruence].
  - rewrite registry_get_set. destruct (decide (c = c)); [| congruence].
    apply bool_decide_eq_true. discriminate.
  - intros c' Hne. rewrite registry_get_set.
    destruct (decide (c = c')); [congruence |]. split; reflexivity.
Qed.

(** X2: registering a class again does not fail and adds no entry: the
    registry keeps its classes in their order, and the extractor given last is
    the one in force; after [clear] no class is registered. *)
Theorem register_again_replaces
    (r : EntityRegistry) (c : EntityClass) (f g : Entity -> string) :
  storageKey c <> "" ->
  exists r1 r2,
    register r c f = Ok r1 /\
    register r1 c g = Ok r2 /\
    getRegistration r2 c = Some {| reg_storageKey := storageKey c; getCollectionKey := g |} /\
    map fst r2 = map fst r1 /\
    (forall c', isRegistered (clear r2) c' = false).
Proof.
  intros Hk. unfold register. apply String.eqb_neq in Hk. rewrite Hk.
  eexists. eexists. split; [reflexivity |]. split; [reflexivity |].
  unfold getRegistration. split; [| split].
  - rewrite registry_get_set. destruct (decide (c = c)); [reflexivity | congruence].
  - apply registry_set_keys. rewrite registry_get_set.
    destruct (decide (c = c)); [discriminate | congruence].
  - intros c'. reflexivity.
Qed.

(** ** The earlier [deleteById] *)

Lemma findIndex_first_match {A} (p : A -> bool) pre x post :
  existsb p pre = false -> p x = true ->
  findIndex p (pre ++ x :: post) = Some (length pre).
Proof.
  induction pre as [| y pre IH]; simpl; intros Hpre Hx.
  - rewrite Hx. reflexivity.
  - apply orb_false_iff in Hpre as [Hy Hpre]. rewrite Hy.
    rewrite IH by assumption. reflexivity.
Qed.

Lemma filterByIndex_skip {A} (pre : list A) x post : forall i,
  filterByIndex (fun index => negb (Nat.eqb index (i + length pre))) i (pre ++ x :: post) =
    pre ++ post.
Proof.
  induction pre as [| y pre IH]; intros i; simpl.
  - rewrite Nat.add_0_r, Nat.eqb_refl. simpl.
    assert (H : forall (l : list A) j, (i < j)%nat ->
              filterByIndex (fun index => negb (Nat.eqb index i)) j l = l).
    { induction l as [| z l IHl]; intros j Hj; simpl; [reflexivity |].
      destruct (Nat.eqb_spec j i); [lia |]. simpl. rewrite IHl by lia. reflexivity. }
    apply H. lia.
  - destruct (Nat.eqb_spec i (i + S (length pre))); [lia |]. simpl.
    replace (i + S (length pre))%nat with (S i + length pre)%nat by lia.
    rewrite IH. reflexivity.
Qed.

(** X3: the [deleteById] of the earlier copy of the module hands to
    [replaceAll] the list without the first record that has the id; the
    records after it stay, those with the same id too. *)
Theorem legacy_deleteById_removes_the_first_match_only
    (objectId : string) (pre post : list Entity) (x : Entity) :
  existsb (hasId (Some objectId)) pre = false ->
  hasId (Some objectId) x = true ->
  legacy_updatedItems objectId (pre ++ x :: post) = Some (pre ++ post).
Proof.
  intros Hpre Hx. unfold legacy_updatedItems.
  rewrite (findIndex_first_match _ pre x post Hpre Hx).
  pose proof (filterByIndex_skip pre x post 0) as H. simpl in H. rewrite H. reflexivity.
Qed.

(** ** Ages *)





(** ** Entries of the cache *)

Lemma cache_get_set_eq k e c : cache_get k (cache_set k e c) = Some e.
Proof.
  induction c as [| [k' e'] c IH]; simpl.
  - rewrite String.eqb_refl. reflexivity.
  - destruct (String.eqb k' k) eqn:He; simpl.
    + rewrite String.eqb_refl. reflexivity.
    + rewrite He. exact IH.
Qed.

Lemma cache_get_delete_eq k c : cache_get k (cache_delete k c) = None.
Proof.
  unfold cache_delete. induction c as [| [k' e'] c IH]; simpl; [reflexivity |].
  destruct (String.eqb k' k) eqn:He; simpl; [exact IH |].
  rewrite He. exact IH.
Qed.

Lemma evictOldestEntries_fields st :
  config (evictOldestEntries st) = config st /\ clock (evictOldestEntries st) = clock st.
Proof. split; reflexivity. Qed.

(** What [setCache] stores when caching is enabled. *)
Lemma setCache_entry key d st cfg :
  config st = Some cfg -> enableCaching cfg = true ->
  cache_get key (cache (setCache key d st)) =
    Some {| ce_data := d; expiresAt := clock st + cacheTTL cfg;
            accessCount := 1; lastAccessed := clock st |} /\
  config (setCache key d st) = Some cfg /\
  clock (setCache key d st) = clock st /\
  data (setCache key d st) = data st /\
  hits (cacheStats (setCache key d st)) = hits (cacheStats st) /\
  misses (cacheStats (setCache key d st)) = misses (cacheStats st).
Proof.
  intros Hcfg Hen. unfold setCache. rewrite Hcfg, Hen. simpl negb. cbv iota.
  destruct (maxCacheSize cfg <=? Z.of_nat (length (cache st)));
    cbn [cache set_cache config clock data cacheStats evictOldestEntries set_cacheStats
         addEvictions hits misses];
    rewrite cache_get_set_eq; repeat split; assumption.
Qed.

(** X5: an entry written by [setCache] is served by [getFromCache] up to and
    including the instant its time to live ends, each time as a hit; read
    later, it is deleted and the read counts as a miss. *)
Theorem cache_entry_lives_for_its_ttl
    (key : string) (d : CacheData) (st : State) (cfg : RepositoryConfig) (t : Z) :
  config st = Some cfg ->
  enableCaching cfg = true ->
  let st1 := set_clock t (setCache key d st) in
  let r := getFromCache key st1 in
  (t <= clock st + cacheTTL cfg ->
     fst r = Some d /\
     hits (cacheStats (snd r)) = S (hits (cacheStats st)) /\
     misses (cacheStats (snd r)) = misses (cacheStats st) /\
     (lastAccessed <$> cache_get key (cache (snd r))) = Some t) /\
  (clock st + cacheTTL cfg < t ->
     fst r = None /\
     hits (cacheStats (snd r)) = hits (cacheStats st) /\
     misses (cacheStats (snd r)) = S (misses (cacheStats st)) /\
     cache_get key (cache (snd r)) = None).
Proof.
  intros Hcfg Hen st1 r.
  destruct (setCache_entry key d st cfg Hcfg Hen) as (Hget & Hc & Hk & _ & Hh & Hm).
  subst r st1. unfold getFromCache, cachingEnabled.
  cbn [config set_clock cache clock cacheStats].
  rewrite Hc, Hen, Hget. simpl negb. cbv iota. cbn [expiresAt ce_data].
  split; intros Ht.
  - assert (H : (clock st + cacheTTL cfg <? t) = false) by (apply Z.ltb_ge; lia).
    rewrite H.
    cbn [fst snd cacheStats set_cacheStats cache set_cache bumpHits hits misses set_clock].
    rewrite cache_get_set_eq. cbn. rewrite Hh, Hm. repeat split; reflexivity.
  - assert (H : (clock st + cacheTTL cfg <? t) = true) by (apply Z.ltb_lt; lia).
    rewrite H.
    cbn [fst snd cacheStats set_cacheStats cache set_cache bumpMisses hits misses set_clock].
    rewrite cache_get_delete_eq, Hh, Hm. repeat split; reflexivity.
Qed.

(** A read of an entry that has not expired. *)
Lemma getFromCache_live key st cfg e :
  config st = Some cfg -> enableCaching cfg = true ->
  cache_get key (cache st) = Some e ->
  clock st <= expiresAt e ->
  getFromCache key st =
    (Some (ce_data e),
     set_cacheStats (bumpHits (cacheStats st))
       (set_cache (cache_set key (touch (clock st) e) (cache st)) st)).
Proof.
  intros Hcfg Hen Hget Ht. unfold getFromCache, cachingEnabled. rewrite Hcfg, Hen, Hget.
  simpl negb. cbv iota.
  assert (H : (expiresAt e <? clock st) = false) by (apply Z.ltb_ge; lia).
  rewrite H. reflexivity.
Qed.

(** A first attempt of [getAll] that succeeds is its result. *)
Lemma getAll_of_attempt cls ck st l shared st1 :
  isInitialized st = true ->
  getAllOnce cls ck st = (Ok (l, shared), st1) ->
  getAllShared cls ck st = (Ok (l, shared), st1) /\ getAll cls ck st = (Ok l, st1).
Proof.
  intros Hi Hop.
  assert (H : getAllShared cls ck st = (Ok (l, shared), st1)).
  { unfold getAllShared. rewrite Hi. simpl negb. cbv iota. apply executeWithRetry_ok, Hop. }
  split; [exact H |]. unfold getAll. rewrite (bind_ok _ _ _ _ _ H). reflexivity.
Qed.

(** X6: with [enableCaching] false the cache is out of the way: [getAll]
    returns the stored list (empty when there is none) and leaves the state
    as it was, [setCache] stores nothing and [getFromCache] finds nothing and
    counts nothing. *)
Theorem getAll_without_caching_reads_the_store
    (cls : EntityClass) (ck : string) (st : State) (cfg : RepositoryConfig) :
  isInitialized st = true ->
  config st = Some cfg ->
  enableCaching cfg = false ->
  storageKey cls <> "" ->
  getAll cls ck st = (Ok (storedList st cls ck), st) /\
  (forall key d, setCache key d st = st) /\
  (forall key, getFromCache key st = (None, st)).
Proof.
  intros Hi Hcfg Hen Hk.
  assert (Hget : forall key, getFromCache key st = (None, st)).
  { intros key. unfold getFromCache, cachingEnabled. rewrite Hcfg, Hen. reflexivity. }
  assert (Hset : forall key d, setCache key d st = st).
  { intros key d. unfold setCache. rewrite Hcfg, Hen. reflexivity. }
  split; [| split; assumption].
  assert (Hop : exists shared,
             getAllOnce cls ck st = (Ok (storedList st cls ck, shared), st)).
  { unfold getAllOnce. apply String.eqb_neq in Hk. rewrite Hk, Hget.
    unfold storedList. destruct (readList (data st) ck (storageKey cls)) as [l |]; simpl.
    - rewrite Hset. eexists. reflexivity.
    - eexists. reflexivity. }
  destruct Hop as (shared & Hop).
  apply (getAll_of_attempt cls ck st _ shared st Hi Hop).
Qed.

(** X7: a list that [getAll] read from the store is cached: until its time to
    live has passed, [getAll] answers with that list from the cache, as a
    hit, whatever the document store holds by then. *)
Theorem getAll_answers_from_the_cache_within_ttl
    (cls : EntityClass) (ck : string) (st : State) (cfg : RepositoryConfig)
    (l : list Entity) (t : Z) (d' : Tree) :
  isInitialized st = true ->
  config st = Some cfg ->
  enableCaching cfg = true ->
  storageKey cls <> "" ->
  cache_get (getCacheKey (storageKey cls) ck None) (cache st) = None ->
  readList (data st) ck (storageKey cls) = Some l ->
  t <= clock st + cacheTTL cfg ->
  exists st1 st2,
    getAll cls ck st = (Ok l, st1) /\
    misses (cacheStats st1) = S (misses (cacheStats st)) /\
    getAll cls ck (set_data d' (set_clock t st1)) = (Ok l, st2) /\
    hits (cacheStats st2) = S (hits (cacheStats st1)) /\
    misses (cacheStats st2) = misses (cacheStats st1) /\
    data st2 = d'.
Proof.
  intros Hi Hcfg Hen Hk Hmiss Hread Ht.
  set (key := getCacheKey (storageKey cls) ck None) in *.
  set (sm := set_cacheStats (bumpMisses (cacheStats st)) st).
  assert (Hcm : config sm = Some cfg) by exact Hcfg.
  destruct (setCache_entry key (CArray l) sm cfg Hcm Hen) as (Hget & Hc1 & Hk1 & Hd1 & Hh1 & Hm1).
  set (st1 := setCache key (CArray l) sm) in *.
  assert (Hop1 : getAllOnce cls ck st = (Ok (l, true), st1)).
  { unfold getAllOnce. apply String.eqb_neq in Hk. rewrite Hk. fold key.
    rewrite (getFromCache_miss key st Hmiss).
    unfold cachingEnabled. rewrite Hcfg, Hen. fold sm.
    change (data sm) with (data st). rewrite Hread.
    unfold cachingEnabled. rewrite Hcm, Hen. reflexivity. }
  set (s2 := set_data d' (set_clock t st1)).
  assert (Hi1 : isInitialized s2 = true).
  { rewrite <- Hi. apply setup_isInitialized. unfold s2, st1.
    change (setup (setCache key (CArray l) sm) = setup sm). apply setCache_setup. }
  assert (Hop2 : getAllOnce cls ck s2 =
                   (Ok (l, true),
                    set_cacheStats (bumpHits (cacheStats s2))
                      (set_cache
                         (cache_set key
                            (touch (clock s2)
                               {| ce_data := CArray l; expiresAt := clock sm + cacheTTL cfg;
                                  accessCount := 1; lastAccessed := clock sm |})
                            (cache s2)) s2))).
  { unfold getAllOnce. apply String.eqb_neq in Hk. rewrite Hk. fold key.
    rewrite (getFromCache_live key s2 cfg _ Hc1 Hen Hget); [reflexivity |].
    simpl. exact Ht. }
  eexists. eexists. split; [| split; [| split; [| split; [| split]]]].
  - apply (getAll_of_attempt cls ck st l true st1 Hi Hop1).
  - rewrite Hm1. reflexivity.
  - apply (getAll_of_attempt cls ck s2 l true _ Hi1 Hop2).
  - reflexivity.
  - reflexivity.
  - reflexivity.
Qed.

(** X8: [getAll] of a collection the store does not hold returns the empty
    list and caches nothing: the cache is as before and, with caching enabled,
    the call has counted one miss. *)
Theorem getAll_of_a_missing_collection_caches_nothing
    (cls : EntityClass) (ck : string) (st : State) :
  isInitialized st = true ->
  storageKey cls <> "" ->
  cache_get (getCacheKey (storageKey cls) ck None) (cache st) = None ->
  readList (data st) ck (storageKey cls) = None ->
  getAll cls ck st =
    (Ok [], if cachingEnabled st then set_cacheStats (bumpMisses (cacheStats st)) st else st).
Proof.
  intros Hi Hk Hmiss Hread.
  assert (Hop : getAllOnce cls ck st =
                  (Ok ([], false),
                   if cachingEnabled st
                   then set_cacheStats (bumpMisses (cacheStats st)) st else st)).
  { unfold getAllOnce. apply String.eqb_neq in Hk. rewrite Hk.
    rewrite (getFromCache_miss _ st Hmiss).
    destruct (cachingEnabled st); cbn [data set_cacheStats]; rewrite Hread; reflexivity. }
  apply (getAll_of_attempt cls ck st [] false _ Hi Hop).
Qed.

(** ** The batcher leaves the cache alone *)

Lemma performBatchWrite_cacheView st : cacheView (snd (performBatchWrite st)) = cacheView st.
Proof.
  unfold performBatchWrite, dbWrite, scheduleBatchWrite.
  repeat case_match; simplify_eq; reflexivity.
Qed.

Lemma fireAt_cacheView d st : cacheView (snd (fireAt d st)) = cacheView st.
Proof. unfold fireAt, fireTimer. rewrite performBatchWrite_cacheView. reflexivity. Qed.

Lemma runTimers_cacheView fuel t st : cacheView (runTimers fuel t st) = cacheView st.
Proof.
  revert st. induction fuel as [| fuel IH]; intros st; simpl; [reflexivity |].
  destruct (writeTimeout st) as [d |]; [| reflexivity].
  destruct (d <=? t); [| reflexivity].
  rewrite IH. apply fireAt_cacheView.
Qed.

Lemma sleep_cacheView delay st : cacheView (sleep delay st) = cacheView st.
Proof.
  unfold sleep, advanceTo.
  change (cacheView (runTimers (S (length (pendingWrites st))) (clock st + delay)
                       (set_slept (slept st ++ [delay]) st)) = cacheView st).
  rewrite runTimers_cacheView. reflexivity.
Qed.






(** ** Invalidation reaches further than the collection *)

Lemma prefix_app_l a b c : String.prefix (a +:+ b) (a +:+ c) = String.prefix b c.
Proof.
  induction a as [| x a IH]; [reflexivity |].
  change (String x a +:+ b) with (String x (a +:+ b)).
  change (String x a +:+ c) with (String x (a +:+ c)).
  simpl. destruct (ascii_dec x x); [exact IH | congruence].
Qed.

Lemma prefix_app_r p s t : String.prefix p s = true -> String.prefix p (s +:+ t) = true.
Proof.
  revert s. induction p as [| x p IH]; intros s H; [destruct (s +:+ t); reflexivity |].
  destruct s as [| y s]; [discriminate |].
  change (String y s +:+ t) with (String y (s +:+ t)).
  simpl in *. destruct (ascii_dec x y); [apply IH, H | discriminate].
Qed.

Lemma getCacheKey_prefix_longer sk ck ck' suffix :
  String.prefix ck ck' = true ->
  String.prefix (getCacheKey sk ck None) (getCacheKey sk ck' suffix) = true.
Proof.
  intros H.
  assert (Hn : String.prefix (getCacheKey sk ck None) (getCacheKey sk ck' None) = true).
  { unfold getCacheKey. rewrite !prefix_app_l. exact H. }
  unfold getCacheKey in *. destruct suffix as [s |]; [| exact Hn].
  destruct (String.eqb s ""); [exact Hn |].
  replace (sk +:+ ":" +:+ ck' +:+ ":" +:+ s) with ((sk +:+ ":" +:+ ck') +:+ (":" +:+ s))
    by (rewrite !string_append_assoc; reflexivity).
  apply prefix_app_r, Hn.
Qed.

(** X10: the entries are cleared by prefix of their key, so [replaceAll] on
    a collection key also drops what is cached, lists and single entities,
    for every collection key of the same class that starts with it. *)
Theorem replaceAll_clears_longer_collection_keys
    (cls : EntityClass) (ck ck' : string) (objects : list Entity) (st st' : State)
    (suffix : option string) :
  isInitialized st = true ->
  replaceAll cls ck objects st = (Ok tt, st') ->
  String.prefix ck ck' = true ->
  cache_get (getCacheKey (storageKey cls) ck' suffix) (cache st') = None.
Proof.
  intros Hi Hrun Hp.
  pose proof (replaceAll_invalidates cls ck objects st st' Hi Hrun) as Hinv.
  destruct (cache_get _ _) as [e |] eqn:H; [| reflexivity].
  apply cache_get_In, Hinv in H.
  rewrite (getCacheKey_prefix_longer _ _ _ _ Hp) in H. discriminate.
Qed.

(** ** Capacity *)

Lemma cache_set_present k e e0 c :
  cache_get k c = Some e0 -> map fst (cache_set k e c) = map fst c.
Proof.
  induction c as [| [k' e'] c IH]; simpl; [discriminate |].
  destruct (String.eqb k' k) eqn:He; simpl.
  - intros _. apply String.eqb_eq in He. subst. reflexivity.
  - intros H. rewrite IH by exact H. reflexivity.
Qed.

Lemma filter_keys_length (f : string * CacheEntry -> bool) c :
  (length (List.filter f c) <= length c)%nat.
Proof. apply filter_length_le. Qed.

(** The cache has distinct keys and is within the capacity. *)
Lemma runCacheOp_capacity st cfg op :
  5 <= maxCacheSize cfg ->
  config st = Some cfg /\ NoDup (map fst (cache st)) /\
    Z.of_nat (length (cache st)) <= maxCacheSize cfg ->
  config (runCacheOp st op) = Some cfg /\ NoDup (map fst (cache (runCacheOp st op))) /\
    Z.of_nat (length (cache (runCacheOp st op))) <= maxCacheSize cfg.
Proof.
  intros Hcap (Hcfg & Hnd & Hlen). destruct op as [key | key d | pattern | t]; simpl.
  - unfold getFromCache. destruct (negb (cachingEnabled st)); [auto |].
    destruct (cache_get key (cache st)) as [e |] eqn:Hget; [| auto].
    destruct (expiresAt e <? clock st); cbn [snd config cache set_cache set_cacheStats].
    + split; [exact Hcfg |]. split; [apply filter_keys_NoDup, Hnd |].
      pose proof (filter_keys_length (fun p => negb (String.eqb (fst p) key)) (cache st)).
      unfold cache_delete. lia.
    + split; [exact Hcfg |].
      pose proof (cache_set_present key (touch (clock st) e) e (cache st) Hget) as Hkeys.
      split; [rewrite Hkeys; exact Hnd |].
      rewrite <- (length_map fst), Hkeys, length_map. exact Hlen.
  - pose proof (setCache_setup key d st) as Hs. unfold setup in Hs.
    destruct (setCache_within_capacity key d st cfg Hcfg Hcap Hnd Hlen) as [Hl' Hn'].
    split; [| split; assumption].
    pose proof (f_equal fst Hs) as Hc. simpl in Hc. rewrite Hc. exact Hcfg.
  - unfold clearCacheByPattern. cbn [config cache set_cache].
    split; [exact Hcfg |]. split; [apply filter_keys_NoDup, Hnd |].
    pose proof (filter_keys_length (fun p => negb (String.prefix pattern (fst p))) (cache st)).
    lia.
  - auto.
Qed.

(** X11: with a capacity of 5 or more, a cache that starts empty never
    holds more entries than its capacity, whatever reads, writes and
    invalidations are made and whatever time passes in between. *)
Theorem cache_stays_within_capacity
    (ops : list CacheOp) (st : State) (cfg : RepositoryConfig) :
  config st = Some cfg ->
  5 <= maxCacheSize cfg ->
  cache st = [] ->
  Z.of_nat (length (cache (fold_left runCacheOp ops st))) <= maxCacheSize cfg /\
  NoDup (map fst (cache (fold_left runCacheOp ops st))).
Proof.
  intros Hcfg Hcap Hempty.
  assert (H : config (fold_left runCacheOp ops st) = Some cfg /\
              NoDup (map fst (cache (fold_left runCacheOp ops st))) /\
              Z.of_nat (length (cache (fold_left runCacheOp ops st))) <= maxCacheSize cfg).
  { assert (Hst : config st = Some cfg /\ NoDup (map fst (cache st)) /\
                  Z.of_nat (length (cache st)) <= maxCacheSize cfg).
    { rewrite Hempty. simpl. split; [exact Hcfg |]. split; [constructor | lia]. }
    clear Hcfg Hempty. revert st Hst.
    induction ops as [| op ops IH]; intros st Hst; simpl; [exact Hst |].
    apply IH, runCacheOp_capacity; assumption. }
  destruct H as (_ & Hnd & Hlen). split; assumption.
Qed.

(** X12: [evictOldestEntries] removes a fifth of the entries, rounded down,
    and counts them as evictions; those removed were accessed no later than
    any entry that stays, and the entries that stay are unchanged. *)
Theorem eviction_removes_the_least_recently_accessed_fifth (st : State) :
  NoDup (map fst (cache st)) ->
  let st' := evictOldestEntries st in
  length (cache st') = (length (cache st) - length (cache st) / 5)%nat /\
  evictions (cacheStats st') = (evictions (cacheStats st) + length (cache st) / 5)%nat /\
  (forall s, In s (cache st') -> In s (cache st)) /\
  (forall v s, In v (cache st) -> ~ In v (cache st') -> In s (cache st') -> olderThan v s).
Proof.
  intros Hnd st'.
  destruct (evictOldestEntries_survivors st Hnd) as (Hsurv & Hev & Hold).
  fold st' in Hsurv, Hev, Hold.
  pose proof (arraySort_perm
                (fun a b : string * CacheEntry => lastAccessed (snd a) - lastAccessed (snd b))
                (cache st)) as Hperm.
  fold (byLastAccessed (cache st)) in Hperm.
  split; [| split; [exact Hev | split]].
  - rewrite (Permutation_length Hsurv), length_drop, (Permutation_length Hperm). reflexivity.
  - intros s Hs. eapply Permutation_in; [exact Hperm |].
    eapply In_drop, Permutation_in; [exact Hsurv | exact Hs].
  - intros v s Hv Hnv Hs. apply Hold; [| exact Hs].
    assert (Hin : In v (byLastAccessed (cache st)))
      by (eapply Permutation_in; [symmetry; exact Hperm | exact Hv]).
    rewrite <- (take_drop (length (cache st) / 5) (byLastAccessed (cache st))) in Hin.
    apply in_app_or in Hin as [Hin | Hin]; [exact Hin |].
    exfalso. apply Hnv. eapply Permutation_in; [symmetry; exact Hsurv | exact Hin].
Qed.

(** ** Reading *)


Lemma slice_length {A} (l : list A) offset limit :
  0 <= offset -> 0 <= limit ->
  length (slice offset (offset + limit) l) =
    (Nat.min (Z.to_nat (offset + limit)) (length l) - Nat.min (Z.to_nat offset) (length l))%nat.
Proof.
  intros Ho Hl. unfold slice, sliceIndex.
  destruct (Z.ltb_spec offset 0); [lia |].
  destruct (Z.ltb_spec (offset + limit) 0); [lia |].
  rewrite length_take, length_drop. lia.
Qed.

Lemma sliceFrom_length {A} (l : list A) offset :
  0 <= offset ->
  length (sliceFrom offset l) = (length l - Nat.min (Z.to_nat offset) (length l))%nat.
Proof.
  intros Ho. unfold sliceFrom, sliceIndex.
  destruct (Z.ltb_spec offset 0); [lia |]. rewrite length_drop. reflexivity.
Qed.

(** X14: without a filter, and for an offset and a limit that are not
    negative, [hasMore] tells whether entities remain after the page. *)
Theorem query_hasMore_tells_whether_entities_remain
    (cls : EntityClass) (ck : string) (options : QueryOptions) (st st' : State)
    (r : QueryResult) :
  q_filter options = None ->
  0 <= default 0 (q_offset options) ->
  (forall limit, q_limit options = Some limit -> 0 <= limit) ->
  query cls ck options st = (Ok r, st') ->
  (hasMore r = true <->
   default 0 (q_offset options) + Z.of_nat (length (entities r)) < Z.of_nat (totalCount r)).
Proof.
  intros Hf Ho Hl. unfold query, bind, gets, ret, writeShared. rewrite Hf.
  destruct (getAllShared cls ck st) as [[[all shared] | e |] st1]; [| discriminate | discriminate].
  set (sorted := match q_sort options with Some cmp => arraySort cmp all | None => all end).
  assert (Hlen : length sorted = length all).
  { unfold sorted. destruct (q_sort options); [| reflexivity].
    apply Permutation_length, arraySort_perm. }
  set (offset := default 0 (q_offset options)) in *.
  destruct (shared && bool_decide (None = None) && bool_decide (q_sort options <> None));
    intros H; inversion H; subst; clear H; cbn [hasMore entities totalCount];
    (destruct (q_limit options) as [limit |] eqn:Hlim;
     [ specialize (Hl limit eq_refl); rewrite slice_length by assumption; rewrite Hlen;
       rewrite Z.ltb_lt; lia
     | split; [discriminate |];
       destruct (0 <? offset);
       [ rewrite sliceFrom_length by assumption; rewrite Hlen; lia | rewrite Hlen; lia ] ]).
Qed.


(** X15: when [getAll] returns a list, [findByField] returns the entities of
    that list whose field has the value, in their order, and leaves the state
    [getAll] leaves. *)
Theorem findByField_filters_getAll {V} `{EqDecision V}
    (cls : EntityClass) (ck : string) (fieldName : Entity -> V) (fieldValue : V)
    (st st1 : State) (allEntities : list Entity) :
  getAll cls ck st = (Ok allEntities, st1) ->
  findByField cls ck fieldName fieldValue st =
    (Ok (List.filter (fun entity => bool_decide (fieldName entity = fieldValue)) allEntities),
     st1).
Proof.
  unfold findByField, query, getAll, bind, gets, ret, writeShared.
  cbn [q_filter q_sort q_limit q_offset].
  destruct (getAllShared cls ck st) as [[[all shared] | e |] s1]; try discriminate.
  intros Hget. inversion Hget; subst. rewrite andb_false_r. reflexivity.
Qed.


(** X17: read from the same state, the active and the expired temporary
    entities split the collection: every entity of [getAll] is in exactly one
    of the two lists, each in the order of the collection. *)
Theorem active_and_expired_split_the_collection
    (isExpired : Entity -> bool) (cls : EntityClass) (ck : string) (st st1 : State)
    (allEntities : list Entity) :
  getAll cls ck st = (Ok allEntities, st1) ->
  getActiveTemporary isExpired cls ck st =
    (Ok (List.filter (fun entity => negb (isExpired entity)) allEntities), st1) /\
  getExpiredTemporary isExpired cls ck st = (Ok (List.filter isExpired allEntities), st1) /\
  (length (List.filter (fun entity => negb (isExpired entity)) allEntities) +
   length (List.filter isExpired allEntities) = length allEntities)%nat.
Proof.
  unfold getActiveTemporary, getExpiredTemporary, query, getAll, bind, gets, ret, writeShared.
  cbn [q_filter q_sort q_limit q_offset].
  destruct (getAllShared cls ck st) as [[[all' shared] | e |] s1]; [| discriminate | discriminate].
  intros H. inversion H; subst; clear H. destruct shared; cbn.
  all: split; [reflexivity |]; split; [reflexivity |].
  all: pose proof (filter_length_split isExpired allEntities);
    pose proof (filter_length_le isExpired allEntities); lia.
Qed.

(** ** Reads do not write *)

Lemma getFromCache_storeView key st : storeView (snd (getFromCache key st)) = storeView st.
Proof.
  unfold getFromCache. destruct (negb (cachingEnabled st)); [reflexivity |].
  destruct (cache_get key (cache st)) as [e |]; [| reflexivity].
  destruct (expiresAt e <? clock st); reflexivity.
Qed.

Lemma setCache_storeView key d st : storeView (setCache key d st) = storeView st.
Proof.
  unfold setCache. destruct (config st) as [cfg |]; [| reflexivity].
  destruct (negb (enableCaching cfg)); [reflexivity |].
  destruct (maxCacheSize cfg <=? Z.of_nat (length (cache st))); reflexivity.
Qed.

Lemma getAllOnce_storeView cls ck st : storeView (snd (getAllOnce cls ck st)) = storeView st.
Proof.
  unfold getAllOnce. destruct (String.eqb (storageKey cls) ""); [reflexivity |].
  pose proof (getFromCache_storeView (getCacheKey (storageKey cls) ck None) st) as H.
  destruct (getFromCache (getCacheKey (storageKey cls) ck None) st) as [cached st1].
  simpl in H.
  destruct cached as [[l | [e |]] |]; simpl; try assumption;
    destruct (readList (data st1) ck (storageKey cls)); simpl;
    rewrite ?setCache_storeView; assumption.
Qed.

(** With no flush timer pending, waiting lets nothing happen. *)
Lemma sleep_storeView delay st :
  writeTimeout st = None -> storeView (sleep delay st) = storeView st.
Proof.
  intros Ht. unfold sleep, advanceTo. cbn [pendingWrites set_slept runTimers writeTimeout].
  rewrite Ht. reflexivity.
Qed.

(** The loop of [executeWithRetry] under an invariant of the attempts and of
    the waits, however it ends. *)
Lemma retryLoop_invariant {A} (I : State -> Prop) (operation : M A) :
  (forall s, I s -> I (snd (operation s))) ->
  (forall d s, I s -> I (sleep d s)) ->
  forall fuel attempt last st,
    I st -> I (snd (retryLoop fuel attempt last operation st)).
Proof.
  intros Hop Hsleep fuel. induction fuel as [| fuel IH]; intros attempt last st HI.
  - simpl. destruct last; exact HI.
  - simpl. specialize (Hop st HI).
    destruct (operation st) as [[a | e |] st1]; simpl in *; try assumption.
    apply IH. destruct (Nat.ltb attempt MAX_RETRIES); [apply Hsleep |]; assumption.
Qed.





(** ** Bulk operations *)

Lemma performBatchWrite_isWriting st :
  isWriting st = false -> isWriting (snd (performBatchWrite st)) = false.
Proof.
  intros Hw. unfold performBatchWrite, dbWrite, scheduleBatchWrite.
  repeat case_match; simplify_eq; cbn; try reflexivity; exact Hw.
Qed.

Lemma fireAt_isWriting d st :
  isWriting st = false -> isWriting (snd (fireAt d st)) = false.
Proof. intros Hw. unfold fireAt, fireTimer. apply performBatchWrite_isWriting. exact Hw. Qed.

Lemma runTimers_isWriting fuel t : forall st,
  isWriting st = false -> isWriting (runTimers fuel t st) = false.
Proof.
  induction fuel as [| fuel IH]; intros st Hw; simpl; [exact Hw |].
  destruct (writeTimeout st) as [d |]; [| exact Hw].
  destruct (d <=? t); [| exact Hw].
  apply IH, fireAt_isWriting, Hw.
Qed.

Lemma sleep_isWriting delay st : isWriting st = false -> isWriting (sleep delay st) = false.
Proof.
  intros Hw. unfold sleep, advanceTo.
  change (isWriting (runTimers (S (length (pendingWrites st))) (clock st + delay)
                       (set_slept (slept st ++ [delay]) st)) = false).
  apply runTimers_isWriting. exact Hw.
Qed.

Lemma awaitWrite_isWriting fuel : forall pos st,
  isWriting st = false -> isWriting (snd (awaitWrite fuel pos st)) = false.
Proof.
  induction fuel as [| fuel IH]; intros pos st Hw; simpl; [exact Hw |].
  destruct (writeTimeout st) as [d |]; [| exact Hw].
  pose proof (fireAt_isWriting d st Hw) as Hf.
  destruct (fireAt d st) as [settled s1]. simpl in Hf.
  destruct (settled !! pos) as [[w [| e]] |]; simpl; try assumption.
  apply IH, Hf.
Qed.

Lemma storeDataAwait_isWriting ck sk d st :
  isWriting st = false -> isWriting (snd (storeDataAwait ck sk d st)) = false.
Proof.
  intros Hw. unfold storeDataAwait. apply awaitWrite_isWriting.
  unfold storeData, scheduleBatchWrite. cbn [writeTimeout set_pendingWrites].
  destruct (writeTimeout st); exact Hw.
Qed.

(** The loop settles when its attempts do. *)
Lemma retryLoop_settles {A} (I : State -> Prop) (operation : M A) :
  (forall s, I s -> I (snd (operation s)) /\ fst (operation s) <> Pending) ->
  (forall d s, I s -> I (sleep d s)) ->
  forall fuel attempt last st,
    I st -> (fuel = 0%nat -> last <> None) ->
    fst (retryLoop fuel attempt last operation st) <> Pending.
Proof.
  intros Hop Hsleep fuel. induction fuel as [| fuel IH]; intros attempt last st HI Hlast.
  - simpl. destruct last; [discriminate | exfalso; apply Hlast; reflexivity].
  - simpl. destruct (Hop st HI) as [HI1 Hnp].
    destruct (operation st) as [[a | e |] st1]; simpl in *; [discriminate | | congruence].
    apply IH; [| discriminate].
    destruct (Nat.ltb attempt MAX_RETRIES); [apply Hsleep |]; assumption.
Qed.

(** [store] settles whenever no flush is in progress, and leaves none in
    progress. *)
Lemma store_settles obj st :
  isWriting st = false ->
  fst (store obj st) <> Pending /\ isWriting (snd (store obj st)) = false.
Proof.
  intros Hw. unfold store. destruct (negb (isInitialized st)); [split; [discriminate | exact Hw] |].
  set (op := (registration <- resolveRegistration obj;;
              storeDataAwait (getCollectionKey registration obj)
                (reg_storageKey registration) obj;;;
              modify (clearCacheByPattern
                        (getCacheKey (reg_storageKey registration)
                           (getCollectionKey registration obj) None)))).
  assert (Hop : forall s, isWriting s = false ->
                          isWriting (snd (op s)) = false /\ fst (op s) <> Pending).
  { intros s Hs. unfold op, bind, modify, resolveRegistration.
    destruct (config s) as [cfg |]; [| split; [exact Hs | discriminate]].
    destruct (entityRegistry cfg) as [registry |]; [| split; [exact Hs | discriminate]].
    destruct (getRegistrationForInstance registry obj) as [registration |];
      [| split; [exact Hs | discriminate]].
    pose proof (storeDataAwait_isWriting (getCollectionKey registration obj)
                  (reg_storageKey registration) obj s Hs) as H1.
    pose proof (storeDataAwait_settles (getCollectionKey registration obj)
                  (reg_storageKey registration) obj s Hs) as H2.
    destruct (storeDataAwait _ _ obj s) as [[[] | e |] s1]; simpl in *;
      (split; [exact H1 | congruence]). }
  split.
  - apply (retryLoop_settles (fun s => isWriting s = false)); [exact Hop | | exact Hw |].
    + intros d s. apply sleep_isWriting.
    + unfold MAX_RETRIES. discriminate.
  - apply (retryLoop_invariant (fun s => isWriting s = false)); [| | exact Hw].
    + intros s Hs. apply Hop, Hs.
    + intros d s. apply sleep_isWriting.
Qed.

Lemma bulkStoreLoop_accounts : forall items result st,
  isWriting st = false ->
  exists r st',
    bulkStoreLoop items result st = (Ok r, st') /\
    (successful r + failed r = successful result + failed result + length items)%nat /\
    (length (errors r) + failed result = length (errors result) + failed r)%nat /\
    bulk_executionTimeMs r = bulk_executionTimeMs result /\
    isWriting st' = false.
Proof.
  induction items as [| entity rest IH]; intros result st Hw; simpl.
  - exists result, st. repeat split; try lia. exact Hw.
  - destruct (store_settles entity st Hw) as [Hnp Hw1].
    destruct (store entity st) as [[[] | e |] st1]; simpl in *; [| | congruence].
    + destruct (IH (countSuccess result) st1 Hw1) as (r & st' & Hrun & Hc & He & Ht & Hw').
      exists r, st'. simpl in *. repeat split; try assumption; lia.
    + destruct (IH (countFailure (WholeEntity entity) (Caught e) result) st1 Hw1)
        as (r & st' & Hrun & Hc & He & Ht & Hw').
      exists r, st'. simpl in *. rewrite length_app in He. simpl in He.
      repeat split; try assumption; lia.
Qed.

(** X19: [bulkStore] never throws and, when no flush is in progress,
    returns: what [store] throws is counted, so the entities counted as
    successful and as failed add up to those given, with one entry of
    [errors] for each failed one, and the time reported is the time the call
    took. *)
Theorem bulkStore_accounts_for_every_entity (entities : list Entity) (st : State) :
  isWriting st = false ->
  exists r st',
    bulkStore entities st = (Ok r, st') /\
    (successful r + failed r = length entities)%nat /\
    length (errors r) = failed r /\
    bulk_executionTimeMs r = clock st' - clock st /\
    isWriting st' = false.
Proof.
  intros Hw. unfold bulkStore, bind, gets, ret.
  destruct (bulkStoreLoop_accounts entities emptyBulkResult st Hw)
    as (r & st' & Hrun & Hc & He & Ht & Hw').
  rewrite Hrun. eexists. exists st'. split; [reflexivity |].
  simpl in *. repeat split; try assumption; lia.
Qed.

(** [deleteById] settles in every state. *)
Lemma getAllShared_settles cls ck st : fst (getAllShared cls ck st) <> Pending.
Proof.
  unfold getAllShared. destruct (negb (isInitialized st)); [discriminate |].
  apply (retryLoop_settles (fun _ => True)); try (intros; exact I).
  - intros s _. split; [exact I |]. unfold getAllOnce.
    destruct (String.eqb (storageKey cls) ""); [discriminate |].
    destruct (getFromCache _ s) as [cached s1].
    destruct cached as [[l | [e |]] |]; try discriminate;
      destruct (readList (data s1) ck (storageKey cls)); discriminate.
  - unfold MAX_RETRIES. discriminate.
Qed.

Lemma replaceAll_settles cls ck objects st : fst (replaceAll cls ck objects st) <> Pending.
Proof.
  unfold replaceAll. destruct (negb (isInitialized st)); [discriminate |].
  apply (retryLoop_settles (fun _ => True)); try (intros; exact I).
  - intros s _. split; [exact I |].
    destruct (String.eqb (storageKey cls) ""); [discriminate |].
    destruct (dbWrite _) as [[e |] s2]; discriminate.
  - unfold MAX_RETRIES. discriminate.
Qed.

Lemma deleteById_settles cls ck objectId st : fst (deleteById cls ck objectId st) <> Pending.
Proof.
  unfold deleteById. destruct (negb (isInitialized st)); [discriminate |].
  apply (retryLoop_settles (fun _ => True)); try (intros; exact I).
  - intros s _. split; [exact I |]. unfold getAll, bind, ret, modify.
    pose proof (getAllShared_settles cls ck s) as Hg.
    destruct (getAllShared cls ck s) as [[[l shared] | e |] s1]; simpl in *;
      [| discriminate | congruence].
    destruct (Nat.eqb _ _); [discriminate |].
    pose proof (replaceAll_settles cls ck
                  (List.filter (fun item => negb (hasId (Some objectId) item)) l) s1) as Hr.
    destruct (replaceAll _ _ _ s1) as [[[] | e |] s2]; simpl in *; [| discriminate | congruence].
    destruct (String.eqb (storageKey cls) ""); discriminate.
  - unfold MAX_RETRIES. discriminate.
Qed.

Lemma bulkDeleteLoop_accounts cls ck : forall entityIds result st,
  exists r st',
    bulkDeleteLoop cls ck entityIds result st = (Ok r, st') /\
    (successful r + failed r = successful result + failed result + length entityIds)%nat /\
    (length (errors r) + failed result = length (errors result) + failed r)%nat /\
    bulk_executionTimeMs r = bulk_executionTimeMs result.
Proof.
  induction entityIds as [| entityId rest IH]; intros result st; simpl.
  - exists result, st. repeat split; lia.
  - pose proof (deleteById_settles cls ck entityId st) as Hnp.
    destruct (deleteById cls ck entityId st) as [[[|] | e |] st1]; simpl in *; [| | | congruence].
    + destruct (IH (countSuccess result) st1) as (r & st' & Hrun & Hc & He & Ht).
      exists r, st'. simpl in *. repeat split; try assumption; lia.
    + destruct (IH (countFailure (IdOnly entityId) EntityNotFound result) st1)
        as (r & st' & Hrun & Hc & He & Ht).
      exists r, st'. simpl in *. rewrite length_app in He. simpl in He.
      repeat split; try assumption; lia.
    + destruct (IH (countFailure (IdOnly entityId) (Caught e) result) st1)
        as (r & st' & Hrun & Hc & He & Ht).
      exists r, st'. simpl in *. rewrite length_app in He. simpl in He.
      repeat split; try assumption; lia.
Qed.

(** X20: [bulkDelete] never throws and always returns: every id given is
    counted once, as successful when [deleteById] removed something and as
    failed when it found nothing or threw, with one entry of [errors] for each
    failed id. *)
Theorem bulkDelete_accounts_for_every_id
    (cls : EntityClass) (ck : string) (entityIds : list string) (st : State) :
  exists r st',
    bulkDelete cls ck entityIds st = (Ok r, st') /\
    (successful r + failed r = length entityIds)%nat /\
    length (errors r) = failed r /\
    bulk_executionTimeMs r = clock st' - clock st.
Proof.
  unfold bulkDelete, bind, gets, ret.
  destruct (bulkDeleteLoop_accounts cls ck entityIds emptyBulkResult st)
    as (r & st' & Hrun & Hc & He & Ht).
  rewrite Hrun. eexists. exists st'. split; [reflexivity |].
  simpl in *. repeat split; try assumption; lia.
Qed.

Lemma bulkStoreLoop_uninitialized : forall items result st,
  isInitialized st = false ->
  bulkStoreLoop items result st =
    (Ok {| successful := (successful result + length items)%nat;
           failed := failed result;
           errors := errors result;
           bulk_executionTimeMs := bulk_executionTimeMs result |}, st).
Proof.
  induction items as [| entity rest IH]; intros result st Hi; simpl.
  - rewrite Nat.add_0_r. destruct result; reflexivity.
  - unfold store at 1. rewrite Hi. simpl. rewrite IH by exact Hi. simpl.
    repeat f_equal. lia.
Qed.

Lemma bulkDeleteLoop_uninitialized cls ck : forall entityIds result st,
  isInitialized st = false ->
  bulkDeleteLoop cls ck entityIds result st =
    (Ok {| successful := successful result;
           failed := (failed result + length entityIds)%nat;
           errors := errors result ++
                     map (fun entityId => (IdOnly entityId, EntityNotFound)) entityIds;
           bulk_executionTimeMs := bulk_executionTimeMs result |}, st).
Proof.
  induction entityIds as [| entityId rest IH]; intros result st Hi; simpl.
  - rewrite Nat.add_0_r, app_nil_r. destruct result; reflexivity.
  - unfold deleteById at 1. rewrite Hi. simpl. rewrite IH by exact Hi. simpl.
    rewrite <- app_assoc. simpl. repeat f_equal. lia.
Qed.

(** X21: before [initialize], [bulkStore] reports every entity as stored
    and [bulkDelete] reports every id as not found, and neither touches the
    state: nothing is stored, nothing is deleted. *)
Theorem bulk_operations_before_initialize
    (entities : list Entity) (cls : EntityClass) (ck : string) (entityIds : list string)
    (st : State) :
  isInitialized st = false ->
  exists t t',
    bulkStore entities st =
      (Ok {| successful := length entities; failed := 0; errors := [];
             bulk_executionTimeMs := t |}, st) /\
    bulkDelete cls ck entityIds st =
      (Ok {| successful := 0; failed := length entityIds;
             errors := map (fun entityId => (IdOnly entityId, EntityNotFound)) entityIds;
             bulk_executionTimeMs := t' |}, st).
Proof.
  intros Hi. eexists. eexists. split.
  - unfold bulkStore, bind, gets, ret. rewrite bulkStoreLoop_uninitialized by exact Hi.
    simpl. reflexivity.
  - unfold bulkDelete, bind, gets, ret. rewrite bulkDeleteLoop_uninitialized by exact Hi.
    simpl. reflexivity.
Qed.

(** ** What the bulk operations do to the lists *)

Lemma setCache_disabled key d st : cachingEnabled st = false -> setCache key d st = st.
Proof.
  unfold cachingEnabled, setCache. destruct (config st) as [cfg |]; [| reflexivity].
  intros ->. reflexivity.
Qed.

(** An attempt of [getAll] keeps the cache in agreement with the store. *)
Lemma getAllOnce_keeps_agreement cls ck st :
  storageKey cls <> "" ->
  cacheAgrees st cls ck ->
  cacheAgrees (snd (getAllOnce cls ck st)) cls ck /\
  data (snd (getAllOnce cls ck st)) = data st.
Proof.
  intros Hk Hagree. unfold getAllOnce. apply String.eqb_neq in Hk. rewrite Hk.
  set (key := getCacheKey (storageKey cls) ck None).
  assert (Hfill : forall s,
             data s = data st ->
             (forall e0, cache_get key (cache s) = Some e0 ->
                         ce_data e0 = CArray (storedList st cls ck)) ->
             let r := match readList (data s) ck (storageKey cls) with
                      | None => (Ok ([], false), s)
                      | Some storedData =>
                          (Ok (storedData, cachingEnabled s),
                           setCache key (CArray storedData) s)
                      end in
             cacheAgrees (snd r) cls ck /\ data (snd r) = data st).
  { intros s Hd Hs. unfold cacheAgrees, storedList. fold key.
    destruct (readList (data s) ck (storageKey cls)) as [l |] eqn:Hread; cbn [snd].
    - destruct (cachingEnabled s) eqn:Hen'.
      + unfold cachingEnabled in Hen'. destruct (config s) as [cfg |] eqn:Hcs; [| discriminate].
        destruct (setCache_entry key (CArray l) s cfg Hcs Hen') as (Hget & _ & _ & Hd' & _).
        rewrite Hd'. split; [| exact Hd]. intros e0 He0. rewrite Hget in He0.
        inversion He0; subst. simpl. rewrite Hread. reflexivity.
      + rewrite (setCache_disabled _ _ _ Hen'). split; [| exact Hd].
        intros e0 He0. rewrite (Hs e0 He0). unfold storedList. rewrite Hd. reflexivity.
    - split; [| exact Hd]. intros e0 He0. rewrite (Hs e0 He0).
      unfold storedList. rewrite Hd. reflexivity. }
  unfold getFromCache. destruct (cachingEnabled st) eqn:Hen; simpl negb; cbv iota.
  - destruct (cache_get key (cache st)) as [e |] eqn:Hget.
    + destruct (expiresAt e <? clock st).
      * apply Hfill; try reflexivity. intros e0 He0. cbn [cache set_cacheStats set_cache] in He0.
        rewrite cache_get_delete_eq in He0. discriminate.
      * rewrite (Hagree e Hget). cbn [snd]. split; [| reflexivity].
        intros e0 He0. cbn [cache set_cacheStats set_cache] in He0.
        rewrite cache_get_set_eq in He0. inversion He0; subst. simpl.
        rewrite (Hagree e Hget). reflexivity.
    + apply Hfill; try reflexivity. intros e0 He0. cbn [cache set_cacheStats] in He0.
      rewrite Hget in He0. discriminate.
  - apply Hfill; try reflexivity. exact Hagree.
Qed.

(** [getAll] on a cache that agrees with the store: it returns the stored
    list at its first attempt, and the cache still agrees. *)
Lemma getAll_run_agrees cls ck st :
  isInitialized st = true ->
  storageKey cls <> "" ->
  cacheAgrees st cls ck ->
  exists st1,
    getAll cls ck st = (Ok (storedList st cls ck), st1) /\
    cacheAgrees st1 cls ck /\
    data st1 = data st /\
    setup st1 = setup st /\
    storeView st1 = storeView st.
Proof.
  intros Hi Hk Hagree.
  destruct (getAllOnce_agrees cls ck st Hk Hagree) as (shared & c & cs & Hop).
  destruct (getAllOnce_keeps_agreement cls ck st Hk Hagree) as [Ha Hd].
  pose proof (getAllOnce_setup cls ck st) as Hs.
  pose proof (getAllOnce_storeView cls ck st) as Hv.
  rewrite Hop in Ha, Hd, Hs, Hv. simpl in Ha, Hd, Hs, Hv.
  exists (recached c cs st). split; [| repeat split; assumption].
  apply (getAll_of_attempt cls ck st _ shared _ Hi Hop).
Qed.

(** [deleteById] on a cache that agrees with the store, the durable writes
    succeeding. *)
Lemma deleteById_run cls ck objectId st :
  (forall k, writeFails env k = None) ->
  isInitialized st = true ->
  storageKey cls <> "" ->
  cacheAgrees st cls ck ->
  exists st',
    deleteById cls ck objectId st = (Ok (occurs (storedList st cls ck) objectId), st') /\
    storedList st' cls ck =
      List.filter (fun item => negb (hasId (Some objectId) item)) (storedList st cls ck) /\
    isInitialized st' = true /\
    cacheAgrees st' cls ck.
Proof.
  intros Hrel Hi Hk Hagree.
  destruct (getAll_run_agrees cls ck st Hi Hk Hagree) as (st1 & Hget & Ha1 & Hd1 & Hs1 & _).
  set (l := storedList st cls ck) in *.
  set (kept := List.filter (fun item => negb (hasId (Some objectId) item)) l).
  assert (Hi1 : isInitialized st1 = true) by (rewrite (setup_isInitialized _ _ Hs1); exact Hi).
  unfold deleteById. rewrite Hi. simpl negb. cbv iota.
  unfold occurs. rewrite existsb_negb_forallb.
  destruct (Nat.eqb (length kept) (length l)) eqn:Hlen.
  - apply Nat.eqb_eq, filter_length_eq in Hlen.
    exists st1. split; [| split; [| split; assumption]].
    + apply executeWithRetry_ok. rewrite (bind_ok _ _ _ _ _ Hget).
      fold kept. rewrite (proj2 (Nat.eqb_eq _ _)).
      * rewrite Hlen. reflexivity.
      * unfold kept. rewrite (forallb_filter_id _ _ Hlen). reflexivity.
    + unfold storedList. rewrite Hd1. fold (storedList st cls ck). fold l.
      symmetry. apply forallb_filter_id, Hlen.
  - assert (Hall : forallb (fun x => negb (hasId (Some objectId) x)) l = false).
    { destruct (forallb _ l) eqn:Hf; [| reflexivity].
      apply forallb_filter_id in Hf. fold kept in Hf. rewrite Hf in Hlen.
      rewrite Nat.eqb_refl in Hlen. discriminate. }
    rewrite Hall. simpl negb.
    exists (clearCacheByPattern (getCacheKey (storageKey cls) ck None)
              (replaced cls ck kept st1)).
    split; [| split; [| split]].
    + apply executeWithRetry_ok. rewrite (bind_ok _ _ _ _ _ Hget).
      fold kept. rewrite Hlen.
      rewrite (bind_ok _ _ _ _ _ (replaceAll_ok cls ck kept st1 Hi1 Hk (Hrel _))).
      apply String.eqb_neq in Hk. rewrite Hk. reflexivity.
    + unfold storedList, replaced, clearCacheByPattern.
      cbn [data set_cache set_file set_writeCalls set_data].
      rewrite readList_writeList_eq. reflexivity.
    + exact Hi1.
    + apply cacheAgrees_cleared.
Qed.

Lemma filter_filter_and {A} (f g : A -> bool) l :
  List.filter f (List.filter g l) = List.filter (fun x => g x && f x) l.
Proof.
  induction l as [| x l IH]; simpl; [reflexivity |].
  destruct (g x); simpl; [destruct (f x); rewrite IH; reflexivity | exact IH].
Qed.

Lemma occurs_after_delete l id id' :
  id' <> id ->
  occurs (List.filter (fun item => negb (hasId (Some id) item)) l) id' = occurs l id'.
Proof.
  intros Hne. unfold occurs. induction l as [| x l IH]; simpl; [reflexivity |].
  destruct (hasId (Some id) x) eqn:Hx; simpl; rewrite IH; [| reflexivity].
  assert (H : hasId (Some id') x = false).
  { unfold hasId in *. apply bool_decide_eq_true in Hx. apply bool_decide_eq_false.
    rewrite Hx. congruence. }
  rewrite H. reflexivity.
Qed.

Lemma bulkDeleteLoop_run cls ck :
  (forall k, writeFails env k = None) ->
  storageKey cls <> "" ->
  forall entityIds result st,
    isInitialized st = true ->
    cacheAgrees st cls ck ->
    exists r st',
      bulkDeleteLoop cls ck entityIds result st = (Ok r, st') /\
      storedList st' cls ck =
        List.filter (fun item => negb (listed entityIds item)) (storedList st cls ck) /\
      (NoDup entityIds ->
       successful r =
         (successful result +
          length (List.filter (occurs (storedList st cls ck)) entityIds))%nat /\
       errors r =
         errors result ++
         map (fun id => (IdOnly id, EntityNotFound))
           (List.filter (fun id => negb (occurs (storedList st cls ck) id)) entityIds)).
Proof.
  intros Hrel Hk. induction entityIds as [| id rest IH]; intros result st Hi Hagree; simpl.
  - exists result, st. split; [reflexivity |]. split.
    + symmetry. apply forallb_filter_id. apply forallb_forall. reflexivity.
    + intros _. rewrite Nat.add_0_r, app_nil_r. split; reflexivity.
  - destruct (deleteById_run cls ck id st Hrel Hi Hk Hagree) as (st1 & Hdel & Hl1 & Hi1 & Ha1).
    rewrite Hdel.
    set (result1 := if occurs (storedList st cls ck) id then countSuccess result
                    else countFailure (IdOnly id) EntityNotFound result).
    destruct (IH result1 st1 Hi1 Ha1) as (r & st' & Hrun & Hl & Hcount).
    exists r, st'. split; [exact Hrun |]. split.
    + rewrite Hl, Hl1, filter_filter_and. apply filter_ext. intros x.
      rewrite negb_orb. reflexivity.
    + intros Hnd. apply NoDup_cons in Hnd as [Hnotin Hnd].
      destruct (Hcount Hnd) as [Hs He]. rewrite Hl1 in Hs, He.
      assert (Hsame : forall id', In id' rest ->
                 occurs (List.filter (fun item => negb (hasId (Some id) item))
                           (storedList st cls ck)) id' =
                 occurs (storedList st cls ck) id').
      { intros id' Hin. apply occurs_after_delete. intros ->.
        apply Hnotin, list_elem_of_In, Hin. }
      rewrite (filter_ext_in _ (occurs (storedList st cls ck)) rest Hsame) in Hs.
      rewrite (filter_ext_in
                 (fun id0 => negb (occurs (List.filter
                                             (fun item => negb (hasId (Some id) item))
                                             (storedList st cls ck)) id0))
                 (fun id0 => negb (occurs (storedList st cls ck) id0)) rest) in He
        by (intros id' Hin; rewrite (Hsame id' Hin); reflexivity).
      rewrite Hs, He. unfold result1.
      destruct (occurs (storedList st cls ck) id); simpl.
      * split; [lia | reflexivity].
      * split; [lia |]. rewrite <- app_assoc. reflexivity.
Qed.

(** X22: with durable writes that succeed and a cache that agrees with the
    store, [bulkDelete] leaves the stored list without the records whose id
    is among those given, the others in their order; for ids given once
    each, it counts as successful those that some record had and reports the
    others, in the order given, as not found. *)
Theorem bulkDelete_removes_the_listed_ids
    (cls : EntityClass) (ck : string) (entityIds : list string) (st : State) :
  (forall k, writeFails env k = None) ->
  isInitialized st = true ->
  storageKey cls <> "" ->
  cacheAgrees st cls ck ->
  exists r st',
    bulkDelete cls ck entityIds st = (Ok r, st') /\
    storedList st' cls ck =
      List.filter (fun item => negb (listed entityIds item)) (storedList st cls ck) /\
    (NoDup entityIds ->
     successful r = length (List.filter (occurs (storedList st cls ck)) entityIds) /\
     errors r =
       map (fun id => (IdOnly id, EntityNotFound))
         (List.filter (fun id => negb (occurs (storedList st cls ck) id)) entityIds)).
Proof.
  intros Hrel Hi Hk Hagree. unfold bulkDelete, bind, gets, ret.
  destruct (bulkDeleteLoop_run cls ck Hrel Hk entityIds emptyBulkResult st Hi Hagree)
    as (r & st' & Hrun & Hl & Hcount).
  rewrite Hrun. eexists. exists st'. split; [reflexivity |]. split; [exact Hl |].
  intros Hnd. destruct (Hcount Hnd) as [Hs He]. simpl in *. split; assumption.
Qed.

(** [store] of an object of a registered class on an empty queue, the
    durable write succeeding: one flush, 50 ms later. *)
Lemma store_run obj st cfg registry registration :
  isInitialized st = true ->
  config st = Some cfg ->
  entityRegistry cfg = Some registry ->
  getRegistrationForInstance registry obj = Some registration ->
  pendingWrites st = [] ->
  isWriting st = false ->
  writeFails env (writeCalls st) = None ->
  store obj st =
    (Ok tt,
     clearCacheByPattern
       (getCacheKey (reg_storageKey registration) (getCollectionKey registration obj) None)
       (appended (getCollectionKey registration obj) (reg_storageKey registration) obj st)).
Proof.
  intros Hi Hcfg Hreg Hget Hp Hw Hrel. unfold store. rewrite Hi. simpl negb. cbv iota.
  apply executeWithRetry_ok.
  rewrite (bind_ok _ _ _ _ _ (resolveRegistration_ok _ _ _ _ _ Hcfg Hreg Hget)).
  rewrite (bind_ok _ _ _ _ _ (storeDataAwait_ok _ _ obj st Hp Hw Hrel)). reflexivity.
Qed.

Lemma bulkStoreLoop_run cfg registry :
  (forall k, writeFails env k = None) ->
  entityRegistry cfg = Some registry ->
  forall items result st,
    Forall (fun entity => getRegistrationForInstance registry entity <> None) items ->
    isInitialized st = true ->
    config st = Some cfg ->
    pendingWrites st = [] ->
    isWriting st = false ->
    exists st',
      bulkStoreLoop items result st =
        (Ok {| successful := (successful result + length items)%nat;
               failed := failed result;
               errors := errors result;
               bulk_executionTimeMs := bulk_executionTimeMs result |}, st') /\
      data st' = fold_left pushRecord (map (writeOf registry) items) (data st) /\
      (items <> [] -> file st' = data st') /\
      writeCalls st' = (writeCalls st + length items)%nat /\
      clock st' = clock st + BATCH_DELAY_MS * Z.of_nat (length items) /\
      pendingWrites st' = [] /\
      isWriting st' = false.
Proof.
  intros Hrel Hreg. induction items as [| entity rest IH];
    intros result st Hall Hi Hcfg Hp Hw.
  - exists st. simpl. rewrite !Nat.add_0_r. destruct result.
    repeat split; try assumption; try lia. congruence.
  - apply Forall_cons in Hall as [Hent Hall].
    destruct (getRegistrationForInstance registry entity) as [registration |] eqn:Hget;
      [| congruence].
    simpl bulkStoreLoop.
    rewrite (store_run entity st cfg registry registration Hi Hcfg Hreg Hget Hp Hw (Hrel _)).
    set (st1 := clearCacheByPattern _ _).
    destruct (IH (countSuccess result) st1 Hall Hi Hcfg eq_refl eq_refl)
      as (st' & Hrun & Hd & Hf & Hc & Hk & Hp' & Hw').
    exists st'. split; [| split; [| split; [| split; [| split; [| split]]]]];
      try assumption.
    + rewrite Hrun. simpl. repeat f_equal. lia.
    + rewrite Hd. simpl.
      assert (Hwo : writeOf registry entity =
                      queued (getCollectionKey registration entity)
                        (reg_storageKey registration) entity)
        by (unfold writeOf; rewrite Hget; reflexivity).
      rewrite Hwo. reflexivity.
    + intros _. destruct rest as [| e2 rest'].
      * simpl in Hrun. inversion Hrun; subst. reflexivity.
      * apply Hf. discriminate.
    + rewrite Hc. simpl. lia.
    + rewrite Hk. simpl length. unfold st1. cbn [clock clearCacheByPattern set_cache appended].
      lia.
Qed.

(** X23: [bulkStore] awaits each [store] before the next, so nothing is
    batched: for entities of registered classes, on an empty queue and with
    durable writes that succeed, it makes one durable write per entity, each
    after the 50 ms of the flush timer, appends the entities in the order
    given, and reports them all as successful. *)
Theorem bulkStore_makes_one_durable_write_per_entity
    (entities : list Entity) (st : State) (cfg : RepositoryConfig)
    (registry : EntityRegistry) :
  (forall k, writeFails env k = None) ->
  isInitialized st = true ->
  config st = Some cfg ->
  entityRegistry cfg = Some registry ->
  Forall (fun entity => getRegistrationForInstance registry entity <> None) entities ->
  pendingWrites st = [] ->
  isWriting st = false ->
  exists st',
    bulkStore entities st =
      (Ok {| successful := length entities; failed := 0; errors := [];
             bulk_executionTimeMs := BATCH_DELAY_MS * Z.of_nat (length entities) |}, st') /\
    writeCalls st' = (writeCalls st + length entities)%nat /\
    clock st' = clock st + BATCH_DELAY_MS * Z.of_nat (length entities) /\
    (forall ck sk,
        listAt (data st') ck sk =
          listAt (data st) ck sk ++
          map pw_data (forList ck sk (map (writeOf registry) entities))) /\
    (entities <> [] -> file st' = data st') /\
    pendingWrites st' = [].
Proof.
  intros Hrel Hi Hcfg Hreg Hall Hp Hw.
  destruct (bulkStoreLoop_run cfg registry Hrel Hreg entities emptyBulkResult st
              Hall Hi Hcfg Hp Hw) as (st' & Hrun & Hd & Hf & Hc & Hk & Hp' & Hw').
  exists st'. split; [| split; [exact Hc | split; [exact Hk | split; [| split; assumption]]]].
  - unfold bulkStore, bind, gets, ret. rewrite Hrun. simpl. rewrite Hk.
    unfold setExecutionTime. simpl. repeat f_equal. lia.
  - intros ck sk. rewrite Hd. apply listAt_fold_pushRecord.
Qed.

(** ** Flushing *)

(** X24: [flushPendingWrites] cancels the pending timer and flushes at
    once, but one batch only: with a durable write that succeeds, the 100
    oldest queued writes are written and resolved, and the writes beyond them
    stay queued behind a new timer of 50 ms; on an empty queue it only
    cancels the timer. *)
Theorem flushPendingWrites_flushes_one_batch (st : State) :
  isWriting st = false ->
  writeFails env (writeCalls st) = None ->
  (pendingWrites st = [] ->
     flushPendingWrites st = ([], set_writeTimeout None st)) /\
  (pendingWrites st <> [] ->
     exists st',
       flushPendingWrites st =
         (map (fun w => (w, Resolved)) (take MAX_BATCH_SIZE (pendingWrites st)), st') /\
       pendingWrites st' = drop MAX_BATCH_SIZE (pendingWrites st) /\
       writeTimeout st' =
         (if Nat.ltb 0 (length (drop MAX_BATCH_SIZE (pendingWrites st)))
          then Some (clock st + BATCH_DELAY_MS) else None) /\
       data st' = fold_left pushRecord (take MAX_BATCH_SIZE (pendingWrites st)) (data st) /\
       file st' = data st' /\
       writeCalls st' = S (writeCalls st) /\
       clock st' = clock st).
Proof.
  intros Hw Hrel.
  assert (Heq : flushPendingWrites st = performBatchWrite (set_writeTimeout None st)).
  { unfold flushPendingWrites. destruct (writeTimeout st) eqn:Ht; [reflexivity |].
    f_equal. destruct st; simpl in *. subst. reflexivity. }
  rewrite Heq. split.
  - intros Hp. unfold performBatchWrite. cbn [pendingWrites set_writeTimeout]. rewrite Hp.
    reflexivity.
  - intros Hp. exists (flushed (set_writeTimeout None st)).
    rewrite performBatchWrite_ok; [| exact Hp | exact Hw | exact Hrel].
    destruct (flushed_fields (set_writeTimeout None st) eq_refl)
      as (Hp1 & _ & Hd1 & Hf1 & Hc1 & _ & Hk1 & Ht1).
    repeat split; assumption.
Qed.

(** X25: a flush whose durable write fails rejects the promises of its
    batch but is not rolled back: the records of the batch have left the
    queue and stay on their lists in memory, the file is as it was, the
    metrics do not count the batch, and no write is left in progress. *)
Theorem failed_flush_is_not_rolled_back (st : State) (code : Z) :
  pendingWrites st <> [] ->
  isWriting st = false ->
  writeFails env (writeCalls st) = Some code ->
  let batch := take MAX_BATCH_SIZE (pendingWrites st) in
  exists st',
    performBatchWrite st = (map (fun w => (w, Rejected (WriteFailed code))) batch, st') /\
    pendingWrites st' = drop MAX_BATCH_SIZE (pendingWrites st) /\
    (forall ck sk,
        listAt (data st') ck sk = listAt (data st) ck sk ++ map pw_data (forList ck sk batch)) /\
    file st' = file st /\
    metrics st' = metrics st /\
    isWriting st' = false.
Proof.
  intros Hp Hw Hf batch. exists (flushFailed st).
  split; [apply performBatchWrite_fail; assumption |].
  unfold flushFailed, scheduleBatchWrite. fold batch.
  destruct (Nat.ltb 0 (length (drop MAX_BATCH_SIZE (pendingWrites st))));
    cbn [writeTimeout]; [destruct (writeTimeout st); cbn [negb] |];
    cbn [pendingWrites data file metrics isWriting set_writeTimeout];
    (split; [reflexivity |]); (split; [intros ck sk; apply listAt_fold_pushRecord |]);
    repeat split; reflexivity.
Qed.

Lemma In_forList ck sk w ws :
  In w ws -> pw_collectionKey w = ck -> pw_storageKey w = sk -> In w (forList ck sk ws).
Proof.
  intros Hin Hc Hs. unfold forList. apply filter_In. split; [exact Hin |].
  apply bool_decide_eq_true. split; assumption.
Qed.

(** A promise of [storeData] that resolves was part of a flush whose durable
    write succeeded. *)
Lemma awaitWrite_ok_durable : forall fuel pos st w st',
  pendingWrites st !! pos = Some w ->
  awaitWrite fuel pos st = (Ok tt, st') ->
  file st' = data st' /\
  In (pw_data w) (listAt (data st') (pw_collectionKey w) (pw_storageKey w)).
Proof.
  induction fuel as [| fuel IH]; intros pos st w st' Hpos Hrun; simpl in Hrun; [discriminate |].
  destruct (writeTimeout st) as [d |]; [| discriminate].
  set (s0 := set_writeTimeout None (set_clock (Z.max (clock st) d) st)) in *.
  assert (Hne : pendingWrites s0 <> []).
  { change (pendingWrites s0) with (pendingWrites st).
    destruct (pendingWrites st); [discriminate | discriminate]. }
  destruct (isWriting st) eqn:Hw.
  - (* a flush in progress: the timer callback returns at once *)
    assert (Hfire : fireAt d st = ([], s0)).
    { unfold fireAt, fireTimer. fold s0. unfold performBatchWrite.
      change (isWriting s0) with (isWriting st). rewrite Hw, orb_true_r. reflexivity. }
    rewrite Hfire in Hrun. cbn [lookup list_lookup] in Hrun.
    destruct fuel; simpl in Hrun; discriminate.
  - destruct (writeFails env (writeCalls st)) as [code |] eqn:Hf.
    + assert (Hfire : fireAt d st =
                (map (fun w => (w, Rejected (WriteFailed code)))
                   (take MAX_BATCH_SIZE (pendingWrites st)), flushFailed s0)).
      { unfold fireAt, fireTimer. fold s0.
        apply (performBatchWrite_fail s0 code Hne Hw Hf). }
      rewrite Hfire in Hrun. rewrite list_lookup_fmap in Hrun.
      destruct (take MAX_BATCH_SIZE (pendingWrites st) !! pos) as [w' |] eqn:Hl;
        cbn [fmap option_fmap option_map] in Hrun; [discriminate |].
      apply lookup_ge_None in Hl.
      rewrite length_map in Hrun.
      eapply IH; [| exact Hrun].
      unfold flushFailed. change (pendingWrites s0) with (pendingWrites st).
      assert (Hd : drop MAX_BATCH_SIZE (pendingWrites st) !!
                     (pos - length (take MAX_BATCH_SIZE (pendingWrites st)))%nat = Some w).
      { rewrite lookup_drop. rewrite length_take in *.
        replace (MAX_BATCH_SIZE + (pos - Nat.min MAX_BATCH_SIZE (length (pendingWrites st))))%nat
          with pos; [exact Hpos |].
        apply lookup_lt_Some in Hpos. lia. }
      unfold scheduleBatchWrite.
      destruct (Nat.ltb 0 (length (drop MAX_BATCH_SIZE (pendingWrites st)))); exact Hd.
    + assert (Hfire : fireAt d st =
                (map (fun w => (w, Resolved)) (take MAX_BATCH_SIZE (pendingWrites st)),
                 flushed s0)).
      { unfold fireAt, fireTimer. fold s0. apply (performBatchWrite_ok s0 Hne Hw Hf). }
      rewrite Hfire in Hrun. rewrite list_lookup_fmap in Hrun.
      destruct (flushed_fields s0 eq_refl) as (Hp1 & _ & Hd1 & Hf1 & _).
      change (pendingWrites s0) with (pendingWrites st) in Hp1, Hd1.
      change (data s0) with (data st) in Hd1.
      destruct (take MAX_BATCH_SIZE (pendingWrites st) !! pos) as [w' |] eqn:Hl;
        cbn [fmap option_fmap option_map] in Hrun.
      * inversion Hrun; subst. split; [exact Hf1 |].
        rewrite Hd1, listAt_fold_pushRecord. apply in_or_app. right.
        apply in_map, In_forList; try reflexivity.
        assert (w' = w).
        { rewrite lookup_take_Some in Hl. destruct Hl as [Hl _]. congruence. }
        subst w'. apply list_elem_of_In. eapply list_elem_of_lookup_2. exact Hl.
      * apply lookup_ge_None in Hl. rewrite length_map in Hrun.
        eapply IH; [| exact Hrun]. rewrite Hp1, lookup_drop. rewrite length_take in *.
        replace (MAX_BATCH_SIZE + (pos - Nat.min MAX_BATCH_SIZE (length (pendingWrites st))))%nat
          with pos; [exact Hpos |].
        apply lookup_lt_Some in Hpos. lia.
Qed.

Lemma resolveRegistration_state obj s : snd (resolveRegistration obj s) = s.
Proof. unfold resolveRegistration. repeat case_match; reflexivity. Qed.

(** X26: when [store] resolves, the record is in the file: the attempt
    that succeeded ended in a flush whose durable write succeeded, so the
    file holds the document store as it is in memory, the record on the list
    of its collection. *)
Theorem store_resolves_after_the_durable_write
    (obj : Entity) (st st' : State) (registration : EntityRegistration) :
  isInitialized st = true ->
  fst (resolveRegistration obj st) = Ok registration ->
  store obj st = (Ok tt, st') ->
  file st' = data st' /\
  In obj (listAt (file st') (getCollectionKey registration obj) (reg_storageKey registration)).
Proof.
  intros Hi Hreg Hrun. unfold store in Hrun. rewrite Hi in Hrun. simpl negb in Hrun.
  cbv iota in Hrun. revert Hrun.
  apply (executeWithRetry_ok_setup _
           (fun _ s' =>
              file s' = data s' /\
              In obj (listAt (file s') (getCollectionKey registration obj)
                        (reg_storageKey registration)))).
  - apply keeps_bind; [apply keeps_resolveRegistration |]. intros reg.
    apply keeps_bind; [apply keeps_storeDataAwait |]. intros _.
    apply keeps_modify. intros s. reflexivity.
  - intros s [] s' Hs Hop. unfold bind in Hop.
    pose proof (resolveRegistration_setup obj s st Hs) as Hfst.
    pose proof (resolveRegistration_state obj s) as Hsnd.
    rewrite Hreg in Hfst.
    destruct (resolveRegistration obj s) as [r s0]. simpl in Hfst, Hsnd. subst r s0.
    destruct (storeDataAwait _ _ obj s) as [[[] | e |] s1] eqn:Hstore;
      [| discriminate | discriminate].
    unfold modify in Hop. inversion Hop; subst s'. clear Hop.
    unfold storeDataAwait in Hstore.
    assert (Hpos : pendingWrites
                     (storeData (getCollectionKey registration obj)
                        (reg_storageKey registration) obj s) !! length (pendingWrites s) =
                   Some (queued (getCollectionKey registration obj)
                           (reg_storageKey registration) obj)).
    { destruct (storeData_fields (getCollectionKey registration obj)
                  (reg_storageKey registration) obj s) as (_ & Hp & _).
      rewrite Hp, lookup_app_r by lia. rewrite Nat.sub_diag. reflexivity. }
    destruct (awaitWrite_ok_durable _ _ _ _ _ Hpos Hstore) as [Hfile Hin].
    cbn [file data clearCacheByPattern set_cache]. split; [exact Hfile |].
    rewrite Hfile. exact Hin.
Qed.

(** ** Retries *)

(** An operation that throws the same error whatever the configuration-
    preserving state is attempted three times, with the two waits. *)
Lemma executeWithRetry_fails_thrice {A} (operation : M A) e st :
  (forall s, setup s = setup st -> operation s = (Err e, s)) ->
  executeWithRetry operation st =
    (Err e, sleep (RETRY_DELAY_MS * 2) (sleep (RETRY_DELAY_MS * 1) st)).
Proof.
  intros Hop. unfold executeWithRetry. unfold MAX_RETRIES. cbn [retryLoop].
  unfold MAX_RETRIES. cbn [Nat.ltb Nat.leb].
  rewrite (Hop st eq_refl).
  change (Z.of_nat 1) with 1. change (Z.of_nat 2) with 2.
  rewrite (Hop (sleep (RETRY_DELAY_MS * 1) st)) by apply sleep_setup.
  rewrite (Hop (sleep (RETRY_DELAY_MS * 2) (sleep (RETRY_DELAY_MS * 1) st)))
    by (rewrite !sleep_setup; reflexivity).
  reflexivity.
Qed.

(** X27: the errors of configuration are thrown inside the retried
    operation, so they are retried like a failing write: on an idle
    repository, [store] and [storeUnique] of an object whose registration
    cannot be found, and [getAll] and [replaceAll] for a class without
    storage key, fail only after three attempts and waits of 100 and 200 ms,
    having changed neither the store nor the cache; [getById] for such a
    class throws at once. *)
Theorem configuration_errors_are_retried
    (obj : Entity) (cls : EntityClass) (ck entityId : string) (objects : list Entity)
    (st : State) (e : Error) :
  isInitialized st = true ->
  idle st ->
  let st' := sleep (RETRY_DELAY_MS * 2) (sleep (RETRY_DELAY_MS * 1) st) in
  (slept st' = slept st ++ [100; 200] /\
   clock st' = clock st + 300 /\
   storeView st' = storeView st /\
   cacheView st' = cacheView st) /\
  (fst (resolveRegistration obj st) = Err e ->
     store obj st = (Err e, st') /\ storeUnique obj st = (Err e, st')) /\
  (storageKey cls = "" ->
     getAll cls ck st = (Err MissingStorageKey, st') /\
     replaceAll cls ck objects st = (Err MissingStorageKey, st') /\
     getById cls ck entityId st = (Err MissingStorageKey, st)).
Proof.
  intros Hi Hidle st'. split; [| split].
  - destruct (sleep_idle (RETRY_DELAY_MS * 1) st Hidle ltac:(unfold RETRY_DELAY_MS; lia))
      as (_ & Hidle1 & _ & Hk1 & Hs1).
    destruct (sleep_idle (RETRY_DELAY_MS * 2) _ Hidle1 ltac:(unfold RETRY_DELAY_MS; lia))
      as (_ & _ & _ & Hk2 & Hs2).
    fold st' in Hk2, Hs2.
    destruct Hidle as (_ & Ht & _). destruct Hidle1 as (_ & Ht1 & _).
    split; [| split; [| split]].
    + rewrite Hs2, Hs1, <- app_assoc. reflexivity.
    + rewrite Hk2, Hk1. unfold RETRY_DELAY_MS. lia.
    + unfold st'. rewrite (sleep_storeView _ _ Ht1), (sleep_storeView _ _ Ht). reflexivity.
    + unfold st'. rewrite !sleep_cacheView. reflexivity.
  - intros Hres.
    assert (Hop : forall s, setup s = setup st -> resolveRegistration obj s = (Err e, s)).
    { intros s Hs. pose proof (resolveRegistration_setup obj s st Hs) as Hfst.
      pose proof (resolveRegistration_state obj s) as Hsnd. rewrite Hres in Hfst.
      destruct (resolveRegistration obj s) as [r s0]. simpl in *. subst. reflexivity. }
    split.
    + unfold store. rewrite Hi. simpl negb. cbv iota.
      apply executeWithRetry_fails_thrice. intros s Hs.
      rewrite (bind_err _ _ _ _ _ (Hop s Hs)). reflexivity.
    + unfold storeUnique. rewrite Hi. simpl negb. cbv iota.
      apply executeWithRetry_fails_thrice. intros s Hs.
      rewrite (bind_err _ _ _ _ _ (Hop s Hs)). reflexivity.
  - intros Hk. split; [| split].
    + assert (H : getAllShared cls ck st = (Err MissingStorageKey, st')).
      { unfold getAllShared. rewrite Hi. simpl negb. cbv iota.
        apply executeWithRetry_fails_thrice. intros s _.
        unfold getAllOnce. rewrite Hk. reflexivity. }
      unfold getAll. rewrite (bind_err _ _ _ _ _ H). reflexivity.
    + unfold replaceAll. rewrite Hi. simpl negb. cbv iota.
      apply executeWithRetry_fails_thrice. intros s _. rewrite Hk. reflexivity.
    + unfold getById. rewrite Hk. reflexivity.
Qed.

Lemma storeDataAwait_fail_empty ck sk d st code :
  pendingWrites st = [] ->
  isWriting st = false ->
  writeFails env (writeCalls st) = Some code ->
  storeDataAwait ck sk d st = (Err (WriteFailed code), appendedInMemory ck sk d st).
Proof.
  intros Hp Hw Hf. unfold storeDataAwait, storeData.
  rewrite scheduleBatchWrite_reset, Hp.
  cbn [app length pendingWrites set_writeTimeout set_pendingWrites clock awaitWrite
       writeTimeout].
  unfold fireAt, fireTimer.
  rewrite (performBatchWrite_fail _ code); [| discriminate | exact Hw | exact Hf].
  cbn [pendingWrites set_writeTimeout set_clock set_pendingWrites].
  unfold MAX_BATCH_SIZE. simpl take. simpl map. cbn [lookup list_lookup].
  f_equal. unfold flushFailed, appendedInMemory, queued, MAX_BATCH_SIZE, BATCH_DELAY_MS.
  cbn. rewrite Z.max_r by lia. reflexivity.
Qed.

(** X28: a record whose first durable write fails and whose retry succeeds
    ends up twice on its list: the failed flush had already pushed it and is
    not rolled back, and the retry queues it again.  [store] resolves, after
    one wait of 100 ms and two durable writes, and the file holds both
    copies. *)
Theorem retried_store_leaves_the_record_twice
    (obj : Entity) (st : State) (cfg : RepositoryConfig) (registry : EntityRegistry)
    (registration : EntityRegistration) (code : Z) :
  isInitialized st = true ->
  config st = Some cfg ->
  entityRegistry cfg = Some registry ->
  getRegistrationForInstance registry obj = Some registration ->
  idle st ->
  writeFails env (writeCalls st) = Some code ->
  writeFails env (S (writeCalls st)) = None ->
  let ck := getCollectionKey registration obj in
  let sk := reg_storageKey registration in
  exists st',
    store obj st = (Ok tt, st') /\
    listAt (data st') ck sk = listAt (data st) ck sk ++ [obj; obj] /\
    file st' = data st' /\
    slept st' = slept st ++ [RETRY_DELAY_MS] /\
    writeCalls st' = S (S (writeCalls st)).
Proof.
  intros Hi Hcfg Hreg Hget (Hp & Ht & Hw) Hf1 Hf2 ck sk.
  set (s1 := appendedInMemory ck sk obj st).
  set (s1' := sleep (RETRY_DELAY_MS * 1) s1).
  assert (Hs1' : s1' = set_clock (clock s1 + RETRY_DELAY_MS * 1)
                         (set_slept (slept s1 ++ [RETRY_DELAY_MS * 1]) s1)).
  { unfold s1', sleep, advanceTo. cbn. unfold RETRY_DELAY_MS, BATCH_DELAY_MS.
    rewrite Z.max_r by lia. reflexivity. }
  set (op := (registration <- resolveRegistration obj;;
              storeDataAwait (getCollectionKey registration obj)
                (reg_storageKey registration) obj;;;
              modify (clearCacheByPattern
                        (getCacheKey (reg_storageKey registration)
                           (getCollectionKey registration obj) None)))).
  assert (Hop1 : op st = (Err (WriteFailed code), s1)).
  { unfold op. rewrite (bind_ok _ _ _ _ _ (resolveRegistration_ok _ _ _ _ _ Hcfg Hreg Hget)).
    fold ck sk. rewrite (bind_err _ _ _ _ _ (storeDataAwait_fail_empty ck sk obj st code Hp Hw Hf1)).
    reflexivity. }
  assert (Hop2 : op s1' =
                   (Ok tt, clearCacheByPattern (getCacheKey sk ck None)
                             (appended ck sk obj s1'))).
  { unfold op.
    rewrite (bind_ok _ _ _ _ _ (resolveRegistration_ok obj s1' cfg registry registration
                                  ltac:(rewrite Hs1'; exact Hcfg) Hreg Hget)).
    fold ck sk.
    rewrite (bind_ok _ _ _ _ _ (storeDataAwait_ok ck sk obj s1'
                                  ltac:(rewrite Hs1'; reflexivity)
                                  ltac:(rewrite Hs1'; reflexivity)
                                  ltac:(rewrite Hs1'; exact Hf2))).
    reflexivity. }
  exists (clearCacheByPattern (getCacheKey sk ck None) (appended ck sk obj s1')).
  split; [| split; [| split; [| split]]].
  - unfold store. rewrite Hi. simpl negb. cbv iota. fold op.
    unfold executeWithRetry. unfold MAX_RETRIES. cbn [retryLoop].
    unfold MAX_RETRIES. cbn [Nat.ltb Nat.leb].
    rewrite Hop1. change (Z.of_nat 1) with 1. fold s1'. rewrite Hop2. reflexivity.
  - cbn [data clearCacheByPattern set_cache appended]. rewrite Hs1'.
    cbn [data set_clock set_slept s1 appendedInMemory]. unfold s1. cbn [data appendedInMemory].
    rewrite !listAt_pushRecord. unfold forList, queued. simpl.
    rewrite bool_decide_eq_true_2 by (split; reflexivity).
    rewrite <- app_assoc. reflexivity.
  - reflexivity.
  - rewrite Hs1'. cbn. unfold RETRY_DELAY_MS. reflexivity.
  - rewrite Hs1'. reflexivity.
Qed.

(** ** Writing, then reading *)




(** What a [replaceAll] that resolved has done. *)
Lemma replaceAll_ok_stores cls ck objects st st' :
  isInitialized st = true ->
  replaceAll cls ck objects st = (Ok tt, st') ->
  readList (data st') ck (storageKey cls) = Some objects /\
  file st' = data st' /\
  storageKey cls <> "".
Proof.
  intros Hi H. unfold replaceAll in H. rewrite Hi in H. simpl negb in H. cbv iota in H.
  revert H.
  apply (executeWithRetry_ok_post _
           (fun _ s' => readList (data s') ck (storageKey cls) = Some objects /\
                        file s' = data s' /\ storageKey cls <> "")).
  intros s [] s' Hop.
  destruct (String.eqb (storageKey cls) "") eqn:Hk; [discriminate |].
  unfold dbWrite in Hop. cbn [writeCalls set_data] in Hop.
  destruct (writeFails env (writeCalls s)); [discriminate |].
  inversion Hop; subst. cbn. split; [apply readList_writeList_eq |].
  split; [reflexivity | apply String.eqb_neq, Hk].
Qed.

Lemma find_filter_none {A} (p : A -> bool) l :
  List.find p (List.filter (fun x => negb (p x)) l) = None.
Proof.
  induction l as [| x l IH]; simpl; [reflexivity |].
  destruct (p x) eqn:Hx; simpl; [exact IH |]. rewrite Hx. exact IH.
Qed.

(** X30: after a [deleteById] that returned true, no record of the
    collection has the id, in memory and in the file: [getById] returns
    null and [exists] returns false, and the file holds the list as it is in
    memory.  This needs no assumption on the cache or on the durable writes
    that failed on the way. *)
Theorem deleteById_then_the_id_is_gone
    (cls : EntityClass) (ck objectId : string) (st st' : State) :
  isInitialized st = true ->
  deleteById cls ck objectId st = (Ok true, st') ->
  existsb (hasId (Some objectId)) (storedList st' cls ck) = false /\
  file st' = data st' /\
  (exists s1, getById cls ck objectId st' = (Ok None, s1)) /\
  (exists s2, exists_ cls ck objectId st' = (Ok false, s2)).
Proof.
  intros Hi Hrun.
  assert (Hi' : isInitialized st' = true).
  { rewrite <- Hi. apply setup_isInitialized.
    pose proof (keeps_deleteById cls ck objectId st) as Hs. rewrite Hrun in Hs. exact Hs. }
  pose proof (deleteById_invalidates cls ck objectId st st' Hi Hrun) as Hinv.
  assert (Hlist : (exists l, storedList st' cls ck =
                               List.filter (fun item => negb (hasId (Some objectId) item)) l) /\
                  file st' = data st' /\ storageKey cls <> "").
  { unfold deleteById in Hrun. rewrite Hi in Hrun. simpl negb in Hrun. cbv iota in Hrun.
    refine (executeWithRetry_ok_setup _
             (fun b s' =>
                b = true ->
                (exists l, storedList s' cls ck =
                             List.filter (fun item => negb (hasId (Some objectId) item)) l) /\
                file s' = data s' /\ storageKey cls <> "") st true st' _ _ Hrun eq_refl).
    - apply keeps_bind; [apply keeps_getAll |]. intros l.
      destruct (Nat.eqb _ _); [apply keeps_ret |].
      apply keeps_bind; [apply keeps_replaceAll |]. intros _.
      apply keeps_bind; [| intros _; apply keeps_ret].
      destruct (String.eqb (storageKey cls) ""); [apply keeps_ret |].
      apply keeps_modify. intros s. reflexivity.
    - intros s b s' Hs Hop Hb. subst b. unfold bind in Hop.
      pose proof (getAll_setup cls ck s) as Hgs.
      destruct (getAll cls ck s) as [[l | e |] s1]; [| discriminate | discriminate].
      specialize (Hgs _ _ eq_refl).
      destruct (Nat.eqb _ _); [discriminate |].
      destruct (replaceAll cls ck _ s1) as [[[] | e |] s2] eqn:Hrep;
        [| discriminate | discriminate].
      assert (Hi1 : isInitialized s1 = true).
      { rewrite (setup_isInitialized _ _ Hgs), (setup_isInitialized _ _ Hs). exact Hi. }
      destruct (replaceAll_ok_stores cls ck _ s1 s2 Hi1 Hrep) as (Hread & Hfile & Hk).
      apply String.eqb_neq in Hk. rewrite Hk in Hop. unfold modify, ret in Hop.
      inversion Hop; subst s'. split; [| split; [exact Hfile | apply String.eqb_neq, Hk]].
      exists l. unfold storedList. cbn [data clearCacheByPattern set_cache].
      rewrite Hread. reflexivity. }
  destruct Hlist as ((l & Hl) & Hfile & Hk).
  assert (Hnone : List.find (hasId (Some objectId)) (storedList st' cls ck) = None)
    by (rewrite Hl; apply find_filter_none).
  split; [| split; [exact Hfile | split]].
  - destruct (existsb _ _) eqn:He; [| reflexivity].
    apply existsb_exists in He as (x & Hx & Hp).
    pose proof (find_none _ _ Hnone x Hx) as Hf. congruence.
  - destruct (getById_after_invalidation cls ck objectId st' Hi' Hk Hinv) as (s1 & Hby).
    rewrite Hnone in Hby. exists s1. exact Hby.
  - destruct (getById_after_invalidation cls ck objectId st' Hi' Hk Hinv) as (s1 & Hby).
    rewrite Hnone in Hby. exists s1. unfold exists_. rewrite (bind_ok _ _ _ _ _ Hby).
    reflexivity.
Qed.
End Engine.

(** * The sample scenario: instances and counterexamples *)

(** The hypothesis of C1 holds on the sample repository. *)
Lemma query_filter_sort_slice_witness :
  let F := fun e => bool_decide (ent_id e = Some "u2") in
  let S := fun a b => if String.ltb (ent_payload a) (ent_payload b) then 1 else -1 in
  getAll env0 Score "g1" withScores =
    (Ok [u1; u2], snd (getAll env0 Score "g1" withScores)) /\
  exists r,
    query env0 Score "g1"
      {| q_filter := Some F; q_sort := Some S; q_limit := Some 10; q_offset := Some 0 |}
      withScores = (Ok r, snd (getAll env0 Score "g1" withScores)) /\
    entities r = slice 0 (0 + 10) (arraySort S (List.filter F [u1; u2])) /\
    totalCount r = length [u1; u2].
Proof.
  intros F S.
  assert (H : getAll env0 Score "g1" withScores =
                (Ok [u1; u2], snd (getAll env0 Score "g1" withScores)))
    by (vm_compute; reflexivity).
  split; [exact H |].
  exact (query_filter_sort_slice env0 Score "g1" F S 10 0 withScores _ [u1; u2] H).
Defined.

(** C1 as stated fails: two records are stored, the filter keeps one, and
    [totalCount] is 2, not the 1 of the filtered list. *)
Lemma query_totalCount_is_before_filter :
  let F := fun e => bool_decide (ent_id e = Some "u2") in
  let S := fun a b => if String.ltb (ent_payload a) (ent_payload b) then 1 else -1 in
  exists r st',
    query env0 Score "g1"
      {| q_filter := Some F; q_sort := Some S; q_limit := Some 10; q_offset := Some 0 |}
      withScores = (Ok r, st') /\
    fst (getAll env0 Score "g1" withScores) = Ok [u1; u2] /\
    entities r = [u2] /\
    length (List.filter F [u1; u2]) = 1%nat /\
    totalCount r = 2%nat /\
    totalCount r <> length (List.filter F [u1; u2]).
Proof.
  intros F S. eexists. eexists. split; [vm_compute; reflexivity |].
  vm_compute. repeat split; try reflexivity. discriminate.
Qed.

(** The hypotheses of C2 hold 10 ms after an enqueue on the sample
    repository. *)
Lemma enqueue_resets_the_flush_timer_witness :
  (clock (configured None) <= 10 < clock (configured None) + BATCH_DELAY_MS) /\
  isWriting (configured None) = false /\
  writeFails env0 (writeCalls (configured None)) = None /\
  writeTimeout (storeData "g1" "scores" u1 (configured None)) =
    Some (clock (configured None) + BATCH_DELAY_MS) /\
  advanceTo env0 10 (storeData "g1" "scores" u1 (configured None)) =
    set_clock 10 (storeData "g1" "scores" u1 (configured None)).
Proof.
  assert (H1 : clock (configured None) <= 10 < clock (configured None) + BATCH_DELAY_MS)
    by (unfold BATCH_DELAY_MS; simpl; lia).
  assert (H2 : isWriting (configured None) = false) by reflexivity.
  assert (H3 : writeFails env0 (writeCalls (configured None)) = None) by reflexivity.
  pose proof (enqueue_resets_the_flush_timer env0 "g1" "scores" u1 (configured None) 10
                H1 H2 H3) as (Ht & _ & _ & _ & Ha & _).
  split; [exact H1 |]. split; [exact H2 |]. split; [exact H3 |].
  split; [exact Ht | exact Ha].
Defined.

(** C2 as stated fails: 100 writes queued 1 ms apart fill the queue to the
    cap of 100 without any flush, the timer still pending; the 101st write
    1 ms later is queued too and resets the timer once more. *)
Lemma queue_at_cap_does_not_flush :
  let s100 := fold_left (enqueueAt env0) (burst 100) (configured None) in
  let s101 := enqueueAt env0 s100 (100, queued "g1" "scores" u1) in
  length (pendingWrites s100) = MAX_BATCH_SIZE /\
  writeCalls s100 = 0%nat /\
  readList (data s100) "g1" "scores" = None /\
  writeTimeout s100 = Some 149 /\
  length (pendingWrites s101) = 101%nat /\
  writeCalls s101 = 0%nat /\
  writeTimeout s101 = Some 150.
Proof. vm_compute. repeat split; reflexivity. Qed.

(** The hypotheses of C3 hold on the sample repository. *)
Lemma deleteById_removes_every_match_witness :
  (forall k, writeFails env0 k = None) /\
  getAll env0 Score "g1" withScores =
    (Ok [u1; u2], snd (getAll env0 Score "g1" withScores)) /\
  exists st',
    deleteById env0 Score "g1" "u1" withScores = (Ok true, st') /\
    readList (data st') "g1" "scores" = Some [u2].
Proof.
  assert (H1 : forall k, writeFails env0 k = None) by (intros k; reflexivity).
  assert (H2 : getAll env0 Score "g1" withScores =
                 (Ok [u1; u2], snd (getAll env0 Score "g1" withScores)))
    by (vm_compute; reflexivity).
  split; [exact H1 |]. split; [exact H2 |].
  destruct (deleteById_removes_every_match env0 Score "g1" "u1" withScores _ [u1; u2] H1 H2)
    as (st' & Hrun & _ & _ & Hsome).
  exists st'. split; [exact Hrun |]. apply Hsome. reflexivity.
Defined.

(** Duplicates of an id all go: the stored list [u1; u2; u1'] without "u1"
    is [u2]. *)
Example deleteById_duplicates :
  let st := set_data (writeList ∅ "g1" "scores" [u1; u2; u1']) (configured None) in
  fst (deleteById env0 Score "g1" "u1" st) = Ok true /\
  readList (data (snd (deleteById env0 Score "g1" "u1" st))) "g1" "scores" = Some [u2] /\
  fst (deleteById env0 Score "g1" "u9" st) = Ok false.
Proof. vm_compute. repeat split; reflexivity. Qed.

(** The earlier copy of the module left the later duplicates in place. *)
Example legacy_deleteById_first_match_only :
  legacy_updatedItems "u1" [u1; u2; u1'] = Some [u2; u1'].
Proof. reflexivity. Qed.

(** The hypotheses of C4 hold on the sample repository when every write
    fails. *)
Lemma failed_write_is_retried_then_rejected_witness :
  let cfg := {| entityRegistry := Some scoreRegistry; enableCaching := true;
                cacheTTL := 5 * 60 * 1000; maxCacheSize := 1000 |} in
  let registration := {| reg_storageKey := "scores"; getCollectionKey := fun _ => "g1" |} in
  isInitialized (configured None) = true /\
  config (configured None) = Some cfg /\
  getRegistrationForInstance scoreRegistry u1 = Some registration /\
  (length (pendingWrites (configured None)) < MAX_BATCH_SIZE)%nat /\
  writeFails failing 0 = Some 0 /\
  writeFails failing 1 = Some 1 /\
  writeFails failing 2 = Some 2 /\
  exists st',
    store failing u1 (configured None) = (Err (WriteFailed 2), st') /\
    writeCalls st' = 3%nat /\
    slept st' = [100; 200] /\
    clock st' = 450.
Proof.
  intros cfg registration.
  assert (H1 : isInitialized (configured None) = true) by reflexivity.
  assert (H2 : config (configured None) = Some cfg) by reflexivity.
  assert (H3 : entityRegistry cfg = Some scoreRegistry) by reflexivity.
  assert (H4 : getRegistrationForInstance scoreRegistry u1 = Some registration)
    by reflexivity.
  assert (H5 : (length (pendingWrites (configured None)) < MAX_BATCH_SIZE)%nat)
    by (vm_compute; lia).
  assert (H6 : isWriting (configured None) = false) by reflexivity.
  assert (H7 : writeFails failing (writeCalls (configured None)) = Some 0) by reflexivity.
  assert (H8 : writeFails failing (S (writeCalls (configured None))) = Some 1)
    by reflexivity.
  assert (H9 : writeFails failing (S (S (writeCalls (configured None)))) = Some 2)
    by reflexivity.
  destruct (failed_write_is_retried_then_rejected failing u1 (configured None)
              cfg scoreRegistry registration 0 1 2 H1 H2 H3 H4 H5 H6 H7 H8 H9)
    as (_ & st' & Hrun & Hc & Hs & Hk).
  repeat (split; [assumption |]).
  exists st'. repeat split; assumption.
Defined.

(** The hypotheses of C5 hold on the sample repository. *)
Lemma flush_takes_one_hundred_and_partitions_the_queue_witness :
  let st := configured None in
  let s := storeData "g1" "scores" u1 st in
  let ws := [queued "g1" "scores" u1; queued "g1" "scores" u2] in
  (forall k, writeFails env0 k = None) /\
  pendingWrites st = [] /\
  writeTimeout st = None /\
  isWriting st = false /\
  pendingWrites s <> [] /\
  isWriting s = false /\
  exists st',
    settleAll env0 (enqueueAll ws st) = (map (fun w => (w, Resolved)) ws, st') /\
    writeCalls st' = 1%nat /\
    listAt (data st') "g1" "scores" = [u1; u2].
Proof.
  intros st s ws.
  assert (H1 : forall k, writeFails env0 k = None) by (intros k; reflexivity).
  assert (H2 : pendingWrites st = []) by reflexivity.
  assert (H3 : writeTimeout st = None) by reflexivity.
  assert (H4 : isWriting st = false) by reflexivity.
  assert (H5 : pendingWrites s <> []) by (vm_compute; discriminate).
  assert (H6 : isWriting s = false) by reflexivity.
  destruct (flush_takes_one_hundred_and_partitions_the_queue env0 st s ws
              H1 H2 H3 H4 H5 H6)
    as (_ & st' & Hrun & Hcalls & _ & _ & _ & Hlists & _).
  repeat (split; [assumption |]).
  exists st'. split; [exact Hrun |]. split; [exact Hcalls |].
  rewrite Hlists. reflexivity.
Defined.

(** 250 writes queued together: three durable writes, 250 records stored. *)
Example two_hundred_fifty_writes :
  let ws := repeat (queued "g1" "scores" u1) 250 in
  let st' := snd (settleAll env0 (enqueueAll ws (configured None))) in
  writeCalls st' = 3%nat /\
  totalWrites (metrics st') = 3%nat /\
  length (listAt (data st') "g1" "scores") = 250%nat /\
  pendingWrites st' = [] /\
  clock st' = 150.
Proof. vm_compute. repeat split; reflexivity. Qed.

Lemma scoreRegistry_wf : wfRegistry scoreRegistry.
Proof.
  apply (register_wf [] Score (fun _ => "g1") scoreRegistry wfRegistry_nil).
  reflexivity.
Qed.

(** The hypotheses of C6 hold on the sample repository: the scenario of the
    specification, value 10 then value 99 under the id u1. *)
Lemma storeUnique_insert_then_update_witness :
  let st := configured None in
  let cfg := {| entityRegistry := Some scoreRegistry; enableCaching := true;
                cacheTTL := 5 * 60 * 1000; maxCacheSize := 1000 |} in
  let registration := {| reg_storageKey := "scores"; getCollectionKey := fun _ => "g1" |} in
  (forall k, writeFails env0 k = None) /\
  isInitialized st = true /\
  config st = Some cfg /\
  wfRegistry scoreRegistry /\
  getRegistrationForInstance scoreRegistry u1 = Some registration /\
  pendingWrites st = [] /\
  isWriting st = false /\
  cacheAgrees st Score "g1" /\
  existsb (hasId (ent_id u1)) (storedList st Score "g1") = false /\
  exists st1 st2,
    storeUnique env0 u1 st = (Ok false, st1) /\
    storedList st1 Score "g1" = [u1] /\
    storeUnique env0 u1' st1 = (Ok true, st2) /\
    storedList st2 Score "g1" = [u1'].
Proof.
  intros st cfg registration.
  assert (H1 : forall k, writeFails env0 k = None) by (intros k; reflexivity).
  assert (H2 : isInitialized st = true) by reflexivity.
  assert (H3 : config st = Some cfg) by reflexivity.
  assert (H4 : entityRegistry cfg = Some scoreRegistry) by reflexivity.
  assert (H5 : getRegistrationForInstance scoreRegistry u1 = Some registration)
    by reflexivity.
  assert (H6 : pendingWrites st = []) by reflexivity.
  assert (H7 : isWriting st = false) by reflexivity.
  assert (H8 : cacheAgrees st Score "g1") by (intros e He; discriminate He).
  assert (H9 : existsb (hasId (ent_id u1)) (storedList st Score "g1") = false)
    by reflexivity.
  destruct (storeUnique_insert_then_update env0 u1 u1' st cfg scoreRegistry registration
              H1 H2 H3 H4 scoreRegistry_wf H5 H6 H7 H8 H9 eq_refl eq_refl eq_refl)
    as (st1 & st2 & Hr1 & Hs1 & _ & _ & Hr2 & Hs2 & _).
  split; [exact H1 |]. split; [exact H2 |]. split; [exact H3 |].
  split; [exact scoreRegistry_wf |]. split; [exact H5 |]. split; [exact H6 |].
  split; [exact H7 |]. split; [exact H8 |]. split; [exact H9 |].
  exists st1, st2. repeat split; assumption.
Defined.

(** On the aged repository, whose local time is UTC: the cutoff is 2000, the
    records of timestamps 1000 and 2000 go, the one of 3000 stays. *)
Example purgeStaleItems_on_the_aged_repository :
  (forall k, writeFails env0 k = None) /\
  getAll env0 Score "g1" aged = (Ok [u1; u1'; u2], snd (getAll env0 Score "g1" aged)) /\
  cutoffTime env0 168 (snd (getAll env0 Score "g1" aged)) = Some 2000 /\
  cutoffTimestamp env0 168 (snd (getAll env0 Score "g1" aged)) = "2000" /\
  exists st',
    purgeStaleItems env0 Score "g1" None aged = (Ok 2%nat, st') /\
    readList (data st') "g1" "scores" = Some [u2].
Proof.
  assert (H1 : forall k, writeFails env0 k = None) by (intros k; reflexivity).
  assert (H2 : getAll env0 Score "g1" aged =
                 (Ok [u1; u1'; u2], snd (getAll env0 Score "g1" aged)))
    by (vm_compute; reflexivity).
  assert (H3 : cutoffTime env0 168 (snd (getAll env0 Score "g1" aged)) = Some 2000)
    by (vm_compute; reflexivity).
  split; [exact H1 |]. split; [exact H2 |]. split; [exact H3 |].
  split; [vm_compute; reflexivity |].
  destruct (purgeStaleItems_keeps_strictly_newer env0 Score "g1" None aged _
              [u1; u1'; u2] H1 H2 ltac:(simpl default; rewrite H3; discriminate))
    as (st' & Hrun & _ & Hsome & _).
  exists st'. split; [exact Hrun |]. apply Hsome. vm_compute. discriminate.
Qed.
(** C7, at the failing input: in a process whose local zone is
    America/New_York, on 13 March 2024 at 12:00 UTC, three days after the
    clocks went forward, [purgeStaleItems] with the default age of 168 hours
    takes its cutoff on the wall clock, which is 167 hours back.  The record
    written 167.5 hours ago, whose timestamp is strictly newer than now minus
    168 hours, is removed and counted; with the same repository and clock in
    a process running in UTC it is kept. *)
Theorem purgeStaleItems_cutoff_follows_the_wall_clock :
  let now := clock weekOld in
  isoString now = "2024-03-13T12:00:00.000Z" /\
  isoString (now - 168 * msPerHour) = "2024-03-06T12:00:00.000Z" /\
  ent_timestamp w1 = Some "2024-03-06T12:30:00.000Z" /\
  isFresh (isoString (now - 168 * msPerHour)) w1 = true /\
  getAll newYork Score "g1" weekOld = (Ok [w1; w2], snd (getAll newYork Score "g1" weekOld)) /\
  cutoffTime newYork 168 weekOld = Some (now - 167 * msPerHour) /\
  cutoffTimestamp newYork 168 weekOld = "2024-03-06T13:00:00.000Z" /\
  fst (purgeStaleItems newYork Score "g1" None weekOld) = Ok 1%nat /\
  readList (data (snd (purgeStaleItems newYork Score "g1" None weekOld))) "g1" "scores" =
    Some [w2] /\
  cutoffTimestamp utc 168 weekOld = "2024-03-06T12:00:00.000Z" /\
  fst (purgeStaleItems utc Score "g1" None weekOld) = Ok 0%nat /\
  readList (data (snd (purgeStaleItems utc Score "g1" None weekOld))) "g1" "scores" =
    Some [w1; w2].
Proof. vm_compute. repeat split; reflexivity. Qed.

(** An age that takes the cutoff out of the range of [Date]: [toISOString]
    throws a RangeError in each of the three attempts, after [getAll] has
    run, and the call rejects with it; the store is left as it was. *)
Example purgeStaleItems_age_out_of_range :
  let st' := snd (purgeStaleItems env0 Score "g1" (Some 3000000000) aged) in
  cutoffTime env0 3000000000 aged = None /\
  fst (purgeStaleItems env0 Score "g1" (Some 3000000000) aged) = Err RangeError /\
  slept st' = [100; 200] /\
  data st' = data aged.
Proof. vm_compute. repeat split; reflexivity. Qed.

(** The renderer of the sample environments on known dates. *)
Example isoString_samples :
  isoString 0 = "1970-01-01T00:00:00.000Z" /\
  isoString 951782400000 = "2000-02-29T00:00:00.000Z" /\
  isoString 1710054000000 = "2024-03-10T07:00:00.000Z" /\
  isoString 1735689599999 = "2024-12-31T23:59:59.999Z" /\
  isoString (-1) = "1969-12-31T23:59:59.999Z" /\
  isoString 8640000000000000 = "+275760-09-13T00:00:00.000Z" /\
  isoString (-8640000000000000) = "-271821-04-20T00:00:00.000Z".
Proof. vm_compute. repeat split; reflexivity. Qed.


(** The hypothesis of C8 holds on the sample repository; after a [store]
    that found the collection and an entity of it cached, neither is. *)
Lemma mutations_invalidate_and_reads_see_the_store_witness :
  let warm := snd (getById env0 Score "g1" "u1" withScores) in
  let st' := snd (store env0 u3 warm) in
  isInitialized warm = true /\
  map fst (cache warm) = ["scores:g1"; "scores:g1:u1"] /\
  store env0 u3 warm = (Ok tt, st') /\
  cache st' = [] /\
  readsStore env0 st' Score "g1" /\
  storedList st' Score "g1" = [u1; u2; u3].
Proof.
  intros warm st'.
  assert (H1 : isInitialized warm = true) by reflexivity.
  assert (H2 : store env0 u3 warm = (Ok tt, st')) by (vm_compute; reflexivity).
  assert (H3 : fst (resolveRegistration u3 warm) =
                 Ok {| reg_storageKey := "scores"; getCollectionKey := fun _ => "g1" |})
    by reflexivity.
  destruct (mutations_invalidate_and_reads_see_the_store env0 warm st' H1)
    as (Hstore & _ & _ & _ & _ & Hreads).
  destruct (Hstore u3 _ H3 H2) as (Hsetup & Hinv).
  split; [exact H1 |]. split; [vm_compute; reflexivity |]. split; [exact H2 |].
  split; [vm_compute; reflexivity |]. split; [| vm_compute; reflexivity].
  apply (Hreads Score "g1" Hsetup); [discriminate | exact Hinv].
Defined.

(** The hypotheses of C10 hold on a fresh repository. *)
Lemma uninitialized_operations_are_noops_witness :
  config fresh = None /\
  initialized fresh = false /\
  store env0 u1 fresh = (Ok tt, fresh) /\
  getAll env0 Score "g1" fresh = (Ok [], fresh) /\
  deleteById env0 Score "g1" "u1" fresh = (Ok false, fresh) /\
  storeUnique env0 u1 fresh = (Ok false, fresh) /\
  purgeStaleItems env0 Score "g1" None fresh = (Ok 0%nat, fresh) /\
  getById env0 Score "g1" "u1" fresh = (Ok None, fresh).
Proof.
  destruct (uninitialized_operations_are_noops env0 fresh eq_refl eq_refl)
    as (Hstore & _ & _ & Hget & Hdel & _ & Huniq & Hpurge & _ & _ & Hbyid).
  split; [reflexivity |]. split; [reflexivity |].
  split; [apply Hstore |]. split; [apply Hget |]. split; [apply Hdel |].
  split; [apply Huniq |]. split; [apply Hpurge |].
  apply (Hbyid Score "g1" "u1"). discriminate.
Defined.

(** C10 as stated fails: before [initialize], [getById] and [exists] on a
    class without a storage key throw the configuration error. *)
Lemma getById_throws_before_initialize :
  config fresh = None /\
  initialized fresh = false /\
  getById env0 Keyless "g1" "u1" fresh = (Err MissingStorageKey, fresh) /\
  exists_ env0 Keyless "g1" "u1" fresh = (Err MissingStorageKey, fresh).
Proof. repeat split; reflexivity. Qed.

(** The scenario of the specification: two scores stored within one window
    are written by one durable write, in order. *)
Example two_scores_one_write :
  let st := enqueueAt env0 (enqueueAt env0 (configured None) (0, queued "g1" "scores" u1))
              (10, queued "g1" "scores" u2) in
  let st' := snd (settleAll env0 st) in
  writeTimeout st = Some 60 /\
  writeCalls st' = 1%nat /\
  fst (getAll env0 Score "g1" st') = Ok [u1; u2] /\
  (totalCount <$> (match fst (query env0 Score "g1"
                                 {| q_filter := None; q_sort := None;
                                    q_limit := None; q_offset := None |} st')
                   with Ok r => Some r | _ => None end)) = Some 2%nat.
Proof. vm_compute. repeat split; reflexivity. Qed.

(** A sort without a filter reorders the cached array: the next [getAll]
    returns the sorted order, which the stored list does not have. *)
Example query_sort_reorders_the_cached_array :
  let desc := fun a b => if String.ltb (ent_payload a) (ent_payload b) then 1 else -1 in
  let st' := snd (query env0 Score "g1"
                    {| q_filter := None; q_sort := Some desc;
                       q_limit := None; q_offset := None |} withScores) in
  fst (getAll env0 Score "g1" st') = Ok [u2; u1] /\
  readList (data st') "g1" "scores" = Some [u1; u2].
Proof. vm_compute. repeat split; reflexivity. Qed.

(** A write that fails once and then succeeds: [store] resolves, and the
    record, pushed on the list by both flushes, is stored twice. *)
Example retried_store_pushes_twice :
  let flaky := {| writeFails := fun k => if Nat.eqb k 0 then Some 7 else None;
                  toISOString := toISOString env0;
                  LocalTZA := LocalTZA env0 |} in
  let st' := snd (store flaky u1 (configured None)) in
  fst (store flaky u1 (configured None)) = Ok tt /\
  writeCalls st' = 2%nat /\
  slept st' = [100] /\
  readList (data st') "g1" "scores" = Some [u1; u1].
Proof. vm_compute. repeat split; reflexivity. Qed.

(** With a capacity of 5 the sixth insert evicts one entry, the one accessed
    longest ago, and the cache stays at 5. *)
Example sixth_insert_evicts_the_oldest :
  let insertAt st (tk : Z * string) := setCache (snd tk) (CArray []) (set_clock (fst tk) st) in
  let full := fold_left insertAt [(1, "a"); (2, "b"); (3, "c"); (4, "d"); (5, "e")]
                (configured (Some 5)) in
  let touched := snd (getFromCache "a" (set_clock 6 full)) in
  let st' := insertAt touched (7, "f") in
  map fst (cache full) = ["a"; "b"; "c"; "d"; "e"] /\
  map fst (cache st') = ["a"; "c"; "d"; "e"; "f"] /\
  evictions (cacheStats st') = 1%nat.
Proof. vm_compute. repeat split; reflexivity. Qed.

(** * Instances of the further properties *)

(** The hypothesis of X1 holds for the class Score. *)
Lemma register_then_getRegistration_witness :
  storageKey Score <> "" /\
  exists r',
    register [] Score (fun _ => "g1") = Ok r' /\
    (reg_storageKey <$> getRegistration r' Score) = Some "scores" /\
    isRegistered r' Score = true.
Proof.
  assert (H : storageKey Score <> "") by discriminate.
  split; [exact H |].
  destruct (register_then_getRegistration [] Score (fun _ => "g1") H)
    as (r' & Hr & Hg & _ & Hi & _).
  exists r'. split; [exact Hr |]. split; [rewrite Hg; reflexivity | exact Hi].
Defined.

(** The hypothesis of X2 holds for the class Score. *)
Lemma register_again_replaces_witness :
  storageKey Score <> "" /\
  exists r1 r2,
    register [] Score (fun _ => "g1") = Ok r1 /\
    register r1 Score (fun _ => "g2") = Ok r2 /\
    ((fun reg => getCollectionKey reg u1) <$> getRegistration r2 Score) = Some "g2" /\
    map fst r2 = map fst r1.
Proof.
  assert (H : storageKey Score <> "") by discriminate.
  split; [exact H |].
  destruct (register_again_replaces [] Score (fun _ => "g1") (fun _ => "g2") H)
    as (r1 & r2 & H1 & H2 & Hg & Hk & _).
  exists r1, r2. split; [exact H1 |]. split; [exact H2 |].
  split; [rewrite Hg; reflexivity | exact Hk].
Defined.

(** The hypotheses of X3 hold for the list [u2; u1; u1'] and the id u1. *)
Lemma legacy_deleteById_removes_the_first_match_only_witness :
  existsb (hasId (Some "u1")) [u2] = false /\
  hasId (Some "u1") u1 = true /\
  legacy_updatedItems "u1" [u2; u1; u1'] = Some [u2; u1'].
Proof.
  split; [reflexivity |]. split; [reflexivity |].
  exact (legacy_deleteById_removes_the_first_match_only "u1" [u2] [u1'] u1 eq_refl eq_refl).
Defined.

(** The hypotheses of X5 hold on the sample repository: an entry written at
    time 0 with the default time to live is served at 300000 ms and gone at
    300001 ms. *)
Lemma cache_entry_lives_for_its_ttl_witness :
  let st := configured None in
  let cfg := {| entityRegistry := Some scoreRegistry; enableCaching := true;
                cacheTTL := 5 * 60 * 1000; maxCacheSize := 1000 |} in
  config st = Some cfg /\
  enableCaching cfg = true /\
  fst (getFromCache "scores:g1" (set_clock 300000 (setCache "scores:g1" (CArray [u1]) st))) =
    Some (CArray [u1]) /\
  fst (getFromCache "scores:g1" (set_clock 300001 (setCache "scores:g1" (CArray [u1]) st))) =
    None.
Proof.
  intros st cfg.
  assert (H1 : config st = Some cfg) by reflexivity.
  assert (H2 : enableCaching cfg = true) by reflexivity.
  split; [exact H1 |]. split; [exact H2 |]. split.
  - destruct (cache_entry_lives_for_its_ttl "scores:g1" (CArray [u1]) st cfg 300000 H1 H2)
      as [Hlive _].
    apply Hlive. simpl. lia.
  - destruct (cache_entry_lives_for_its_ttl "scores:g1" (CArray [u1]) st cfg 300001 H1 H2)
      as [_ Hdead].
    apply Hdead. simpl. lia.
Defined.

(** The hypotheses of X6 hold on the sample repository with caching off. *)
Lemma getAll_without_caching_reads_the_store_witness :
  let cfg := {| entityRegistry := Some scoreRegistry; enableCaching := false;
                cacheTTL := 5 * 60 * 1000; maxCacheSize := 1000 |} in
  isInitialized uncached = true /\
  config uncached = Some cfg /\
  enableCaching cfg = false /\
  storageKey Score <> "" /\
  storedList uncached Score "g1" = [u1; u2] /\
  getAll env0 Score "g1" uncached = (Ok (storedList uncached Score "g1"), uncached).
Proof.
  intros cfg.
  assert (H1 : isInitialized uncached = true) by reflexivity.
  assert (H2 : config uncached = Some cfg) by reflexivity.
  assert (H3 : enableCaching cfg = false) by reflexivity.
  assert (H4 : storageKey Score <> "") by discriminate.
  split; [exact H1 |]. split; [exact H2 |]. split; [exact H3 |]. split; [exact H4 |].
  split; [vm_compute; reflexivity |].
  exact (proj1 (getAll_without_caching_reads_the_store env0 Score "g1" uncached cfg
                  H1 H2 H3 H4)).
Defined.

(** The hypotheses of X7 hold on the sample repository: the list read at
    time 0 is served at time 1000 although the store is empty by then. *)
Lemma getAll_answers_from_the_cache_within_ttl_witness :
  let cfg := {| entityRegistry := Some scoreRegistry; enableCaching := true;
                cacheTTL := 5 * 60 * 1000; maxCacheSize := 1000 |} in
  isInitialized withScores = true /\
  config withScores = Some cfg /\
  cache_get (getCacheKey (storageKey Score) "g1" None) (cache withScores) = None /\
  readList (data withScores) "g1" (storageKey Score) = Some [u1; u2] /\
  exists st1 st2,
    getAll env0 Score "g1" withScores = (Ok [u1; u2], st1) /\
    getAll env0 Score "g1" (set_data ∅ (set_clock 1000 st1)) = (Ok [u1; u2], st2).
Proof.
  intros cfg.
  assert (H1 : isInitialized withScores = true) by reflexivity.
  assert (H2 : config withScores = Some cfg) by reflexivity.
  assert (H3 : cache_get (getCacheKey (storageKey Score) "g1" None) (cache withScores) = None)
    by reflexivity.
  assert (H4 : readList (data withScores) "g1" (storageKey Score) = Some [u1; u2])
    by (vm_compute; reflexivity).
  assert (H5 : storageKey Score <> "") by discriminate.
  assert (H6 : 1000 <= clock withScores + cacheTTL cfg) by (simpl; lia).
  split; [exact H1 |]. split; [exact H2 |]. split; [exact H3 |]. split; [exact H4 |].
  destruct (getAll_answers_from_the_cache_within_ttl env0 Score "g1" withScores cfg
              [u1; u2] 1000 ∅ H1 H2 eq_refl H5 H3 H4 H6)
    as (st1 & st2 & Hg1 & _ & Hg2 & _).
  exists st1, st2. split; assumption.
Defined.

(** The hypotheses of X8 hold on the sample repository before anything is
    stored. *)
Lemma getAll_of_a_missing_collection_caches_nothing_witness :
  let st := configured None in
  isInitialized st = true /\
  storageKey Score <> "" /\
  cache_get (getCacheKey (storageKey Score) "g1" None) (cache st) = None /\
  readList (data st) "g1" (storageKey Score) = None /\
  fst (getAll env0 Score "g1" st) = Ok [] /\
  cache (snd (getAll env0 Score "g1" st)) = [].
Proof.
  intros st.
  assert (H1 : isInitialized st = true) by reflexivity.
  assert (H2 : storageKey Score <> "") by discriminate.
  assert (H3 : cache_get (getCacheKey (storageKey Score) "g1" None) (cache st) = None)
    by reflexivity.
  assert (H4 : readList (data st) "g1" (storageKey Score) = None) by reflexivity.
  split; [exact H1 |]. split; [exact H2 |]. split; [exact H3 |]. split; [exact H4 |].
  rewrite (getAll_of_a_missing_collection_caches_nothing env0 Score "g1" st H1 H2 H3 H4).
  split; reflexivity.
Defined.


(** The hypotheses of X10 hold on the sample repository: [replaceAll] for
    g1 leaves nothing cached for g10. *)
Lemma replaceAll_clears_longer_collection_keys_witness :
  let st' := snd (replaceAll env0 Score "g1" [u1] withScores) in
  isInitialized withScores = true /\
  replaceAll env0 Score "g1" [u1] withScores = (Ok tt, st') /\
  String.prefix "g1" "g10" = true /\
  cache_get (getCacheKey (storageKey Score) "g10" (Some "u1")) (cache st') = None.
Proof.
  intros st'.
  assert (H1 : isInitialized withScores = true) by reflexivity.
  assert (H2 : replaceAll env0 Score "g1" [u1] withScores = (Ok tt, st'))
    by (vm_compute; reflexivity).
  assert (H3 : String.prefix "g1" "g10" = true) by reflexivity.
  split; [exact H1 |]. split; [exact H2 |]. split; [exact H3 |].
  exact (replaceAll_clears_longer_collection_keys env0 Score "g1" "g10" [u1] withScores st'
           (Some "u1") H1 H2 H3).
Defined.

(** The hypotheses of X11 hold on the sample repository with a capacity of
    5, for seven writes under different keys. *)
Lemma cache_stays_within_capacity_witness :
  let st := configured (Some 5) in
  let cfg := {| entityRegistry := Some scoreRegistry; enableCaching := true;
                cacheTTL := 5 * 60 * 1000; maxCacheSize := 5 |} in
  let ops := [CacheWrite "a" (CArray []); CacheWrite "b" (CArray []); ClockAdvance 1;
              CacheWrite "c" (CArray []); CacheWrite "d" (CArray []); CacheRead "a";
              CacheWrite "e" (CArray []); CacheWrite "f" (CArray []);
              CacheWrite "g" (CArray [])] in
  config st = Some cfg /\
  5 <= maxCacheSize cfg /\
  cache st = [] /\
  Z.of_nat (length (cache (fold_left runCacheOp ops st))) <= 5.
Proof.
  intros st cfg ops.
  assert (H1 : config st = Some cfg) by reflexivity.
  assert (H2 : 5 <= maxCacheSize cfg) by (simpl; lia).
  assert (H3 : cache st = []) by reflexivity.
  split; [exact H1 |]. split; [exact H2 |]. split; [exact H3 |].
  exact (proj1 (cache_stays_within_capacity ops st cfg H1 H2 H3)).
Defined.

(** The hypothesis of X12 holds for a cache of five entries written at
    times 1 to 5: one entry goes. *)
Lemma eviction_removes_the_least_recently_accessed_fifth_witness :
  let insertAt st (tk : Z * string) := setCache (snd tk) (CArray []) (set_clock (fst tk) st) in
  let st := fold_left insertAt [(1, "a"); (2, "b"); (3, "c"); (4, "d"); (5, "e")]
              (configured (Some 5)) in
  NoDup (map fst (cache st)) /\
  length (cache (evictOldestEntries st)) = 4%nat.
Proof.
  intros insertAt st.
  assert (H : NoDup (map fst (cache st))).
  { apply (bool_decide_unpack _). vm_compute. exact I. }
  split; [exact H |].
  destruct (eviction_removes_the_least_recently_accessed_fifth st H) as (Hl & _).
  rewrite Hl. vm_compute. reflexivity.
Defined.

(** The hypotheses of X14 hold for the first page of one entity of the two
    stored: more remain. *)
Lemma query_hasMore_tells_whether_entities_remain_witness :
  let options := {| q_filter := None; q_sort := None; q_limit := Some 1;
                    q_offset := Some 0 |} in
  let r := {| entities := [u1]; totalCount := 2; hasMore := true; executionTimeMs := 0 |} in
  q_filter options = None /\
  0 <= default 0 (q_offset options) /\
  (forall limit, q_limit options = Some limit -> 0 <= limit) /\
  query env0 Score "g1" options withScores =
    (Ok r, snd (query env0 Score "g1" options withScores)) /\
  (hasMore r = true <->
   default 0 (q_offset options) + Z.of_nat (length (entities r)) < Z.of_nat (totalCount r)).
Proof.
  intros options r.
  assert (H1 : q_filter options = None) by reflexivity.
  assert (H2 : 0 <= default 0 (q_offset options)) by (simpl; lia).
  assert (H3 : forall limit, q_limit options = Some limit -> 0 <= limit).
  { intros limit H. inversion H. lia. }
  assert (H4 : query env0 Score "g1" options withScores =
                 (Ok r, snd (query env0 Score "g1" options withScores)))
    by (vm_compute; reflexivity).
  split; [exact H1 |]. split; [exact H2 |]. split; [exact H3 |]. split; [exact H4 |].
  exact (query_hasMore_tells_whether_entities_remain env0 Score "g1" options withScores _ r
           H1 H2 H3 H4).
Defined.

(** The hypothesis of X17 holds on the sample repository, u1 taken as
    expired. *)
Lemma active_and_expired_split_the_collection_witness :
  let isExpired := fun entity => bool_decide (ent_id entity = Some "u1") in
  getAll env0 Score "g1" withScores =
    (Ok [u1; u2], snd (getAll env0 Score "g1" withScores)) /\
  fst (getActiveTemporary env0 isExpired Score "g1" withScores) = Ok [u2] /\
  fst (getExpiredTemporary env0 isExpired Score "g1" withScores) = Ok [u1].
Proof.
  intros isExpired.
  assert (H : getAll env0 Score "g1" withScores =
                (Ok [u1; u2], snd (getAll env0 Score "g1" withScores)))
    by (vm_compute; reflexivity).
  split; [exact H |].
  destruct (active_and_expired_split_the_collection env0 isExpired Score "g1" withScores _
              [u1; u2] H) as (Ha & He & _).
  rewrite Ha, He. split; reflexivity.
Defined.


(** The hypothesis of X19 holds on the sample repository; of u1 and the
    record of an unregistered class, one is stored and one fails. *)
Lemma bulkStore_accounts_for_every_entity_witness :
  let st := configured None in
  isWriting st = false /\
  exists r st',
    bulkStore env0 [u1; stray] st = (Ok r, st') /\
    (successful r + failed r = 2)%nat /\
    length (errors r) = failed r.
Proof.
  intros st.
  assert (H : isWriting st = false) by reflexivity.
  split; [exact H |].
  destruct (bulkStore_accounts_for_every_entity env0 [u1; stray] st H)
    as (r & st' & Hrun & Hc & He & _).
  exists r, st'. repeat split; assumption.
Defined.

(** The hypothesis of X21 holds on a fresh repository. *)
Lemma bulk_operations_before_initialize_witness :
  isInitialized fresh = false /\
  fst (bulkStore env0 [u1; u2] fresh) =
    Ok {| successful := 2; failed := 0; errors := []; bulk_executionTimeMs := 0 |} /\
  snd (bulkStore env0 [u1; u2] fresh) = fresh /\
  (failed <$> match fst (bulkDelete env0 Score "g1" ["u1"] fresh) with
              | Ok r => Some r
              | _ => None
              end) = Some 1%nat.
Proof.
  assert (H : isInitialized fresh = false) by reflexivity.
  split; [exact H |].
  destruct (bulk_operations_before_initialize env0 [u1; u2] Score "g1" ["u1"] fresh H)
    as (t & t' & Hs & Hd).
  rewrite Hd. split; [| split; [rewrite Hs; reflexivity | reflexivity]].
  vm_compute. reflexivity.
Defined.

(** The hypotheses of X22 hold on the sample repository: of the ids u1 and
    u9, the first is deleted and the second is not found. *)
Lemma bulkDelete_removes_the_listed_ids_witness :
  (forall k, writeFails env0 k = None) /\
  isInitialized withScores = true /\
  storageKey Score <> "" /\
  cacheAgrees withScores Score "g1" /\
  NoDup ["u1"; "u9"] /\
  exists r st',
    bulkDelete env0 Score "g1" ["u1"; "u9"] withScores = (Ok r, st') /\
    storedList st' Score "g1" = [u2] /\
    successful r = 1%nat /\
    errors r = [(IdOnly "u9", EntityNotFound)].
Proof.
  assert (H1 : forall k, writeFails env0 k = None) by (intros k; reflexivity).
  assert (H2 : isInitialized withScores = true) by reflexivity.
  assert (H3 : storageKey Score <> "") by discriminate.
  assert (H4 : cacheAgrees withScores Score "g1") by (intros e He; discriminate He).
  assert (H5 : NoDup ["u1"; "u9"]).
  { apply (bool_decide_unpack _). vm_compute. exact I. }
  split; [exact H1 |]. split; [exact H2 |]. split; [exact H3 |]. split; [exact H4 |].
  split; [exact H5 |].
  destruct (bulkDelete_removes_the_listed_ids env0 Score "g1" ["u1"; "u9"] withScores
              H1 H2 H3 H4) as (r & st' & Hrun & Hl & Hcount).
  destruct (Hcount H5) as [Hs He].
  exists r, st'. split; [exact Hrun |]. split; [| split].
  - rewrite Hl. vm_compute. reflexivity.
  - rewrite Hs. vm_compute. reflexivity.
  - rewrite He. vm_compute. reflexivity.
Defined.

(** The hypotheses of X23 hold on the sample repository: two entities, two
    durable writes, 100 ms. *)
Lemma bulkStore_makes_one_durable_write_per_entity_witness :
  let st := configured None in
  let cfg := {| entityRegistry := Some scoreRegistry; enableCaching := true;
                cacheTTL := 5 * 60 * 1000; maxCacheSize := 1000 |} in
  (forall k, writeFails env0 k = None) /\
  isInitialized st = true /\
  config st = Some cfg /\
  Forall (fun entity => getRegistrationForInstance scoreRegistry entity <> None) [u1; u2] /\
  pendingWrites st = [] /\
  isWriting st = false /\
  exists st',
    bulkStore env0 [u1; u2] st =
      (Ok {| successful := 2; failed := 0; errors := []; bulk_executionTimeMs := 100 |},
       st') /\
    writeCalls st' = 2%nat /\
    listAt (data st') "g1" "scores" = [u1; u2].
Proof.
  intros st cfg.
  assert (H1 : forall k, writeFails env0 k = None) by (intros k; reflexivity).
  assert (H2 : isInitialized st = true) by reflexivity.
  assert (H3 : config st = Some cfg) by reflexivity.
  assert (H4 : Forall (fun entity => getRegistrationForInstance scoreRegistry entity <> None)
                 [u1; u2]) by (repeat constructor; discriminate).
  assert (H5 : pendingWrites st = []) by reflexivity.
  assert (H6 : isWriting st = false) by reflexivity.
  split; [exact H1 |]. split; [exact H2 |]. split; [exact H3 |]. split; [exact H4 |].
  split; [exact H5 |]. split; [exact H6 |].
  destruct (bulkStore_makes_one_durable_write_per_entity env0 [u1; u2] st cfg scoreRegistry
              H1 H2 H3 eq_refl H4 H5 H6) as (st' & Hrun & Hc & _ & Hl & _).
  exists st'. split; [exact Hrun |]. split; [exact Hc |].
  rewrite Hl. vm_compute. reflexivity.
Defined.

(** The hypotheses of X24 hold on the sample repository with one write
    queued: the flush empties the queue and leaves no timer. *)
Lemma flushPendingWrites_flushes_one_batch_witness :
  let st := storeData "g1" "scores" u1 (configured None) in
  isWriting st = false /\
  writeFails env0 (writeCalls st) = None /\
  pendingWrites st <> [] /\
  exists st',
    flushPendingWrites env0 st = ([(queued "g1" "scores" u1, Resolved)], st') /\
    pendingWrites st' = [] /\
    writeTimeout st' = None.
Proof.
  intros st.
  assert (H1 : isWriting st = false) by reflexivity.
  assert (H2 : writeFails env0 (writeCalls st) = None) by reflexivity.
  assert (H3 : pendingWrites st <> []) by discriminate.
  split; [exact H1 |]. split; [exact H2 |]. split; [exact H3 |].
  destruct (flushPendingWrites_flushes_one_batch env0 st H1 H2) as [_ Hflush].
  destruct (Hflush H3) as (st' & Hrun & Hp & Ht & _).
  exists st'. split; [exact Hrun |]. split; [exact Hp | exact Ht].
Defined.

(** The hypotheses of X25 hold on the sample repository with one write
    queued, every durable write failing. *)
Lemma failed_flush_is_not_rolled_back_witness :
  let st := storeData "g1" "scores" u1 (configured None) in
  pendingWrites st <> [] /\
  isWriting st = false /\
  writeFails failing (writeCalls st) = Some 0 /\
  exists st',
    performBatchWrite failing st =
      ([(queued "g1" "scores" u1, Rejected (WriteFailed 0))], st') /\
    listAt (data st') "g1" "scores" = [u1] /\
    file st' = ∅.
Proof.
  intros st.
  assert (H1 : pendingWrites st <> []) by discriminate.
  assert (H2 : isWriting st = false) by reflexivity.
  assert (H3 : writeFails failing (writeCalls st) = Some 0) by reflexivity.
  split; [exact H1 |]. split; [exact H2 |]. split; [exact H3 |].
  destruct (failed_flush_is_not_rolled_back failing st 0 H1 H2 H3)
    as (st' & Hrun & _ & Hl & Hf & _).
  exists st'. split; [exact Hrun |]. split.
  - rewrite Hl. vm_compute. reflexivity.
  - rewrite Hf. reflexivity.
Defined.

(** The hypotheses of X26 hold for [store] of u1 on the sample repository. *)
Lemma store_resolves_after_the_durable_write_witness :
  let st := configured None in
  let registration := {| reg_storageKey := "scores"; getCollectionKey := fun _ => "g1" |} in
  let st' := snd (store env0 u1 st) in
  isInitialized st = true /\
  fst (resolveRegistration u1 st) = Ok registration /\
  store env0 u1 st = (Ok tt, st') /\
  file st' = data st' /\
  In u1 (listAt (file st') "g1" "scores").
Proof.
  intros st registration st'.
  assert (H1 : isInitialized st = true) by reflexivity.
  assert (H2 : fst (resolveRegistration u1 st) = Ok registration) by reflexivity.
  assert (H3 : store env0 u1 st = (Ok tt, st')) by (vm_compute; reflexivity).
  split; [exact H1 |]. split; [exact H2 |]. split; [exact H3 |].
  exact (store_resolves_after_the_durable_write env0 u1 st st' registration H1 H2 H3).
Defined.

(** The hypotheses of X27 hold on the sample repository, for a record of a
    class that is not registered and has no storage key. *)
Lemma configuration_errors_are_retried_witness :
  let st := configured None in
  isInitialized st = true /\
  idle st /\
  fst (resolveRegistration stray st) = Err (NotRegistered "Keyless") /\
  storageKey Keyless = "" /\
  fst (store env0 stray st) = Err (NotRegistered "Keyless") /\
  slept (snd (store env0 stray st)) = [100; 200] /\
  fst (getAll env0 Keyless "g1" st) = Err MissingStorageKey /\
  getById env0 Keyless "g1" "k1" st = (Err MissingStorageKey, st).
Proof.
  intros st.
  assert (H1 : isInitialized st = true) by reflexivity.
  assert (H2 : idle st) by (repeat split; reflexivity).
  assert (H3 : fst (resolveRegistration stray st) = Err (NotRegistered "Keyless"))
    by reflexivity.
  assert (H4 : storageKey Keyless = "") by reflexivity.
  split; [exact H1 |]. split; [exact H2 |]. split; [exact H3 |]. split; [exact H4 |].
  destruct (configuration_errors_are_retried env0 stray Keyless "g1" "k1" [] st
              (NotRegistered "Keyless") H1 H2) as ((Hs & _) & Hreg & Hkey).
  destruct (Hreg H3) as [Hstore _]. destruct (Hkey H4) as (Hget & _ & Hby).
  rewrite Hstore, Hget. split; [reflexivity |]. split; [exact Hs |].
  split; [reflexivity | exact Hby].
Defined.

(** The hypotheses of X28 hold on the sample repository when the first
    durable write fails: u1 is stored twice. *)
Lemma retried_store_leaves_the_record_twice_witness :
  let st := configured None in
  let cfg := {| entityRegistry := Some scoreRegistry; enableCaching := true;
                cacheTTL := 5 * 60 * 1000; maxCacheSize := 1000 |} in
  let registration := {| reg_storageKey := "scores"; getCollectionKey := fun _ => "g1" |} in
  isInitialized st = true /\
  config st = Some cfg /\
  getRegistrationForInstance scoreRegistry u1 = Some registration /\
  idle st /\
  writeFails flaky (writeCalls st) = Some 7 /\
  writeFails flaky (S (writeCalls st)) = None /\
  exists st',
    store flaky u1 st = (Ok tt, st') /\
    listAt (data st') "g1" "scores" = [u1; u1] /\
    file st' = data st'.
Proof.
  intros st cfg registration.
  assert (H1 : isInitialized st = true) by reflexivity.
  assert (H2 : config st = Some cfg) by reflexivity.
  assert (H3 : getRegistrationForInstance scoreRegistry u1 = Some registration)
    by reflexivity.
  assert (H4 : idle st) by (repeat split; reflexivity).
  assert (H5 : writeFails flaky (writeCalls st) = Some 7) by reflexivity.
  assert (H6 : writeFails flaky (S (writeCalls st)) = None) by reflexivity.
  split; [exact H1 |]. split; [exact H2 |]. split; [exact H3 |]. split; [exact H4 |].
  split; [exact H5 |]. split; [exact H6 |].
  destruct (retried_store_leaves_the_record_twice flaky u1 st cfg scoreRegistry registration 7
              H1 H2 eq_refl H3 H4 H5 H6) as (st' & Hrun & Hl & Hf & _).
  exists st'. split; [exact Hrun |]. split; [| exact Hf].
  transitivity (listAt (data st) "g1" "scores" ++ [u1; u1]); [exact Hl | reflexivity].
Defined.


(** The hypotheses of X30 hold for [deleteById] of u1 on the sample
    repository. *)
Lemma deleteById_then_the_id_is_gone_witness :
  let st' := snd (deleteById env0 Score "g1" "u1" withScores) in
  isInitialized withScores = true /\
  deleteById env0 Score "g1" "u1" withScores = (Ok true, st') /\
  file st' = data st' /\
  exists s2, exists_ env0 Score "g1" "u1" st' = (Ok false, s2).
Proof.
  intros st'.
  assert (H1 : isInitialized withScores = true) by reflexivity.
  assert (H2 : deleteById env0 Score "g1" "u1" withScores = (Ok true, st'))
    by (vm_compute; reflexivity).
  split; [exact H1 |]. split; [exact H2 |].
  destruct (deleteById_then_the_id_is_gone env0 Score "g1" "u1" withScores st' H1 H2)
    as (_ & Hf & _ & Hex).
  split; [exact Hf | exact Hex].
Defined.

(** The hypothesis of X15 holds on the sample repository: of the records
    [u1; u2] the one of id u2 is found. *)
Lemma findByField_filters_getAll_witness :
  getAll env0 Score "g1" withScores =
    (Ok [u1; u2], snd (getAll env0 Score "g1" withScores)) /\
  fst (findByField env0 Score "g1" ent_id (Some "u2") withScores) = Ok [u2].
Proof.
  assert (H : getAll env0 Score "g1" withScores =
                (Ok [u1; u2], snd (getAll env0 Score "g1" withScores)))
    by (vm_compute; reflexivity).
  split; [exact H |].
  rewrite (findByField_filters_getAll env0 Score "g1" ent_id (Some "u2") withScores _
             [u1; u2] H).
  reflexivity.
Defined.
